(** * Bookshelf query engine of strapi-connector-bookshelf (lib/queries.js)

    A shallow embedding of [createQueryBuilder] and of the helpers that follow
    it in the file: the validators of nested payloads, the search predicate
    builder, and the create / update / delete operations over an entity table,
    its component tables and the polymorphic join table, run in a state and
    error monad over a store with transactions. *)

From Stdlib Require Import List String Ascii ZArith Bool Lia.
From Stdlib Require Import DecimalString DecimalZ.
Import ListNotations.
Open Scope string_scope.
Open Scope Z_scope.
Set Warnings "-register-all".

(** ** JavaScript values *)

(** JSON payloads as the code receives them. Numbers are the integers (ids,
    counts, orders); [undefined] is the [None] of a lookup. *)
Inductive value : Type :=
| VNull : value
| VBool : bool -> value
| VNum : Z -> value
| VStr : string -> value
| VArr : list value -> value
| VObj : list (string * value) -> value.

Definition obj := list (string * value).

Fixpoint alookup {A : Type} (k : string) (l : list (string * A)) : option A :=
  match l with
  | [] => None
  | (k', v) :: r => if String.eqb k k' then Some v else alookup k r
  end.

Definition amem {A : Type} (k : string) (l : list (string * A)) : bool :=
  match alookup k l with Some _ => true | None => false end.

Definition strIn (s : string) (l : list string) : bool :=
  existsb (String.eqb s) l.

(** [_.has(v, k)]: own property of an object. *)
Definition has (v : value) (k : string) : bool :=
  match v with
  | VObj o => amem k o
  | _ => false
  end.

(** [v[k]] on a value that may not be an object. *)
Definition get (v : value) (k : string) : option value :=
  match v with
  | VObj o => alookup k o
  | _ => None
  end.

(** [_.pick(values, keys)] *)
Definition pick (values : obj) (keys : list string) : obj :=
  filter (fun kv => strIn (fst kv) keys) values.

(** [_.omit(value, keys)] *)
Definition omit (values : obj) (keys : list string) : obj :=
  filter (fun kv => negb (strIn (fst kv) keys)) values.

Definition isArray (v : value) : bool :=
  match v with VArr _ => true | _ => false end.

(** [typeof v === 'object'] holds of objects, arrays and [null]. *)
Definition typeofObject (v : value) : bool :=
  match v with VNull | VArr _ | VObj _ => true | _ => false end.

Definition isNull (v : value) : bool :=
  match v with VNull => true | _ => false end.

(** JavaScript truthiness. *)
Definition truthy (v : value) : bool :=
  match v with
  | VNull => false
  | VBool b => b
  | VNum z => negb (z =? 0)
  | VStr s => negb (String.eqb s "")
  | VArr _ | VObj _ => true
  end.

Definition truthyOpt (o : option value) : bool :=
  match o with Some v => truthy v | None => false end.

Definition Zstr (z : Z) : string := NilEmpty.string_of_int (Z.to_int z).

Definition joinWith (sep : string) : list string -> string :=
  fix go (l : list string) : string :=
    match l with
    | [] => ""
    | [x] => x
    | x :: r => x ++ sep ++ go r
    end.

(** The string a value converts to, as in [Array.prototype.join]: [null]
    gives the empty string there. *)
Fixpoint jsString (v : value) : string :=
  match v with
  | VNull => ""
  | VBool true => "true"
  | VBool false => "false"
  | VNum z => Zstr z
  | VStr s => s
  | VArr l => joinWith "," (map jsString l)
  | VObj _ => "[object Object]"
  end.

(** [v.toString()]: a [TypeError] on [null], the [None] here. *)
Definition toString (v : value) : option string :=
  match v with
  | VNull => None
  | _ => Some (jsString v)
  end.

(** ** Errors *)

(** An [Error] with its [status] field set, or one of the failures the code
    does not classify: a [TypeError] of the runtime, a failure of the
    backend, and the exhaustion of the recursion budget of the embedding. *)
Inductive Error : Type :=
| HttpError (status : Z) (message : string)
| TypeError (message : string)
| BackendFailure (message : string)
| OutOfFuel.

Definition statusOf (e : Error) : option Z :=
  match e with
  | HttpError s _ => Some s
  | _ => None
  end.

Inductive Result (A : Type) : Type :=
| Ok : A -> Result A
| Err : Error -> Result A.
Arguments Ok {A} _.
Arguments Err {A} _.

Definition isErrStatus {A : Type} (s : Z) (r : Result A) : Prop :=
  exists msg, r = Err (HttpError s msg).

(** ** Model metadata *)

Record Attribute : Type := {
  a_type : string;
  a_component : string;
  a_components : list string;
  a_required : bool;
  a_repeatable : bool;
  a_min : option Z;
  a_max : option Z
}.

Record Association : Type := {
  alias : string;
  nature : string
}.

Record Model : Type := {
  uid : string;
  collectionName : string;
  primaryKey : string;
  (** [strapi.connections[model.connection].context.client.config.client] *)
  connectionClient : string;
  (** [model.client], the dialect the search builder dispatches on *)
  client : string;
  attributes : list (string * Attribute);
  (** [model._attributes]: name and type of every column *)
  _attributes : list (string * string);
  (** the keys of [model.allAttributes] *)
  allAttributes : list string;
  associations : list Association;
  (** [model.options.timestamps]; [None] when it is not an array *)
  timestamps : option (list string)
}.

(** ** Validators *)

(** A configured bound counts when it is truthy: [min && ...], [max && ...]. *)
Definition truthyBound (b : option Z) : bool :=
  match b with
  | Some z => negb (z =? 0)
  | None => false
  end.

Definition boundVal (b : option Z) : Z :=
  match b with Some z => z | None => 0 end.

Definition boundStr (b : option Z) : string :=
  match b with Some z => Zstr z | None => "undefined" end.

Definition len {A : Type} (l : list A) : Z := Z.of_nat (List.length l).

Definition isPlainItem (val : value) : bool :=
  negb (negb (typeofObject val) || isArray val || isNull val).

(** The first throw of a [forEach] body, if any. *)
Fixpoint forEachCheck {A : Type} (f : A -> Result unit) (l : list A) : Result unit :=
  match l with
  | [] => Ok tt
  | x :: r =>
      match f x with
      | Ok _ => forEachCheck f r
      | Err e => Err e
      end
  end.

Definition checkBounds (what key : string) (n : Z) (min max : option Z)
    (required : bool) : Result unit :=
  if (required || (negb required && (n >? 0))) && truthyBound min && (n <? boundVal min)
  then Err (HttpError 400
         (what ++ " " ++ key ++ " must contain at least " ++ boundStr min ++ " items"))
  else if truthyBound max && (n >? boundVal max)
  then Err (HttpError 400
         (what ++ " " ++ key ++ " must contain at most " ++ boundStr max ++ " items"))
  else Ok tt.

Definition validateRepeatableInput (v : value) (key : string) (attr : Attribute)
    : Result unit :=
  match v with
  | VArr items =>
      match forEachCheck (fun val =>
              if negb (typeofObject val) || isArray val || isNull val
              then Err (HttpError 400
                     ("Component " ++ key ++
                      " has invalid items. Expected each items to be objects"))
              else Ok tt) items with
      | Err e => Err e
      | Ok _ =>
          checkBounds "Component" key (len items) (a_min attr) (a_max attr)
            (a_required attr)
      end
  | _ => Err (HttpError 400 ("Component " ++ key ++ " is repetable. Expected an array"))
  end.

Definition validateNonRepeatableInput (v : value) (key : string) (attr : Attribute)
    : Result unit :=
  if negb (typeofObject v) || isArray v
  then Err (HttpError 400 ("Component " ++ key ++ " should be an object"))
  else if a_required attr && isNull v
  then Err (HttpError 400 ("Component " ++ key ++ " is required"))
  else Ok tt.

(** [components.includes(val.__component)] *)
Definition includesValue (components : list string) (v : option value) : bool :=
  match v with
  | Some (VStr s) => strIn s components
  | _ => false
  end.

Definition checkDynamiczoneItem (key : string) (components : list string)
    (val : value) : Result unit :=
  if negb (typeofObject val) || isArray val || isNull val
  then Err (HttpError 400
         ("Dynamiczone " ++ key ++
          " has invalid items. Expected each items to be objects"))
  else if negb (has val "__component")
  then Err (HttpError 400
         ("Dynamiczone " ++ key ++
          " has invalid items. Expected each items to have a valid __component key"))
  else if negb (includesValue components (get val "__component"))
  then Err (HttpError 400
         ("Dynamiczone " ++ key ++
          " has invalid items. Each item must have a __component key that is present in the attribute definition"))
  else Ok tt.

Definition validateDynamiczoneInput (v : value) (key : string) (attr : Attribute)
    : Result unit :=
  match v with
  | VArr items =>
      match forEachCheck (checkDynamiczoneItem key (a_components attr)) items with
      | Err e => Err e
      | Ok _ =>
          checkBounds "Dynamiczone" key (len items) (a_min attr) (a_max attr)
            (a_required attr)
      end
  | _ => Err (HttpError 400 ("Dynamiczone " ++ key ++ " is invalid. Expected an array"))
  end.

(** ** Search predicate builder *)

(** What [buildSearchQuery] adds to the knex builder, in the order of the
    calls: [qb.orWhere(attribute, n)] and [qb.orWhereRaw(sql, binding)]. *)
Inductive clause : Type :=
| OrWhere (attribute : string) (n : Z)
| OrWhereRaw (sql : string) (binding : string).

Definition lowerAscii (c : ascii) : ascii :=
  let n := nat_of_ascii c in
  if (Nat.leb 65 n && Nat.leb n 90)%bool then ascii_of_nat (n + 32) else c.

Fixpoint toLower (s : string) : string :=
  match s with
  | EmptyString => EmptyString
  | String c r => String (lowerAscii c) (toLower r)
  end.

Definition dquote : string := String "034"%char EmptyString.

Definition searchable (model : Model) (types : list string) : list string :=
  map fst
    (filter (fun kt => strIn (snd kt) types)
       (filter (fun kt => negb (String.eqb (fst kt) (primaryKey model))
                          && negb (strIn (fst kt) (map alias (associations model))))
          (_attributes model))).

Definition pgVector (attribute : string) : string :=
  if String.eqb (toLower attribute) attribute
  then "to_tsvector(coalesce(" ++ attribute ++ ", ''))"
  else "to_tsvector(coalesce(" ++ dquote ++ attribute ++ dquote ++ ", ''))".

Section Search.
(** [_.toNumber] on the query string; [None] is [NaN]. *)
Variable toNumber : string -> option Z.

Definition buildSearchQuery (model : Model) (query : string) : list clause :=
  let searchText := searchable model ["string"; "text"] in
  let searchInt := searchable model ["integer"; "decimal"; "float"] in
  let searchBool := searchable model ["boolean"] in
  (match toNumber query with
   | Some n => map (fun attribute => OrWhere attribute n) searchInt
   | None => []
   end)
  ++ (if String.eqb query "true" || String.eqb query "false"
      then map (fun attribute =>
                  OrWhere attribute (if String.eqb query "true" then 1 else 0))
               searchBool
      else [])
  ++ (if String.eqb (client model) "mysql"
      then [OrWhereRaw ("MATCH(" ++ joinWith "," searchText
                        ++ ") AGAINST(? IN BOOLEAN MODE)")
                       ("*" ++ query ++ "*")]
      else if String.eqb (client model) "pg"
      then [OrWhereRaw (joinWith " || " (map pgVector searchText)
                        ++ " @@ plainto_tsquery(?)")
                       query]
      else []).
End Search.

(** ** The store *)

(** A row of an entity or component table: the backend-assigned primary
    identifier and the columns written through the model. *)
Record Row : Type := {
  r_id : Z;
  r_data : obj
}.

Record Table : Type := {
  t_next : Z;
  t_rows : list Row
}.

(** A row of the polymorphic join table of a model. *)
Record JoinRow : Type := {
  j_fk : Z;
  j_type : string;
  j_cid : Z;
  j_field : string;
  j_order : Z
}.

(** A relation link kept by the relation collaborator. *)
Record Link : Type := {
  l_coll : string;
  l_id : Z;
  l_alias : string;
  l_value : value
}.

Record Store : Type := {
  tables : list (string * Table);
  joins : list (string * list JoinRow);
  links : list Link
}.

(** The committed store, the working copies of the open transactions and the
    number of transactions opened so far. *)
Record World : Type := {
  committed : Store;
  pending : list (nat * Store);
  opened : nat
}.

(** The [transacting] option: [None] is [undefined]. *)
Definition handle := option nat.

Fixpoint plookup (t : nat) (l : list (nat * Store)) : option Store :=
  match l with
  | [] => None
  | (t', s) :: r => if Nat.eqb t t' then Some s else plookup t r
  end.

Fixpoint pset (t : nat) (s : Store) (l : list (nat * Store)) : list (nat * Store) :=
  match l with
  | [] => []
  | (t', s') :: r => if Nat.eqb t t' then (t', s) :: r else (t', s') :: pset t s r
  end.

Definition premove (t : nat) (l : list (nat * Store)) : list (nat * Store) :=
  filter (fun ts => negb (Nat.eqb t (fst ts))) l.

(** The store a query issued with [transacting = h] sees and writes. *)
Definition view (h : handle) (w : World) : option Store :=
  match h with
  | None => Some (committed w)
  | Some t => plookup t (pending w)
  end.

Definition setView (h : handle) (s : Store) (w : World) : World :=
  match h with
  | None => {| committed := s; pending := pending w; opened := opened w |}
  | Some t => {| committed := committed w; pending := pset t s (pending w);
                 opened := opened w |}
  end.

(** ** The monad of asynchronous operations *)

Definition M (A : Type) : Type := World -> Result A * World.

Definition ret {A : Type} (a : A) : M A := fun w => (Ok a, w).

Definition fail {A : Type} (e : Error) : M A := fun w => (Err e, w).

Definition bind {A B : Type} (m : M A) (k : A -> M B) : M B :=
  fun w =>
    match m w with
    | (Ok a, w') => k a w'
    | (Err e, w') => (Err e, w')
    end.

Declare Scope m_scope.
Delimit Scope m_scope with m.
Notation "x <- c ;; k" := (bind c (fun x => k))
  (at level 61, c at next level, right associativity) : m_scope.
Notation "c ;;; k" := (bind c (fun _ => k))
  (at level 61, right associativity) : m_scope.
Open Scope m_scope.

Definition liftR {A : Type} (r : Result A) : M A :=
  match r with
  | Ok a => ret a
  | Err e => fail e
  end.

(** [Promise.all(xs.map(f))], the tasks taken one after the other in the
    order of the array; the first rejection is the rejection of the whole. *)
Fixpoint mapM {A B : Type} (f : A -> M B) (l : list A) : M (list B) :=
  match l with
  | [] => ret []
  | x :: r => y <- f x ;; ys <- mapM f r ;; ret (y :: ys)
  end.

(** A [for ... of] loop whose body may [continue] or throw. *)
Fixpoint forM_ {A : Type} (f : A -> M unit) (l : list A) : M unit :=
  match l with
  | [] => ret tt
  | x :: r => f x ;;; forM_ f r
  end.

(** [arr.map((value, idx) => ...)] with the index at hand. *)
Fixpoint indexed {A : Type} (i : Z) (l : list A) : list (Z * A) :=
  match l with
  | [] => []
  | x :: r => (i, x) :: indexed (i + 1) r
  end.

(** A query of the backend run under [transacting = h]: it acts on the
    working copy of that transaction, or on the committed store without one.
    A handle whose transaction is over is refused by the driver. *)
Definition liftS {A : Type} (h : handle) (f : Store -> Result A * Store) : M A :=
  fun w =>
    match view h w with
    | Some s => let (r, s') := f s in (r, setView h s' w)
    | None => (Err (BackendFailure "Transaction query already complete"), w)
    end.

(** [db.transaction(trx => fn(trx))]: the writes made under [trx] reach the
    committed store when [fn] resolves and are dropped when it rejects. *)
Definition transaction {A : Type} (fn : nat -> M A) : M A :=
  fun w =>
    let t := opened w in
    let w1 := {| committed := committed w;
                 pending := (t, committed w) :: pending w;
                 opened := S t |} in
    match fn t w1 with
    | (Ok a, w2) =>
        match plookup t (pending w2) with
        | Some s => (Ok a, {| committed := s; pending := premove t (pending w2);
                              opened := opened w2 |})
        | None => (Err (BackendFailure "Transaction query already complete"),
                   {| committed := committed w2; pending := premove t (pending w2);
                      opened := opened w2 |})
        end
    | (Err e, w2) =>
        (Err e, {| committed := committed w2; pending := premove t (pending w2);
                   opened := opened w2 |})
    end.

(** ** Rows, tables and the Bookshelf calls on them *)

Definition emptyTable : Table := {| t_next := 1; t_rows := [] |}.

Definition getTable (name : string) (s : Store) : Table :=
  match alookup name (tables s) with Some t => t | None => emptyTable end.

Fixpoint aset {A : Type} (k : string) (v : A) (l : list (string * A))
    : list (string * A) :=
  match l with
  | [] => [(k, v)]
  | (k', v') :: r => if String.eqb k k' then (k', v) :: r else (k', v') :: aset k v r
  end.

Definition setTable (name : string) (t : Table) (s : Store) : Store :=
  {| tables := aset name t (tables s); joins := joins s; links := links s |}.

Definition getJoins (name : string) (s : Store) : list JoinRow :=
  match alookup name (joins s) with Some l => l | None => [] end.

Definition setJoins (name : string) (l : list JoinRow) (s : Store) : Store :=
  {| tables := tables s; joins := aset name l (joins s); links := links s |}.

(** [entry.toJSON()] *)
Definition rowJSON (m : Model) (r : Row) : obj :=
  (primaryKey m, VNum (r_id r)) :: r_data r.

Definition rowGet (m : Model) (r : Row) (column : string) : option value :=
  alookup column (rowJSON m r).

(** Equality as the backend compares a column with a bound value: a number
    and the string of its digits are the same key. *)
Definition looseEq (a b : value) : bool :=
  match toString a, toString b with
  | Some x, Some y => String.eqb x y
  | _, _ => false
  end.

(** [model.where(params)]: every key of [params] an equality on that column. *)
Definition whereMatch (m : Model) (params : obj) (r : Row) : bool :=
  forallb (fun kv =>
             match rowGet m r (fst kv) with
             | Some x => looseEq x (snd kv)
             | None => false
             end) params.

(** [model.forge(data).save(null, { transacting })] *)
Definition forgeSave (m : Model) (data : obj) (s : Store) : Result Row * Store :=
  let t := getTable (collectionName m) s in
  let r := {| r_id := t_next t; r_data := data |} in
  (Ok r, setTable (collectionName m)
           {| t_next := t_next t + 1; t_rows := t_rows t ++ [r] |} s).

Definition mergeData (old data : obj) : obj :=
  fold_left (fun acc kv => aset (fst kv) (snd kv) acc) data old.

Definition patchRow (data : obj) (r : Row) : Row :=
  {| r_id := r_id r; r_data := mergeData (r_data r) data |}.

(** [entry.save(data, { transacting, method: 'update', patch: true })]: an
    update of the row of [entry], which fails when there is none left. *)
Definition savePatch (m : Model) (entry : Row) (data : obj) (s : Store)
    : Result Row * Store :=
  let t := getTable (collectionName m) s in
  if existsb (fun r => r_id r =? r_id entry) (t_rows t)
  then (Ok (patchRow data entry),
        setTable (collectionName m)
          {| t_next := t_next t;
             t_rows := map (fun r => if r_id r =? r_id entry then patchRow data r else r)
                           (t_rows t) |} s)
  else (Err (BackendFailure "No Rows Updated"), s).

(** [model.where(params).fetch({ transacting })] *)
Definition whereFetch (m : Model) (params : obj) (s : Store)
    : Result (option Row) * Store :=
  (Ok (find (whereMatch m params) (t_rows (getTable (collectionName m) s))), s).

(** [model.where(params).destroy({ transacting, require: false })] *)
Definition whereDestroy (m : Model) (params : obj) (s : Store) : Result unit * Store :=
  let t := getTable (collectionName m) s in
  (Ok tt, setTable (collectionName m)
            {| t_next := t_next t;
               t_rows := filter (fun r => negb (whereMatch m params r)) (t_rows t) |} s).

(** The join model of [model], [model.componentsJoinModel]. *)
Definition joinFetchAll (m : Model) (p : JoinRow -> bool) (s : Store)
    : Result (list JoinRow) * Store :=
  (Ok (filter p (getJoins (collectionName m) s)), s).

(** [joinModel.forge().save(row, { transacting })] *)
Definition joinForgeSave (m : Model) (j : JoinRow) (s : Store) : Result unit * Store :=
  (Ok tt, setJoins (collectionName m) (getJoins (collectionName m) s ++ [j]) s).

(** [joinModel.where(...).save({ order }, { transacting, patch: true,
    require: false })]: with [patch] the save is an update of the rows that
    match, and with [require: false] it is no error that none does. *)
Definition joinPatchOrder (m : Model) (p : JoinRow -> bool) (order : Z) (s : Store)
    : Result unit * Store :=
  (Ok tt, setJoins (collectionName m)
            (map (fun j => if p j
                           then {| j_fk := j_fk j; j_type := j_type j; j_cid := j_cid j;
                                   j_field := j_field j; j_order := order |}
                           else j)
                 (getJoins (collectionName m) s)) s).

(** [joinModel.query(...).destroy({ transacting })] *)
Definition joinDestroy (m : Model) (p : JoinRow -> bool) (s : Store)
    : Result unit * Store :=
  (Ok tt, setJoins (collectionName m)
            (filter (fun j => negb (p j)) (getJoins (collectionName m) s)) s).

(** ** Collaborators *)

Fixpoint stripSuffix (suf s : string) : option string :=
  if String.eqb s suf then Some EmptyString
  else match s with
       | EmptyString => None
       | String c r => option_map (String c) (stripSuffix suf r)
       end.

Definition asList (v : value) : list value :=
  match v with VArr l => l | _ => [v] end.

(** Modelled from the spec: the filter translation and query building
    collaborators ([convertRestQueryParams] and [buildQuery] of strapi-utils)
    are not part of this file. Of the REST parameters the model keeps the
    pagination keys [_limit] and [_start], the equality on a column and the
    [_in] operator; rows come in insertion order, [_sort] is not applied. *)
Definition filterClause (m : Model) (r : Row) (kv : string * value) : bool :=
  if strIn (fst kv) ["_limit"; "_start"; "_sort"] then true
  else match stripSuffix "_in" (fst kv) with
       | Some column =>
           match rowGet m r column with
           | Some x => existsb (looseEq x) (asList (snd kv))
           | None => false
           end
       | None =>
           match rowGet m r (fst kv) with
           | Some x => looseEq x (snd kv)
           | None => false
           end
       end.

Definition filterMatch (m : Model) (params : obj) (r : Row) : bool :=
  forallb (filterClause m r) params.

Definition paginate {A : Type} (params : obj) (l : list A) : list A :=
  let l1 := match alookup "_start" params with
            | Some (VNum n) => skipn (Z.to_nat n) l
            | _ => l
            end in
  match alookup "_limit" params with
  | Some (VNum n) => firstn (Z.to_nat n) l1
  | _ => l1
  end.

(** [model.query(buildQuery({ model, filters })).fetchAll(...)] followed by
    [results.toJSON()]. *)
Definition fetchAllJSON (m : Model) (params : obj) (s : Store)
    : Result (list value) * Store :=
  (Ok (map (fun r => VObj (rowJSON m r))
         (paginate params
            (filter (filterMatch m params) (t_rows (getTable (collectionName m) s))))),
   s).

Definition sameLink (coll : string) (id : Z) (al : string) (l : Link) : bool :=
  String.eqb (l_coll l) coll && (l_id l =? id) && String.eqb (l_alias l) al.

Definition setLink (coll : string) (id : Z) (al : string) (v : value)
    (ls : list Link) : list Link :=
  filter (fun l => negb (sameLink coll id al l)) ls
  ++ [{| l_coll := coll; l_id := id; l_alias := al; l_value := v |}].

(** Modelled from the spec: [model.updateRelations({ id, values }, { transacting })]
    of the relation persistence collaborator (lib/relations.js is not part of
    this file). Given an entity id and a mapping of relation alias to new
    value, it persists the links under the transaction it is given; it
    answers with the entity read again, [null] when there is none. *)
Definition updateRelationsS (m : Model) (id : Z) (values : obj) (s : Store)
    : Result value * Store :=
  let s' := {| tables := tables s; joins := joins s;
               links := fold_left (fun ls kv =>
                                     setLink (collectionName m) id (fst kv) (snd kv) ls)
                                  values (links s) |} in
  (Ok (match find (fun r => r_id r =? id) (t_rows (getTable (collectionName m) s')) with
       | Some r => VObj (rowJSON m r)
       | None => VNull
       end), s').

Definition updateRelations (m : Model) (id : Z) (values : obj) (h : handle) : M value :=
  liftS h (updateRelationsS m id values).

(** ** The query builder of a model *)

(** What [createQueryBuilder] returns, with the [primaryKey] the query object
    of [strapi.query(uid)] exposes beside it. *)
Record Query : Type := {
  q_primaryKey : string;
  q_find : obj -> handle -> M (list value);
  q_findOne : obj -> handle -> M value;
  q_create : value -> handle -> M value;
  q_update : obj -> value -> handle -> M value;
  q_delete : obj -> handle -> M value
}.

(** The [strapi] object: the registry of component models and the query
    objects of the models. *)
Record Strapi : Type := {
  components : list (string * Model);
  query : string -> Query
}.

Definition asObj (v : value) : obj :=
  match v with VObj o => o | _ => [] end.

(** [component.id] of what a query answered, as the [component_id] of a join
    row. *)
Definition idOf (component : value) : Result Z :=
  match component with
  | VNull => Err (TypeError "Cannot read property 'id' of null")
  | _ => match get component "id" with
         | Some (VNum z) => Ok z
         | _ => Err (BackendFailure "component_id")
         end
  end.

Definition undefinedModel {A : Type} : M A :=
  fail (TypeError "Cannot read property of undefined").

(** A kept or existing component of a dynamic zone: [{ id, component }]. *)
Record CompRef : Type := {
  c_id : string;
  c_component : option Model
}.

(** [refs.find(el => el.id === id && el.component.uid === component.uid)],
    as a test: reading [uid] of a missing component is a [TypeError]. *)
Fixpoint findRef (id : string) (component : option Model) (refs : list CompRef)
    : Result bool :=
  match refs with
  | [] => Ok false
  | el :: r =>
      if String.eqb (c_id el) id
      then match c_component el, component with
           | Some a, Some b =>
               if String.eqb (uid a) (uid b) then Ok true else findRef id component r
           | _, _ => Err (TypeError "Cannot read property 'uid' of undefined")
           end
      else findRef id component r
  end.

Definition byCollectionName (reg : list (string * Model)) (cn : string)
    : option Model :=
  match find (fun km => String.eqb (collectionName (snd km)) cn) reg with
  | Some km => Some (snd km)
  | None => None
  end.

Section QueryBuilder.
Variable strapi : Strapi.
Variable model : Model.

(* association key *)
Definition assocKeys : list string := map alias (associations model).

(* component keys *)
Definition componentKeys : list string :=
  map fst
    (filter (fun ka => strIn (a_type (snd ka)) ["dynamiczone"; "component"])
       (attributes model)).

(* Returns an object with relation keys only to create relations in DB *)
Definition pickRelations (values : value) : obj :=
  pick (asObj values) assocKeys.

(* keys to exclude to get attribute keys *)
Definition excludedKeys : list string := assocKeys ++ componentKeys.

(* Returns an object without relational keys to persist in DB *)
Definition selectAttributes (values : value) : obj :=
  filter (fun kv =>
            if match timestamps model with
               | Some ts => strIn (fst kv) ts
               | None => false
               end
            then false
            else negb (strIn (fst kv) excludedKeys)
                 && strIn (fst kv) (allAttributes model))
    (asObj values).

Definition wrapTransaction {A : Type} (fn : handle -> M A) (transacting : handle)
    : M A :=
  if String.eqb (connectionClient model) "mssql" then fn transacting
  else match transacting with
       | Some _ => fn transacting
       | None => transaction (fun trx => fn (Some trx))
       end.

(** Find multiple entries based on params *)
Definition find (params : obj) (transacting : handle) : M (list value) :=
  liftS transacting (fetchAllJSON model params).

(** Find one entry based on params *)
Definition findOne (params : obj) (transacting : handle) : M value :=
  entries <- find (aset "_limit" (VNum 1) params) transacting ;;
  ret (match entries with
       | e :: _ => if truthy e then e else VNull
       | [] => VNull
       end).

Definition componentModelOf (component : string) : option Model :=
  alookup component (components strapi).

Definition joinOf (entry : Row) (key : string) (j : JoinRow) : bool :=
  (j_fk j =? r_id entry) && String.eqb (j_field j) key.

Definition deleteComponents (entry : Row) (transacting : handle) : M unit :=
  if (len componentKeys =? 0) then ret tt
  else
    forM_ (fun key =>
      match alookup key (attributes model) with
      | None => undefinedModel
      | Some attr =>
          if String.eqb (a_type attr) "component" then
            let componentModel := componentModelOf (a_component attr) in
            ids <- liftS transacting (joinFetchAll model (joinOf entry key)) ;;
            match componentModel with
            | None => undefinedModel
            | Some cm =>
                q_delete (query strapi (uid cm))
                  [(primaryKey cm ++ "_in", VArr (map (fun j => VNum (j_cid j)) ids))]
                  transacting ;;;
                liftS transacting (joinDestroy model (joinOf entry key))
            end
          else if String.eqb (a_type attr) "dynamiczone" then
            componentJoins <- liftS transacting (joinFetchAll model (joinOf entry key)) ;;
            forM_ (fun compo =>
              match componentModelOf compo with
              | None => undefinedModel
              | Some cm =>
                  let q := query strapi (uid cm) in
                  let toDelete :=
                    filter (fun el => String.eqb (j_type el) (collectionName cm))
                      componentJoins in
                  if (len toDelete >? 0) then
                    q_delete q
                      [(q_primaryKey q ++ "_in",
                        VArr (map (fun el => VNum (j_cid el)) toDelete))]
                      transacting ;;; ret tt
                  else ret tt
              end) (a_components attr) ;;;
            liftS transacting (joinDestroy model (joinOf entry key))
          else ret tt
      end) componentKeys.

(** The values [deleteOne] hands to the relation collaborator: every alias
    nulled or emptied by its nature. *)
Definition unlinkValues : obj :=
  flat_map (fun association =>
    if strIn (nature association) ["oneWay"; "oneToOne"; "manyToOne"; "oneToManyMorph"]
    then [(alias association, VNull)]
    else if strIn (nature association)
              ["manyWay"; "oneToMany"; "manyToMany"; "manyToManyMorph"]
    then [(alias association, VArr [])]
    else []) (associations model).

Definition notFound {A : Type} : M A := fail (HttpError 404 "entry.notFound").

(** The closure [runDelete] of [deleteOne]. *)
Definition runDelete (entry : Row) (trx : handle) : M value :=
  deleteComponents entry trx ;;;
  liftS trx (whereDestroy model [("id", VNum (r_id entry))]) ;;;
  ret (VObj (rowJSON model entry)).

Definition deleteOne (id : option value) (transacting : handle) : M value :=
  match id with
  | None => fail (BackendFailure "Undefined binding(s) detected when compiling query")
  | Some idv =>
      o <- liftS transacting (whereFetch model [(primaryKey model, idv)]) ;;
      match o with
      | None => notFound
      | Some entry =>
          updateRelations model (r_id entry) unlinkValues transacting ;;;
          wrapTransaction (runDelete entry) transacting
      end
  end.

Definition deleteMany (params : obj) (transacting : handle) : M value :=
  if truthyOpt (alookup (primaryKey model) params) then
    entries <- find (aset "_limit" (VNum 1) params) transacting ;;
    match entries with
    | e :: _ => deleteOne (get e (primaryKey model)) transacting
    | [] => ret VNull
    end
  else
    entries <- find params transacting ;;
    rs <- mapM (fun entry => deleteOne (get entry "id") transacting) entries ;;
    ret (VArr rs).

Definition createComponentAndLink (entry : Row) (transacting : handle)
    (componentModel : option Model) (v : value) (key : string) (order : Z)
    : M unit :=
  match componentModel with
  | None => undefinedModel
  | Some cm =>
      component <- q_create (query strapi (uid cm)) v transacting ;;
      cid <- liftR (idOf component) ;;
      liftS transacting
        (joinForgeSave model
           {| j_fk := r_id entry; j_type := collectionName cm; j_cid := cid;
              j_field := key; j_order := order |})
  end.

(** [strapi.components[value.__component]] *)
Definition itemModel (v : value) : option Model :=
  match get v "__component" with
  | Some (VStr c) => componentModelOf c
  | _ => None
  end.

(** One turn of the loop of [createComponents]. *)
Definition createComponentsField (entry : Row) (values : value)
    (transacting : handle) (key : string) : M unit :=
  match alookup key (attributes model) with
  | None => undefinedModel
  | Some attr =>
      if String.eqb (a_type attr) "component" then
        let componentModel := componentModelOf (a_component attr) in
        if a_required attr && negb (has values key)
        then fail (HttpError 400 ("Component " ++ key ++ " is required"))
        else
          match get values key with
          | None => ret tt
          | Some componentValue =>
              if a_repeatable attr then
                liftR (validateRepeatableInput componentValue key attr) ;;;
                mapM (fun iv =>
                        createComponentAndLink entry transacting componentModel
                          (snd iv) key (fst iv))
                  (indexed 1 (asList componentValue)) ;;;
                ret tt
              else
                liftR (validateNonRepeatableInput componentValue key attr) ;;;
                if isNull componentValue then ret tt
                else createComponentAndLink entry transacting componentModel
                       componentValue key 1
          end
      else if String.eqb (a_type attr) "dynamiczone" then
        if a_required attr && negb (has values key)
        then fail (HttpError 400 ("Dynamiczone " ++ key ++ " is required"))
        else
          match get values key with
          | None => ret tt
          | Some dynamiczoneValues =>
              liftR (validateDynamiczoneInput dynamiczoneValues key attr) ;;;
              mapM (fun iv =>
                      createComponentAndLink entry transacting (itemModel (snd iv))
                        (VObj (omit (asObj (snd iv)) ["__component"])) key (fst iv))
                (indexed 1 (asList dynamiczoneValues)) ;;;
              ret tt
          end
      else ret tt
  end.

Definition createComponents (entry : Row) (values : value) (transacting : handle)
    : M unit :=
  if (len componentKeys =? 0) then ret tt
  else forM_ (createComponentsField entry values transacting) componentKeys.

(** [arr.map(el => el[primaryKey].toString())]; [null.toString()] throws. *)
Fixpoint idStrings (pk : string) (l : list value) : Result (list string) :=
  match l with
  | [] => Ok []
  | el :: r =>
      match get el pk with
      | Some v =>
          match toString v with
          | Some str =>
              match idStrings pk r with
              | Ok strs => Ok (str :: strs)
              | Err e => Err e
              end
          | None => Err (TypeError "Cannot read property 'toString' of null")
          end
      | None => Err (TypeError "Cannot read property 'toString' of undefined")
      end
  end.

Definition notRelated {A : Type} (key : string) : Result A :=
  Err (HttpError 400
         ("Some of the provided components in " ++ key
          ++ " are not related to the entity")).

Definition deleteOldComponents (entry : Row) (componentValue : value)
    (key : string) (componentModel : option Model) (transacting : handle)
    : M unit :=
  let componentArr := asList componentValue in
  idsToKeep <- liftR (match componentArr, componentModel with
                      | [], _ => Ok []
                      | _, None =>
                          Err (TypeError "Cannot read property 'primaryKey' of undefined")
                      | _, Some cm =>
                          idStrings (primaryKey cm)
                            (filter (fun el => has el (primaryKey cm)) componentArr)
                      end) ;;
  rows <- liftS transacting (joinFetchAll model (joinOf entry key)) ;;
  let allIds := map (fun el => Zstr (j_cid el)) rows in
  (* verify the provided ids are realted to this entity. *)
  liftR (forEachCheck (fun id => if negb (strIn id allIds) then notRelated key
                                 else Ok tt) idsToKeep) ;;;
  let idsToDelete := filter (fun id => negb (strIn id idsToKeep)) allIds in
  if (len idsToDelete >? 0) then
    liftS transacting
      (joinDestroy model (fun j => strIn (Zstr (j_cid j)) idsToDelete
                                   && String.eqb (j_field j) key)) ;;;
    match componentModel with
    | None => undefinedModel
    | Some cm =>
        q_delete (query strapi (uid cm))
          [(primaryKey cm ++ "_in", VArr (map VStr idsToDelete))] transacting ;;;
        ret tt
    end
  else ret tt.

Fixpoint keepRefs (values : list value) : Result (list CompRef) :=
  match values with
  | [] => Ok []
  | v :: r =>
      match itemModel v with
      | None => Err (TypeError "Cannot read property 'primaryKey' of undefined")
      | Some cm =>
          if has v (primaryKey cm) then
            match get v (primaryKey cm) with
            | Some idv =>
                match toString idv with
                | Some str =>
                    match keepRefs r with
                    | Ok refs => Ok ({| c_id := str; c_component := Some cm |} :: refs)
                    | Err e => Err e
                    end
                | None => Err (TypeError "Cannot read property 'toString' of null")
                end
            | None => Err (TypeError "Cannot read property 'toString' of undefined")
            end
          else keepRefs r
      end
  end.

(** [allIds.reduce(...)]: the existing references no kept one matches. *)
Fixpoint refsToDelete (idsToKeep allIds : list CompRef) : Result (list CompRef) :=
  match allIds with
  | [] => Ok []
  | el :: r =>
      match findRef (c_id el) (c_component el) idsToKeep with
      | Err e => Err e
      | Ok found =>
          match refsToDelete idsToKeep r with
          | Err e => Err e
          | Ok acc => Ok (if found then acc else el :: acc)
          end
      end
  end.

(** The models of the references to delete, read when the destroy query is
    built: [component.collectionName]. *)
Fixpoint refModels (refs : list CompRef) : Result (list (string * Model)) :=
  match refs with
  | [] => Ok []
  | el :: r =>
      match c_component el with
      | None => Err (TypeError "Cannot read property 'collectionName' of undefined")
      | Some cm =>
          match refModels r with
          | Ok l => Ok ((c_id el, cm) :: l)
          | Err e => Err e
          end
      end
  end.

Definition deleteDynamicZoneOldComponents (entry : Row) (values : value)
    (key : string) (transacting : handle) : M unit :=
  idsToKeep <- liftR (keepRefs (asList values)) ;;
  rows <- liftS transacting (joinFetchAll model (joinOf entry key)) ;;
  let allIds :=
    map (fun el => {| c_id := Zstr (j_cid el);
                      c_component := byCollectionName (components strapi) (j_type el) |})
      rows in
  (* verify the provided ids are realted to this entity. *)
  liftR (forEachCheck (fun k =>
           match findRef (c_id k) (c_component k) allIds with
           | Err e => Err e
           | Ok true => Ok tt
           | Ok false => notRelated key
           end) idsToKeep) ;;;
  idsToDelete <- liftR (refsToDelete idsToKeep allIds) ;;
  if (len idsToDelete >? 0) then
    targets <- liftR (refModels idsToDelete) ;;
    liftS transacting
      (joinDestroy model
         (fun j => String.eqb (j_field j) key
                   && existsb (fun ic => String.eqb (Zstr (j_cid j)) (fst ic)
                                         && String.eqb (j_type j)
                                              (collectionName (snd ic)))
                        targets)) ;;;
    forM_ (fun ic =>
             let q := query strapi (uid (snd ic)) in
             q_delete q [(q_primaryKey q, VStr (fst ic))] transacting ;;; ret tt)
      targets
  else ret tt.

Definition updateOrCreateComponentAndLink (entry : Row) (transacting : handle)
    (componentModel : option Model) (key : string) (v : value) (order : Z)
    : M unit :=
  match componentModel with
  | None => undefinedModel
  | Some cm =>
      (* check if value has an id then update else create *)
      match (if has v (primaryKey cm) then get v (primaryKey cm) else None) with
      | Some idv =>
          component <- q_update (query strapi (uid cm)) [(primaryKey cm, idv)] v
                         transacting ;;
          cid <- liftR (idOf component) ;;
          liftS transacting
            (joinPatchOrder model
               (fun j => (j_fk j =? r_id entry)
                         && String.eqb (j_type j) (collectionName cm)
                         && (j_cid j =? cid)
                         && String.eqb (j_field j) key)
               order)
      | None =>
          (* create *)
          component <- q_create (query strapi (uid cm)) v transacting ;;
          cid <- liftR (idOf component) ;;
          liftS transacting
            (joinForgeSave model
               {| j_fk := r_id entry; j_type := collectionName cm; j_cid := cid;
                  j_field := key; j_order := order |})
      end
  end.

(** One turn of the loop of [updateComponents]. *)
Definition updateComponentsField (entry : Row) (values : value)
    (transacting : handle) (key : string) : M unit :=
  (* if key isn't present then don't change the current component data *)
  match get values key with
  | None => ret tt
  | Some fieldValue =>
      match alookup key (attributes model) with
      | None => undefinedModel
      | Some attr =>
          if String.eqb (a_type attr) "component" then
            let componentModel := componentModelOf (a_component attr) in
            if a_repeatable attr then
              liftR (validateRepeatableInput fieldValue key attr) ;;;
              deleteOldComponents entry fieldValue key componentModel transacting ;;;
              mapM (fun iv =>
                      updateOrCreateComponentAndLink entry transacting componentModel
                        key (snd iv) (fst iv))
                (indexed 1 (asList fieldValue)) ;;;
              ret tt
            else
              liftR (validateNonRepeatableInput fieldValue key attr) ;;;
              deleteOldComponents entry fieldValue key componentModel transacting ;;;
              if isNull fieldValue then ret tt
              else updateOrCreateComponentAndLink entry transacting componentModel
                     key fieldValue 1
          else if String.eqb (a_type attr) "dynamiczone" then
            liftR (validateDynamiczoneInput fieldValue key attr) ;;;
            deleteDynamicZoneOldComponents entry fieldValue key transacting ;;;
            mapM (fun iv =>
                    updateOrCreateComponentAndLink entry transacting
                      (itemModel (snd iv))
                      key (VObj (omit (asObj (snd iv)) ["__component"])) (fst iv))
              (indexed 1 (asList fieldValue)) ;;;
            ret tt
          else ret tt
      end
  end.

Definition updateComponents (entry : Row) (values : value) (transacting : handle)
    : M unit :=
  if (len componentKeys =? 0) then ret tt
  else forM_ (updateComponentsField entry values transacting) componentKeys.

(** The closure [runCreate] of [create]. *)
Definition runCreate (values : value) (trx : handle) : M value :=
  (* Create entry with no-relational data. *)
  entry <- liftS trx (forgeSave model (selectAttributes values)) ;;
  createComponents entry values trx ;;;
  updateRelations model (r_id entry) (pickRelations values) trx.

Definition create (values : value) (transacting : handle) : M value :=
  wrapTransaction (runCreate values) transacting.

(** The closure [runUpdate] of [update]. *)
Definition runUpdate (entry : Row) (params : obj) (values : value) (trx : handle)
    : M value :=
  (* Extract values related to relational data. *)
  let relations := pickRelations values in
  let data := selectAttributes values in
  updatedEntry <- (if (len data >? 0)
                   then liftS trx (savePatch model entry data)
                   else ret entry) ;;
  updateComponents updatedEntry values trx ;;;
  if (len relations >? 0)
  then updateRelations model (r_id entry) relations trx
  else findOne params trx.

Definition update (params : obj) (values : value) (transacting : handle)
    : M value :=
  o <- liftS transacting (whereFetch model params) ;;
  match o with
  | None => notFound
  | Some entry => wrapTransaction (runUpdate entry params values) transacting
  end.

Definition createQueryBuilder : Query :=
  {| q_primaryKey := primaryKey model;
     q_find := find;
     q_findOne := findOne;
     q_create := create;
     q_update := update;
     q_delete := deleteMany |}.
End QueryBuilder.

(** ** The registry and its query objects *)

Definition failingQuery (pk : string) (e : Error) : Query :=
  {| q_primaryKey := pk;
     q_find := fun _ _ => fail e;
     q_findOne := fun _ _ => fail e;
     q_create := fun _ _ => fail e;
     q_update := fun _ _ _ => fail e;
     q_delete := fun _ _ => fail e |}.

Definition modelByUid (reg : list (string * Model)) (u : string) : option Model :=
  match List.find (fun km => String.eqb (uid (snd km)) u) reg with
  | Some km => Some (snd km)
  | None => None
  end.

(** [strapi.query(uid)] builds on the query builder of the model of that
    uid, which asks [strapi.query] in turn for the models it nests; [fuel]
    bounds the depth of that nesting. *)
Fixpoint queryOf (reg : list (string * Model)) (fuel : nat) (model : Model) : Query :=
  match fuel with
  | O => failingQuery (primaryKey model) OutOfFuel
  | S n =>
      createQueryBuilder
        {| components := reg;
           query := fun u =>
                      match modelByUid reg u with
                      | Some m => queryOf reg n m
                      | None => failingQuery "id"
                                  (TypeError "Cannot read property of undefined")
                      end |}
        model
  end.

Definition strapiOf (reg : list (string * Model)) (fuel : nat) : Strapi :=
  {| components := reg;
     query := fun u =>
                match modelByUid reg u with
                | Some m => queryOf reg fuel m
                | None => failingQuery "id"
                            (TypeError "Cannot read property of undefined")
                end |}.

(** ** The rules of the validators in the words of the specification *)

(** A repeatable component value as the specification words it: an array of
    plain objects, [min] enforced when the field is required or the array is
    not empty, [max] enforced whenever it is configured. *)
Definition repeatableRuleStated (v : value) (attr : Attribute) : Prop :=
  exists items,
    v = VArr items
    /\ forallb isPlainItem items = true
    /\ (forall mn, a_min attr = Some mn ->
          a_required attr = true \/ items <> [] -> mn <= len items)
    /\ (forall mx, a_max attr = Some mx -> len items <= mx).

(** The same rule with the bound the code takes as configured: a [max] of
    [0] is falsy and counts as absent. *)
Definition repeatableRule (v : value) (attr : Attribute) : Prop :=
  exists items,
    v = VArr items
    /\ forallb isPlainItem items = true
    /\ (forall mn, a_min attr = Some mn ->
          a_required attr = true \/ items <> [] -> mn <= len items)
    /\ (forall mx, a_max attr = Some mx -> mx <> 0 -> len items <= mx).

Definition dynamiczoneItemOk (allowed : list string) (item : value) : Prop :=
  isPlainItem item = true
  /\ exists c, get item "__component" = Some (VStr c) /\ In c allowed.

(** ** Reading the clauses of a search *)

(** The comparison of a column with the number of an [orWhere]; a boolean
    column holds [1] or [0]. *)
Definition columnIs (m : Model) (r : Row) (attribute : string) (n : Z) : bool :=
  match rowGet m r attribute with
  | Some (VNum z) => z =? n
  | Some (VBool b) => (if b then 1 else 0) =? n
  | _ => false
  end.

Definition isRaw (c : clause) : bool :=
  match c with OrWhereRaw _ _ => true | OrWhere _ _ => false end.

Section Where.
(** The full-text predicate of the backend: whether a row satisfies a raw
    predicate under its binding. *)
Variable fullText : string -> string -> Row -> bool.

Definition clauseHolds (m : Model) (r : Row) (c : clause) : bool :=
  match c with
  | OrWhere attribute n => columnIs m r attribute n
  | OrWhereRaw sql binding => fullText sql binding r
  end.

(** The rows a builder with these clauses selects: all of them without a
    clause, and with clauses the rows one of them holds of. *)
Definition whereHolds (m : Model) (cs : list clause) (r : Row) : bool :=
  match cs with
  | [] => true
  | _ => existsb (clauseHolds m r) cs
  end.
End Where.

Definition mysqlSearch (m : Model) : string :=
  "MATCH(" ++ joinWith "," (searchable m ["string"; "text"])
  ++ ") AGAINST(? IN BOOLEAN MODE)".

Definition pgSearch (m : Model) : string :=
  joinWith " || " (map pgVector (searchable m ["string"; "text"]))
  ++ " @@ plainto_tsquery(?)".

(** ** Sample models *)

Definition scalarAttr (ty : string) : Attribute :=
  {| a_type := ty; a_component := ""; a_components := []; a_required := false;
     a_repeatable := false; a_min := None; a_max := None |}.

Definition repeatableAttr (component : string) (required : bool)
    (mn mx : option Z) : Attribute :=
  {| a_type := "component"; a_component := component; a_components := [];
     a_required := required; a_repeatable := true; a_min := mn; a_max := mx |}.

Definition singleAttr (component : string) (required : bool) : Attribute :=
  {| a_type := "component"; a_component := component; a_components := [];
     a_required := required; a_repeatable := false; a_min := None; a_max := None |}.

Definition zoneAttr (allowed : list string) (required : bool)
    (mn mx : option Z) : Attribute :=
  {| a_type := "dynamiczone"; a_component := ""; a_components := allowed;
     a_required := required; a_repeatable := false; a_min := mn; a_max := mx |}.

(** The component [Section{text:string}] of the scenario of the
    specification, on a connection of the given dialect. *)
Definition sectionOn (dialect : string) : Model :=
  {| uid := "section"; collectionName := "components_sections"; primaryKey := "id";
     connectionClient := dialect; client := dialect;
     attributes := [("text", scalarAttr "string")];
     _attributes := [("text", "string")];
     allAttributes := ["text"];
     associations := [];
     timestamps := None |}.

Definition quoteOn (dialect : string) : Model :=
  {| uid := "quote"; collectionName := "components_quotes"; primaryKey := "id";
     connectionClient := dialect; client := dialect;
     attributes := [("body", scalarAttr "string")];
     _attributes := [("body", "string")];
     allAttributes := ["body"];
     associations := [];
     timestamps := None |}.

Definition sectionModel : Model := sectionOn "sqlite3".

Definition quoteModel : Model := quoteOn "sqlite3".

(** The model [Article] of the scenario: [title:string], a counter, the
    repeatable component [sections] (min 1, max 5) and a dynamic zone. *)
Definition articleOn (dialect : string) : Model :=
  {| uid := "article"; collectionName := "articles"; primaryKey := "id";
     connectionClient := dialect; client := dialect;
     attributes := [("title", scalarAttr "string");
                    ("views", scalarAttr "integer");
                    ("sections", repeatableAttr "section" false (Some 1) (Some 5));
                    ("blocks", zoneAttr ["section"; "quote"] false None None)];
     _attributes := [("title", "string"); ("views", "integer")];
     allAttributes := ["title"; "views"];
     associations := [];
     timestamps := None |}.

Definition articleModel : Model := articleOn "sqlite3".

Definition registryOn (dialect : string) : list (string * Model) :=
  [("section", sectionOn dialect); ("quote", quoteOn dialect)].

Definition registry : list (string * Model) := registryOn "sqlite3".

Definition emptyStore : Store := {| tables := []; joins := []; links := [] |}.

Definition emptyWorld : World :=
  {| committed := emptyStore; pending := []; opened := 0 |}.

Definition readsFortyTwo (s : string) : option Z :=
  if String.eqb s "42" then Some 42 else None.

(** ** Operations confined to a transaction *)

(** A world whose only open transaction is [t], with working copy [s]. *)
Definition worldOf (t : nat) (s : Store) : World :=
  {| committed := emptyStore; pending := [(t, s)]; opened := 0 |}.

(** What an operation does to the working copy of [t] when nothing else is
    there. *)
Definition runIn {A : Type} (t : nat) (m : M A) (s : Store) : Result A * Store :=
  let (r, w') := m (worldOf t s) in
  (r, match plookup t (pending w') with Some s' => s' | None => s end).

(** An operation is confined to the transaction [t] when, in every world
    where [t] is open, its result depends on the working copy of [t] alone
    and that working copy is all it changes: the committed store, the other
    transactions and the count of opened transactions stay as they are. *)
Definition local {A : Type} (t : nat) (m : M A) : Prop :=
  forall w s, plookup t (pending w) = Some s ->
    m w = (fst (runIn t m s), setView (Some t) (snd (runIn t m s)) w).

Definition localQuery (t : nat) (q : Query) : Prop :=
  (forall params, local t (q_find q params (Some t)))
  /\ (forall params, local t (q_findOne q params (Some t)))
  /\ (forall values, local t (q_create q values (Some t)))
  /\ (forall params values, local t (q_update q params values (Some t)))
  /\ (forall params, local t (q_delete q params (Some t))).

(** Sequencing on the working copy. *)
Definition bindS {A B : Type} (f : Store -> Result A * Store)
    (g : A -> Store -> Result B * Store) (s : Store) : Result B * Store :=
  match f s with
  | (Ok a, s') => g a s'
  | (Err e, s') => (Err e, s')
  end.

(** The outcome of an operation run in a transaction of its own from the
    committed store [s]: its writes are kept when it resolves and dropped
    when it rejects. *)
Definition settled {A : Type} (s : Store) (rs : Result A * Store) : Store :=
  match fst rs with
  | Ok _ => snd rs
  | Err _ => s
  end.

(** The world a transaction opened in [w] leaves, given the outcome [out] of
    the operation it ran on the committed store. *)
Definition afterTransaction {A : Type} (w : World) (out : Result A * Store) : World :=
  {| committed := settled (committed w) out;
     pending := premove (opened w) (pending w);
     opened := S (opened w) |}.

(** The world after [deleteOne] has handed the emptied relations of [entry]
    to the relation collaborator, outside any transaction. *)
Definition unlinked (model : Model) (entry : Row) (w : World) : World :=
  setView None (snd (updateRelationsS model (r_id entry) (unlinkValues model)
                       (committed w))) w.

(** ** Sample payloads *)

Definition twoSections : value :=
  VObj [("title", VStr "A");
        ("sections", VArr [VObj [("text", VStr "x")]; VObj [("text", VStr "y")]])].

(** Valid sections followed by a dynamic zone whose item has no
    discriminant. *)
Definition sectionsThenBadZone : value :=
  VObj [("title", VStr "A");
        ("sections", VArr [VObj [("text", VStr "x")]]);
        ("blocks", VArr [VObj [("body", VStr "b")]])].

(** ** Sample worlds *)

(** The world after the create of the scenario: article 1 with sections 1
    and 2 at orders 1 and 2. *)
Definition articleWorld : World :=
  snd (create (strapiOf registry 2) articleModel twoSections None emptyWorld).



Definition articleEntry : Row := {| r_id := 1; r_data := [("title", VStr "A")] |}.



(** ** Component models without nested components *)

(** A component model the registry knows under its uid, that nests no
    component of its own and whose primary key is [id]. *)
Definition flatComponent (reg : list (string * Model)) (cm : Model) : Prop :=
  modelByUid reg (uid cm) = Some cm
  /\ componentKeys cm = []
  /\ primaryKey cm = "id".

(** The words of the specification for one new item: create the
    component-model instance with the item's data (its relations go to the
    relation collaborator), ... *)
Definition insertComponent (cm : Model) (data : value) (s : Store) : Store :=
  let t0 := getTable (collectionName cm) s in
  {| tables := aset (collectionName cm)
                 {| t_next := t_next t0 + 1;
                    t_rows := t_rows t0
                              ++ [{| r_id := t_next t0;
                                     r_data := selectAttributes cm data |}] |}
                 (tables s);
     joins := joins s;
     links := fold_left (fun ls kv =>
                           setLink (collectionName cm) (t_next t0) (fst kv) (snd kv) ls)
                (pickRelations cm data) (links s) |}.

(** ... then create a join record linking it to the entry at
    [(field, order)]. *)
Definition linkNew (model cm : Model) (entryId : Z) (key : string) (order : Z)
    (data : value) (s : Store) : Store :=
  setJoins (collectionName model)
    (getJoins (collectionName model) s
     ++ [{| j_fk := entryId; j_type := collectionName cm;
            j_cid := t_next (getTable (collectionName cm) s);
            j_field := key; j_order := order |}])
    (insertComponent cm data s).



(** ** Reconciling the components of a field, in the words of the specification *)

(** A row has the id a caller or a join row names, compared as the code
    compares ids: by their strings. *)
Definition hasId (str : string) (r : Row) : bool :=
  String.eqb (Zstr (r_id r)) str.

(** "update that component instance in place": the columns the item
    supplies are patched on the row of that id, its relations go to the
    relation collaborator. *)
Definition patchComponent (cm : Model) (id : Z) (v : value) (s : Store) : Store :=
  let s1 :=
    if (len (selectAttributes cm v) >? 0)
    then setTable (collectionName cm)
           {| t_next := t_next (getTable (collectionName cm) s);
              t_rows := map (fun r => if r_id r =? id
                                      then patchRow (selectAttributes cm v) r
                                      else r)
                          (t_rows (getTable (collectionName cm) s)) |} s
    else s in
  if (len (pickRelations cm v) >? 0)
  then {| tables := tables s1; joins := joins s1;
          links := fold_left (fun ls kv =>
                                setLink (collectionName cm) id (fst kv) (snd kv) ls)
                     (pickRelations cm v) (links s1) |}
  else s1.

(** The patch of the order of the join row of an instance: the rows that
    match take the order, and where none matches none is made. *)
Definition reorder (model cm : Model) (entryId : Z) (key : string) (cid order : Z)
    (s : Store) : Store :=
  setJoins (collectionName model)
    (map (fun j => if (j_fk j =? entryId)
                      && String.eqb (j_type j) (collectionName cm)
                      && (j_cid j =? cid)
                      && String.eqb (j_field j) key
                   then {| j_fk := j_fk j; j_type := j_type j; j_cid := j_cid j;
                           j_field := j_field j; j_order := order |}
                   else j)
       (getJoins (collectionName model) s)) s.

(** The removal of the instance of an id: its relations are emptied by the
    relation collaborator and its row is destroyed. *)
Definition removeRow (cm : Model) (id : Z) (s : Store) : Store :=
  setTable (collectionName cm)
    {| t_next := t_next (getTable (collectionName cm) s);
       t_rows := filter (fun r => negb (hasId (Zstr id) r))
                   (t_rows (getTable (collectionName cm) s)) |}
    {| tables := tables s; joins := joins s;
       links := fold_left (fun ls kv =>
                             setLink (collectionName cm) id (fst kv) (snd kv) ls)
                  (unlinkValues cm) (links s) |}.

(** "delete their ... component instances": the instances whose id is among
    [ids], one after the other. *)
Definition removeComponents (cm : Model) (ids : list string) (s : Store) : Store :=
  fold_left (fun acc r => removeRow cm (r_id r) acc)
    (filter (fun r => strIn (Zstr (r_id r)) ids)
       (t_rows (getTable (collectionName cm) s)))
    s.


(** The ids currently joined to (entity, field). *)
Definition existingIds (model : Model) (entryId : Z) (key : string) (s : Store)
    : list string :=
  map (fun j => Zstr (j_cid j))
    (filter (fun j => (j_fk j =? entryId) && String.eqb (j_field j) key)
       (getJoins (collectionName model) s)).

(** "ids to delete = existing ids minus ids to keep; delete their join
    records and component instances". *)
Definition prune (model cm : Model) (entryId : Z) (key : string)
    (idsToKeep : list string) (s : Store) : Store :=
  let idsToDelete :=
    filter (fun id => negb (strIn id idsToKeep)) (existingIds model entryId key s) in
  if (len idsToDelete >? 0)
  then removeComponents cm idsToDelete
         (setJoins (collectionName model)
            (filter (fun j => negb (strIn (Zstr (j_cid j)) idsToDelete
                                    && String.eqb (j_field j) key))
               (getJoins (collectionName model) s)) s)
  else s.

(** "For every new item: if it carries an existing component id, update that
    component instance in place and" patch "its join record's order;
    otherwise create a new component instance and a new join record at the
    item's order." *)
Definition relink (model cm : Model) (entryId : Z) (key : string) (order : Z)
    (item : value) (s : Store) : Store :=
  match (if has item (primaryKey cm) then get item (primaryKey cm) else None) with
  | Some idv =>
      match toString idv with
      | Some str =>
          match List.find (hasId str) (t_rows (getTable (collectionName cm) s)) with
          | Some centry =>
              reorder model cm entryId key (r_id centry) order
                (patchComponent cm (r_id centry) item s)
          | None => s
          end
      | None => s
      end
  | None => linkNew model cm entryId key order item s
  end.

(** The ids the items of a value supply. *)
Definition suppliedIds (cm : Model) (items : list value) : list string :=
  flat_map (fun item =>
              match get item (primaryKey cm) with
              | Some idv => match toString idv with Some str => [str] | None => [] end
              | None => []
              end) items.

(** The reconciliation of a component field with its new items. *)
Definition reconcile (model cm : Model) (entryId : Z) (key : string)
    (items : list value) (s : Store) : Store :=
  fold_left (fun acc iv => relink model cm entryId key (fst iv) (snd iv) acc)
    (indexed 1 items)
    (prune model cm entryId key (suppliedIds cm items) s).

(** An item is ready for its turn when the id it carries, if any, has a
    string and names a row of the component table. *)
Definition itemReady (cm : Model) (item : value) (s : Store) : Prop :=
  forall idv, get item (primaryKey cm) = Some idv ->
    exists str, toString idv = Some str
                /\ existsb (hasId str) (t_rows (getTable (collectionName cm) s)) = true.


(** What identifies a join row apart from its order. *)
Definition joinKey (j : JoinRow) : Z * string * Z * string :=
  (j_fk j, j_type j, j_cid j, j_field j).

(** "ids to delete" of a component field. *)
Definition idsToDelete (model cm : Model) (entryId : Z) (key : string)
    (items : list value) (s : Store) : list string :=
  filter (fun id => negb (strIn id (suppliedIds cm items)))
    (existingIds model entryId key s).

(** ** Reconciling a dynamic zone *)









(** A registry of flat components in which a collection belongs to one
    component. *)
Definition flatRegistry (reg : list (string * Model)) : Prop :=
  (forall km, In km reg -> flatComponent reg (snd km))
  /\ (forall a b, In a reg -> In b reg ->
        collectionName (snd a) = collectionName (snd b) -> uid (snd a) = uid (snd b)).

(** The update of the scenario: the first section is kept and patched, the
    second is not supplied. *)
Definition keepFirstSection : value :=
  VObj [("sections", VArr [VObj [("id", VNum 1); ("text", VStr "x2")]])].


(** ** What an operation leaves alone *)

(** An operation confined to [t] whose effect on the working copy is within
    the relation [R]. *)
Definition pres {A : Type} (t : nat) (R : Store -> Store -> Prop) (m : M A) : Prop :=
  local t m /\ forall s, R s (snd (runIn t m s)).

Definition presQuery (t : nat) (R : Store -> Store -> Prop) (q : Query) : Prop :=
  (forall params, pres t R (q_find q params (Some t)))
  /\ (forall params, pres t R (q_findOne q params (Some t)))
  /\ (forall values, pres t R (q_create q values (Some t)))
  /\ (forall params values, pres t R (q_update q params values (Some t)))
  /\ (forall params, pres t R (q_delete q params (Some t))).

(** The join table [name] is as it was. *)
Definition keepsJoins (name : string) (s s' : Store) : Prop :=
  getJoins name s' = getJoins name s.


(** ** The other rules of the validators *)

(** A dynamic-zone value the validator lets through: an array of plain
    objects with an allowed discriminant, within the bounds the code takes
    as configured. *)
Definition dynamiczoneRule (v : value) (attr : Attribute) : Prop :=
  exists items,
    v = VArr items
    /\ Forall (dynamiczoneItemOk (a_components attr)) items
    /\ (forall mn, a_min attr = Some mn ->
          a_required attr = true \/ items <> [] -> mn <= len items)
    /\ (forall mx, a_max attr = Some mx -> mx <> 0 -> len items <= mx).

(** The message of an error names the field. *)
Definition mentions (key msg : string) : Prop :=
  exists pre post, msg = pre ++ key ++ post.

(** What a validator answers is a pass or a 400 whose message names the
    field. *)
Definition namesField (key : string) (r : Result unit) : Prop :=
  match r with
  | Ok _ => True
  | Err e => exists msg, e = HttpError 400 msg /\ mentions key msg
  end.

(** The attribute with its [required] flag and its allowed components
    replaced. *)
Definition withRequired (required : bool) (attr : Attribute) : Attribute :=
  {| a_type := a_type attr; a_component := a_component attr;
     a_components := a_components attr; a_required := required;
     a_repeatable := a_repeatable attr; a_min := a_min attr; a_max := a_max attr |}.

Definition withComponents (allowed : list string) (attr : Attribute) : Attribute :=
  {| a_type := a_type attr; a_component := a_component attr;
     a_components := allowed; a_required := a_required attr;
     a_repeatable := a_repeatable attr; a_min := a_min attr; a_max := a_max attr |}.

(** A model whose only column is a counter. *)
Definition counterOn (dialect : string) : Model :=
  {| uid := "counter"; collectionName := "counters"; primaryKey := "id";
     connectionClient := dialect; client := dialect;
     attributes := [("views", scalarAttr "integer")];
     _attributes := [("views", "integer")];
     allAttributes := ["views"];
     associations := [];
     timestamps := None |}.

(** ** What an operation leaves alone, continued *)

(** The table [name] is as it was. *)
Definition keepsRows (name : string) (s s' : Store) : Prop :=
  getTable name s' = getTable name s.


(** The working copy of the transaction [t] after an operation run in the
    world [w]. *)
Definition after {A : Type} (t : nat) (m : M A) (w : World) : option Store :=
  view (Some t) (snd (m w)).


(** ** Deleting the components of an entity *)

(** One turn of the loop of [deleteComponents]. *)
Definition deleteComponentsField (strapi : Strapi) (model : Model) (entry : Row)
    (transacting : handle) (key : string) : M unit :=
  match alookup key (attributes model) with
  | None => undefinedModel
  | Some attr =>
      if String.eqb (a_type attr) "component" then
        let componentModel := componentModelOf strapi (a_component attr) in
        ids <- liftS transacting (joinFetchAll model (joinOf entry key)) ;;
        match componentModel with
        | None => undefinedModel
        | Some cm =>
            q_delete (query strapi (uid cm))
              [(primaryKey cm ++ "_in", VArr (map (fun j => VNum (j_cid j)) ids))]
              transacting ;;;
            liftS transacting (joinDestroy model (joinOf entry key))
        end
      else if String.eqb (a_type attr) "dynamiczone" then
        componentJoins <- liftS transacting (joinFetchAll model (joinOf entry key)) ;;
        forM_ (fun compo =>
          match componentModelOf strapi compo with
          | None => undefinedModel
          | Some cm =>
              let q := query strapi (uid cm) in
              let toDelete :=
                filter (fun el => String.eqb (j_type el) (collectionName cm))
                  componentJoins in
              if (len toDelete >? 0) then
                q_delete q
                  [(q_primaryKey q ++ "_in",
                    VArr (map (fun el => VNum (j_cid el)) toDelete))]
                  transacting ;;; ret tt
              else ret tt
          end) (a_components attr) ;;;
        liftS transacting (joinDestroy model (joinOf entry key))
      else ret tt
  end.

(** A join row of the entity in one of the fields [keys]. *)
Definition ownedBy (entryId : Z) (keys : list string) (j : JoinRow) : bool :=
  (j_fk j =? entryId) && strIn (j_field j) keys.

(** A model with a relation and with a component field whose component the
    registry does not know, and a world that holds one of its entities,
    linked to an author. *)
Definition pageModel : Model :=
  {| uid := "page"; collectionName := "pages"; primaryKey := "id";
     connectionClient := "sqlite3"; client := "sqlite3";
     attributes := [("title", scalarAttr "string"); ("hero", singleAttr "ghost" false)];
     _attributes := [("title", "string")];
     allAttributes := ["title"; "author"];
     associations := [{| alias := "author"; nature := "manyToOne" |}];
     timestamps := None |}.

Definition pageWorld : World :=
  {| committed :=
       {| tables := [("pages",
                      {| t_next := 2;
                         t_rows := [{| r_id := 1; r_data := [("title", VStr "P")] |}] |})];
          joins := [];
          links := [{| l_coll := "pages"; l_id := 1; l_alias := "author";
                       l_value := VNum 7 |}] |};
     pending := [];
     opened := 0 |}.

(** ** Tables that only lose rows *)

(** The tables of [s'] are those of [s] with rows taken away: no row is
    added and none is changed. *)
Definition thins (s s' : Store) : Prop :=
  forall name, exists p,
    t_rows (getTable name s') = filter p (t_rows (getTable name s)).

(** The rows of every component table of the registry have distinct ids. *)
Definition distinctIds (reg : list (string * Model)) (s : Store) : Prop :=
  forall km, In km reg ->
    NoDup (map r_id (t_rows (getTable (collectionName (snd km)) s))).

(** The component models from whose table a turn of [deleteComponents]
    deletes the instance a join row names: the component of the field, or,
    in a dynamic zone, the allowed components whose collection is the
    [component_type] of the join row. *)
Definition targetModels (reg : list (string * Model)) (attr : Attribute)
    (j : JoinRow) : list Model :=
  if String.eqb (a_type attr) "component" then
    match alookup (a_component attr) reg with
    | Some cm => [cm]
    | None => []
    end
  else if String.eqb (a_type attr) "dynamiczone" then
    flat_map (fun c =>
                match alookup c reg with
                | Some cm =>
                    if String.eqb (j_type j) (collectionName cm) then [cm] else []
                | None => []
                end) (a_components attr)
  else [].

(** ** The orders of the join rows of a field *)

(** The number of the join rows of (entity, field) at the order [o]. *)
Definition withOrder (entryId : Z) (key : string) (o : Z) (l : list JoinRow) : nat :=
  List.length
    (filter (fun j => (j_fk j =? entryId) && String.eqb (j_field j) key
                      && (j_order j =? o)) l).

(** The next id of a table is above the ids of its rows. *)
Definition freshNext (tb : Table) : Prop :=
  forall z, In z (map r_id (t_rows tb)) -> z < t_next tb.

(** An update of the sections of the article of the scenario: the second
    section first, a new section, then the first section. *)
Definition reorderSections : value :=
  VObj [("sections",
         VArr [VObj [("id", VNum 2); ("text", VStr "y2")];
               VObj [("text", VStr "n")];
               VObj [("id", VNum 1)]])].

(** A model with one optional, non-repeatable component field, and a world
    that holds one of its entities with its cover. *)
Definition albumModel : Model :=
  {| uid := "album"; collectionName := "albums"; primaryKey := "id";
     connectionClient := "sqlite3"; client := "sqlite3";
     attributes := [("name", scalarAttr "string"); ("cover", singleAttr "section" false)];
     _attributes := [("name", "string")];
     allAttributes := ["name"];
     associations := [];
     timestamps := None |}.

Definition albumWorld : World :=
  snd (create (strapiOf registry 2) albumModel
         (VObj [("name", VStr "N"); ("cover", VObj [("text", VStr "c")])])
         None emptyWorld).

(** * Properties *)

(** ** Validators *)

Lemma forEachCheck_ok {A : Type} (f : A -> Result unit) (l : list A) :
  forEachCheck f l = Ok tt <-> (forall x, In x l -> f x = Ok tt).
Proof.
  induction l as [|x r IH]; simpl.
  - split; [intros _ y []|reflexivity].
  - destruct (f x) as [[]|e] eqn:E.
    + rewrite IH. split.
      * intros H y [<-|Hy]; auto.
      * intros H y Hy. apply H. now right.
    + split; [discriminate|].
      intros H. specialize (H x (or_introl eq_refl)). congruence.
Qed.

Lemma forEachCheck_status {A : Type} (f : A -> Result unit) (l : list A) (st : Z) :
  (forall x, f x = Ok tt \/ isErrStatus st (f x)) ->
  forEachCheck f l = Ok tt \/ isErrStatus st (forEachCheck f l).
Proof.
  intros Hf. induction l as [|x r IH]; simpl; [now left|].
  destruct (Hf x) as [E|[msg E]]; rewrite E; [exact IH|].
  right. now exists msg.
Qed.

Lemma checkBounds_status what key n mn mx req :
  checkBounds what key n mn mx req = Ok tt
  \/ isErrStatus 400 (checkBounds what key n mn mx req).
Proof.
  unfold checkBounds.
  destruct ((req || negb req && (n >? 0)) && truthyBound mn && (n <? boundVal mn)).
  - right. eexists. reflexivity.
  - destruct (truthyBound mx && (n >? boundVal mx)).
    + right. eexists. reflexivity.
    + now left.
Qed.

Lemma checkBounds_ok what key (A : Type) (items : list A) mn mx req :
  checkBounds what key (len items) mn mx req = Ok tt <->
  (forall m, mn = Some m -> req = true \/ items <> [] -> m <= len items)
  /\ (forall m, mx = Some m -> m <> 0 -> len items <= m).
Proof.
  unfold checkBounds.
  assert (Hlen : 0 <= len items) by (unfold len; lia).
  assert (Hne : (len items >? 0) = true <-> items <> []).
  { unfold len. destruct items as [|a items]; split; intros H.
    - discriminate H.
    - congruence.
    - discriminate.
    - apply Z.gtb_lt. simpl. lia. }
  destruct ((req || negb req && (len items >? 0)) && truthyBound mn
            && (len items <? boundVal mn)) eqn:E1.
  - split; [discriminate|]. intros [Hmin _]. exfalso.
    apply andb_prop in E1 as [E1 E3]. apply andb_prop in E1 as [E1 E2].
    destruct mn as [m|]; simpl in *; [|discriminate].
    apply Z.ltb_lt in E3.
    assert (req = true \/ items <> []) as Hc.
    { destruct req; [now left|]. simpl in E1. right. now apply Hne. }
    specialize (Hmin m eq_refl Hc). lia.
  - destruct (truthyBound mx && (len items >? boundVal mx)) eqn:E2.
    + split; [discriminate|]. intros [_ Hmax]. exfalso.
      apply andb_prop in E2 as [E2 E3].
      destruct mx as [m|]; simpl in *; [|discriminate].
      apply negb_true_iff, Z.eqb_neq in E2.
      apply Z.gtb_lt in E3. specialize (Hmax m eq_refl E2). lia.
    + split; [intros _|reflexivity]. split.
      * intros m -> Hc. simpl in E1.
        destruct (Z.eq_dec m 0) as [->|Hm]; [lia|].
        apply Z.eqb_neq in Hm. rewrite Hm in E1. simpl in E1.
        assert ((req || negb req && (len items >? 0)) = true) as Hb.
        { destruct Hc as [->|Hc]; [reflexivity|].
          apply Hne in Hc. rewrite Hc. now destruct req. }
        rewrite Hb in E1. simpl in E1. apply Z.ltb_ge in E1. lia.
      * intros m -> Hm. simpl in E2. apply Z.eqb_neq in Hm. rewrite Hm in E2.
        simpl in E2. destruct (len items >? m) eqn:E; [discriminate|].
        rewrite Z.gtb_ltb in E. apply Z.ltb_ge in E. lia.
Qed.

Lemma plainItem_check key (val : value) :
  (if negb (typeofObject val) || isArray val || isNull val
   then Err (HttpError 400
          ("Component " ++ key ++
           " has invalid items. Expected each items to be objects"))
   else Ok tt) = Ok tt <-> isPlainItem val = true.
Proof.
  unfold isPlainItem.
  destruct (negb (typeofObject val) || isArray val || isNull val); simpl;
    split; congruence.
Qed.

(** C4, as amended. A repeatable component value passes the validator exactly
    when it is an array of plain non-array, non-null objects whose length is
    at least a configured [min] when the field is required or the array is
    not empty, and at most a configured non-zero [max], whatever the field
    requires and the array holds; a value that does not pass is refused with
    status 400. *)
Theorem validateRepeatableInput_rule (v : value) (key : string) (attr : Attribute) :
  (validateRepeatableInput v key attr = Ok tt <-> repeatableRule v attr)
  /\ (validateRepeatableInput v key attr = Ok tt
      \/ isErrStatus 400 (validateRepeatableInput v key attr)).
Proof.
  split.
  - unfold validateRepeatableInput, repeatableRule.
    destruct v as [| | | |items|];
      try (split; [discriminate|intros (items & H & _); discriminate]).
    destruct (forEachCheck _ items) as [[]|e] eqn:E.
    + rewrite checkBounds_ok. split.
      * intros [Hmin Hmax]. exists items. repeat split; auto.
        apply forallb_forall. intros x Hx.
        apply (proj1 (forEachCheck_ok _ _) E) in Hx.
        now apply plainItem_check in Hx.
      * intros (items' & Heq & _ & Hmin & Hmax). injection Heq as <-. now split.
    + split; [discriminate|].
      intros (items' & Heq & Hall & _). injection Heq as <-.
      assert (forEachCheck
                (fun val => if negb (typeofObject val) || isArray val || isNull val
                            then Err (HttpError 400
                                   ("Component " ++ key ++
                                    " has invalid items. Expected each items to be objects"))
                            else Ok tt) items = Ok tt) as Hok.
      { apply forEachCheck_ok. intros x Hx. apply plainItem_check.
        rewrite forallb_forall in Hall. now apply Hall. }
      congruence.
  - unfold validateRepeatableInput.
    destruct v as [| | | |items|]; try (right; eexists; reflexivity).
    match goal with
    | |- context [forEachCheck ?f items] =>
        destruct (forEachCheck_status f items 400) as [E|[msg E]]
    end.
    + intros x. destruct (negb (typeofObject x) || isArray x || isNull x);
        [right; eexists; reflexivity|now left].
    + rewrite E. apply checkBounds_status.
    + rewrite E. right. now exists msg.
Qed.

(** C4, the claim as stated fails: with [max] configured as 0 an array of one
    item passes the validator, though its length exceeds the bound. *)
Lemma validateRepeatableInput_max_zero :
  validateRepeatableInput (VArr [VObj []]) "sections"
    (repeatableAttr "section" false None (Some 0)) = Ok tt
  /\ ~ repeatableRuleStated (VArr [VObj []])
         (repeatableAttr "section" false None (Some 0)).
Proof.
  split; [reflexivity|].
  intros (items & Heq & _ & _ & Hmax). injection Heq as <-.
  specialize (Hmax 0 eq_refl). unfold len in Hmax. simpl in Hmax. lia.
Qed.

Lemma checkDynamiczoneItem_status key allowed (val : value) :
  checkDynamiczoneItem key allowed val = Ok tt
  \/ isErrStatus 400 (checkDynamiczoneItem key allowed val).
Proof.
  unfold checkDynamiczoneItem.
  destruct (negb (typeofObject val) || isArray val || isNull val);
    [right; eexists; reflexivity|].
  destruct (negb (has val "__component")); [right; eexists; reflexivity|].
  destruct (negb (includesValue allowed (get val "__component")));
    [right; eexists; reflexivity|now left].
Qed.

Lemma strIn_In (s : string) (l : list string) : strIn s l = true <-> In s l.
Proof.
  unfold strIn. rewrite existsb_exists. split.
  - intros (x & Hx & E). apply String.eqb_eq in E. now subst.
  - intros H. exists s. split; [assumption|apply String.eqb_refl].
Qed.

Lemma checkDynamiczoneItem_ok key allowed (val : value) :
  checkDynamiczoneItem key allowed val = Ok tt <-> dynamiczoneItemOk allowed val.
Proof.
  unfold checkDynamiczoneItem, dynamiczoneItemOk, isPlainItem.
  destruct (negb (typeofObject val) || isArray val || isNull val); simpl.
  - split; [discriminate|intros [H _]; discriminate].
  - destruct (has val "__component") eqn:Hhas; simpl.
    + unfold includesValue.
      destruct (get val "__component") as [[| | |c| |]|] eqn:Hget; simpl;
        try (split; [discriminate|intros [_ (c' & Hc & _)]; discriminate]).
      destruct (strIn c allowed) eqn:Hin; simpl.
      * split; [intros _|reflexivity]. split; [reflexivity|].
        exists c. split; [reflexivity|now apply strIn_In].
      * split; [discriminate|]. intros [_ (c' & Hc & Hc')].
        injection Hc as <-. apply strIn_In in Hc'. congruence.
    + split; [discriminate|]. intros [_ (c & Hc & _)].
      destruct val; simpl in *; try discriminate.
      unfold amem in Hhas. rewrite Hc in Hhas. discriminate.
Qed.

Lemma validateDynamiczoneInput_status v key attr :
  validateDynamiczoneInput v key attr = Ok tt
  \/ isErrStatus 400 (validateDynamiczoneInput v key attr).
Proof.
  unfold validateDynamiczoneInput.
  destruct v as [| | | |items|]; try (right; eexists; reflexivity).
  destruct (forEachCheck_status (checkDynamiczoneItem key (a_components attr))
              items 400) as [E|[msg E]].
  - intros x. apply checkDynamiczoneItem_status.
  - rewrite E. apply checkBounds_status.
  - rewrite E. right. now exists msg.
Qed.

Lemma bind_liftR_err {A B : Type} (e : Error) (k : A -> M B) (w : World) :
  bind (liftR (Err e)) k w = (Err e, w).
Proof. reflexivity. Qed.

Lemma has_get (v : value) (k : string) (x : value) :
  get v k = Some x -> has v k = true.
Proof.
  destruct v; simpl; try discriminate. unfold amem. now intros ->.
Qed.

(** C5. A dynamic-zone value that passes the validator is an array of plain
    objects each carrying a [__component] among the allowed identifiers; an
    array with an item that lacks [__component], or whose [__component] is
    not allowed, is refused with status 400 whatever else the item and the
    array hold; and in [createComponents] and [updateComponents] a value the
    validator refuses ends the turn of its field before any read or write of
    the store. *)
Theorem validateDynamiczoneInput_discriminant :
  (forall v key attr,
      validateDynamiczoneInput v key attr = Ok tt ->
      exists items, v = VArr items
                    /\ Forall (dynamiczoneItemOk (a_components attr)) items)
  /\ (forall items item key attr,
         In item items ->
         has item "__component" = false
         \/ includesValue (a_components attr) (get item "__component") = false ->
         isErrStatus 400 (validateDynamiczoneInput (VArr items) key attr))
  /\ (forall strapi model entry values transacting key attr v e w,
         alookup key (attributes model) = Some attr ->
         a_type attr = "dynamiczone" ->
         get values key = Some v ->
         validateDynamiczoneInput v key attr = Err e ->
         createComponentsField strapi model entry values transacting key w = (Err e, w)
         /\ updateComponentsField strapi model entry values transacting key w
            = (Err e, w)).
Proof.
  split; [|split].
  - intros v key attr H. unfold validateDynamiczoneInput in H.
    destruct v as [| | | |items|]; try discriminate.
    exists items. split; [reflexivity|].
    destruct (forEachCheck _ items) as [[]|e] eqn:E; [|discriminate].
    apply Forall_forall. intros x Hx.
    apply (proj1 (forEachCheck_ok _ _) E) in Hx.
    now apply checkDynamiczoneItem_ok in Hx.
  - intros items item key attr Hin Hbad.
    destruct (validateDynamiczoneInput_status (VArr items) key attr) as [Hok|Herr];
      [exfalso|exact Herr].
    unfold validateDynamiczoneInput in Hok.
    destruct (forEachCheck _ items) as [[]|e] eqn:E; [|discriminate].
    apply (proj1 (forEachCheck_ok _ _) E) in Hin.
    apply checkDynamiczoneItem_ok in Hin. destruct Hin as [_ (c & Hc & Hc')].
    destruct Hbad as [Hbad|Hbad].
    + apply has_get in Hc. congruence.
    + rewrite Hc in Hbad. simpl in Hbad. apply strIn_In in Hc'. congruence.
  - intros strapi model entry values transacting key attr v e w Hattr Hty Hget Hval.
    unfold createComponentsField, updateComponentsField.
    rewrite Hattr, Hget, Hty, (has_get _ _ _ Hget), Hval. simpl.
    rewrite andb_false_r. split; reflexivity.
Qed.

(** An instance of C5: an item without discriminant in the dynamic zone
    [blocks] of the sample article. *)
Lemma validateDynamiczoneInput_discriminant_witness :
  isErrStatus 400
    (validateDynamiczoneInput (VArr [VObj [("body", VStr "b")]]) "blocks"
       (zoneAttr ["section"; "quote"] false None None))
  /\ createComponentsField (strapiOf registry 1) articleModel
       {| r_id := 1; r_data := [] |}
       (VObj [("blocks", VArr [VObj [("body", VStr "b")]])]) None "blocks" emptyWorld
     = (Err (HttpError 400
          "Dynamiczone blocks has invalid items. Expected each items to have a valid __component key"),
        emptyWorld).
Proof.
  split.
  - apply (proj1 (proj2 validateDynamiczoneInput_discriminant)
             [VObj [("body", VStr "b")]] (VObj [("body", VStr "b")])).
    + left. reflexivity.
    + left. reflexivity.
  - apply (proj2 (proj2 validateDynamiczoneInput_discriminant)
             (strapiOf registry 1) articleModel {| r_id := 1; r_data := [] |}
             (VObj [("blocks", VArr [VObj [("body", VStr "b")]])]) None "blocks"
             (zoneAttr ["section"; "quote"] false None None)
             (VArr [VObj [("body", VStr "b")]])); reflexivity.
Defined.

(** ** Search *)

Lemma existsb_map_clause (fullText : string -> string -> Row -> bool)
    (m : Model) (r : Row) (n : Z) (l : list string) :
  existsb (clauseHolds fullText m r) (map (fun a => OrWhere a n) l)
  = existsb (fun a => columnIs m r a n) l.
Proof. induction l as [|a l IH]; simpl; [reflexivity|now rewrite IH]. Qed.

Lemma whereHolds_snoc (fullText : string -> string -> Row -> bool)
    (m : Model) (r : Row) (cs : list clause) (c : clause) :
  whereHolds fullText m (cs ++ [c]) r
  = existsb (clauseHolds fullText m r) cs || clauseHolds fullText m r c.
Proof.
  unfold whereHolds. destruct (cs ++ [c])%list eqn:E.
  - now destruct cs.
  - rewrite <- E, existsb_app. simpl. now rewrite orb_false_r.
Qed.

(** C9, as amended. The clauses of a search are alternatives: an exact match
    on each numeric attribute when the query reads as a number, an exact
    match on each boolean attribute when the query is ['true'] or ['false'],
    and, for the dialects [mysql] and [pg] only, one full-text predicate over
    the string and text attributes; under any other dialect the builder adds
    no text predicate at all. *)
Theorem buildSearchQuery_or (toNumber : string -> option Z)
    (fullText : string -> string -> Row -> bool) (m : Model) (query : string)
    (r : Row) :
  let numeric :=
    match toNumber query with
    | Some n => existsb (fun a => columnIs m r a n)
                  (searchable m ["integer"; "decimal"; "float"])
    | None => false
    end in
  let boolean :=
    if String.eqb query "true" || String.eqb query "false"
    then existsb (fun a => columnIs m r a (if String.eqb query "true" then 1 else 0))
           (searchable m ["boolean"])
    else false in
  (client m = "mysql" ->
   whereHolds fullText m (buildSearchQuery toNumber m query) r
   = numeric || boolean || fullText (mysqlSearch m) ("*" ++ query ++ "*") r)
  /\ (client m = "pg" ->
      whereHolds fullText m (buildSearchQuery toNumber m query) r
      = numeric || boolean || fullText (pgSearch m) query r)
  /\ (client m <> "mysql" -> client m <> "pg" ->
      forallb (fun c => negb (isRaw c)) (buildSearchQuery toNumber m query) = true
      /\ existsb (clauseHolds fullText m r) (buildSearchQuery toNumber m query)
         = numeric || boolean).
Proof.
  intros numeric boolean. unfold buildSearchQuery.
  assert (Hnum : existsb (clauseHolds fullText m r)
                   match toNumber query with
                   | Some n => map (fun a => OrWhere a n)
                                 (searchable m ["integer"; "decimal"; "float"])
                   | None => []
                   end = numeric).
  { unfold numeric. destruct (toNumber query); [apply existsb_map_clause|reflexivity]. }
  assert (Hbool : existsb (clauseHolds fullText m r)
                    (if String.eqb query "true" || String.eqb query "false"
                     then map (fun a => OrWhere a (if String.eqb query "true" then 1 else 0))
                            (searchable m ["boolean"])
                     else []) = boolean).
  { unfold boolean. destruct (String.eqb query "true" || String.eqb query "false");
      [apply existsb_map_clause|reflexivity]. }
  split; [|split].
  - intros Hc. rewrite Hc. simpl String.eqb. cbv iota.
    rewrite app_assoc, whereHolds_snoc, existsb_app, Hnum, Hbool. reflexivity.
  - intros Hc. rewrite Hc. simpl String.eqb. cbv iota.
    rewrite app_assoc, whereHolds_snoc, existsb_app, Hnum, Hbool. reflexivity.
  - intros H1 H2. apply String.eqb_neq in H1, H2. rewrite H1, H2.
    rewrite !app_nil_r. split.
    + rewrite forallb_app. apply andb_true_intro. split.
      * destruct (toNumber query); [|reflexivity].
        apply forallb_forall. intros c Hc. apply in_map_iff in Hc.
        destruct Hc as (a & <- & _). reflexivity.
      * destruct (String.eqb query "true" || String.eqb query "false"); [|reflexivity].
        apply forallb_forall. intros c Hc. apply in_map_iff in Hc.
        destruct Hc as (a & <- & _). reflexivity.
    + rewrite existsb_app, Hnum, Hbool. reflexivity.
Qed.

(** An instance of C9: the query "42" on the sample article under [mysql]
    selects the row whose counter is 42 and, through the full-text predicate,
    the row whose title matches. *)
Lemma buildSearchQuery_or_witness :
  whereHolds (fun _ binding r => match alookup "title" (r_data r) with
                                 | Some (VStr s) => String.eqb ("*" ++ s ++ "*") binding
                                 | _ => false
                                 end)
    (articleOn "mysql") (buildSearchQuery readsFortyTwo (articleOn "mysql") "42")
    {| r_id := 1; r_data := [("title", VStr "42"); ("views", VNum 7)] |} = true.
Proof.
  rewrite (proj1 (buildSearchQuery_or readsFortyTwo _ (articleOn "mysql") "42"
                    {| r_id := 1; r_data := [("title", VStr "42"); ("views", VNum 7)] |})
             eq_refl).
  reflexivity.
Defined.

(** C9, the claim as stated fails: under [sqlite3] the search of "42" has no
    full-text predicate, and a row whose title is "42" and whose counter is
    not is left out even by a backend whose full-text predicate accepts
    every row. *)
Lemma buildSearchQuery_sqlite_no_text :
  existsb isRaw (buildSearchQuery readsFortyTwo (articleOn "sqlite3") "42") = false
  /\ whereHolds (fun _ _ _ => true) (articleOn "sqlite3")
       (buildSearchQuery readsFortyTwo (articleOn "sqlite3") "42")
       {| r_id := 1; r_data := [("title", VStr "42"); ("views", VNum 7)] |} = false.
Proof. split; reflexivity. Qed.

(** ** Worlds, views and confinement *)

Lemma plookup_pset (t : nat) (s s' : Store) (l : list (nat * Store)) :
  plookup t l = Some s -> plookup t (pset t s' l) = Some s'.
Proof.
  induction l as [|[t' x] l IH]; simpl; [discriminate|].
  destruct (Nat.eqb t t') eqn:E; simpl; rewrite E; auto.
Qed.

Lemma pset_pset (t : nat) (s1 s2 : Store) (l : list (nat * Store)) :
  pset t s2 (pset t s1 l) = pset t s2 l.
Proof.
  induction l as [|[t' x] l IH]; simpl; [reflexivity|].
  destruct (Nat.eqb t t') eqn:E; simpl; rewrite E; [reflexivity|now rewrite IH].
Qed.

Lemma pset_same (t : nat) (s : Store) (l : list (nat * Store)) :
  plookup t l = Some s -> pset t s l = l.
Proof.
  induction l as [|[t' x] l IH]; simpl; [reflexivity|].
  destruct (Nat.eqb t t') eqn:E.
  - now intros [= ->].
  - intros H. now rewrite IH.
Qed.

Lemma plookup_pset_other (t t' : nat) (s : Store) (l : list (nat * Store)) :
  t <> t' -> plookup t' (pset t s l) = plookup t' l.
Proof.
  intros Hne. induction l as [|[u x] l IH]; simpl; [reflexivity|].
  destruct (Nat.eqb t u) eqn:E; simpl.
  - apply Nat.eqb_eq in E. subst u.
    destruct (Nat.eqb t' t) eqn:E'; [|reflexivity].
    apply Nat.eqb_eq in E'. congruence.
  - now rewrite IH.
Qed.

Lemma premove_pset (t : nat) (s : Store) (l : list (nat * Store)) :
  premove t (pset t s l) = premove t l.
Proof.
  unfold premove. induction l as [|[u x] l IH]; simpl; [reflexivity|].
  destruct (Nat.eqb t u) eqn:E; simpl; rewrite E; simpl; [reflexivity|now rewrite IH].
Qed.

Lemma setView_view (h : handle) (w : World) (s : Store) :
  view h w = Some s -> setView h s w = w.
Proof.
  destruct w as [c p o], h as [t|]; simpl.
  - intros H. now rewrite pset_same.
  - now intros [= ->].
Qed.

Lemma view_setView (h : handle) (w : World) (s s' : Store) :
  view h w = Some s -> view h (setView h s' w) = Some s'.
Proof.
  destruct h as [t|]; simpl; [apply plookup_pset|reflexivity].
Qed.

Lemma setView_setView (h : handle) (w : World) (s1 s2 : Store) :
  setView h s2 (setView h s1 w) = setView h s2 w.
Proof.
  destruct h as [t|]; simpl; [now rewrite pset_pset|reflexivity].
Qed.

(** A query that only reads leaves the world as it is. *)
Lemma liftS_read {A : Type} (h : handle) (f : Store -> Result A * Store)
    (w : World) (s : Store) :
  view h w = Some s -> snd (f s) = s -> liftS h f w = (fst (f s), w).
Proof.
  intros Hv Hs. unfold liftS. rewrite Hv. destruct (f s) as [r s'].
  simpl in *. subst s'. now rewrite setView_view.
Qed.

Lemma liftS_run {A : Type} (h : handle) (f : Store -> Result A * Store)
    (w : World) (s : Store) :
  view h w = Some s -> liftS h f w = (fst (f s), setView h (snd (f s)) w).
Proof.
  intros Hv. unfold liftS. rewrite Hv. now destruct (f s).
Qed.

Lemma local_intro {A : Type} (t : nat) (m : M A) (f : Store -> Result A * Store) :
  (forall w s, plookup t (pending w) = Some s ->
     m w = (fst (f s), setView (Some t) (snd (f s)) w)) ->
  local t m /\ (forall s, runIn t m s = f s).
Proof.
  intros H.
  assert (Hrun : forall s, runIn t m s = f s).
  { intros s. unfold runIn. rewrite (H (worldOf t s) s).
    - simpl. rewrite Nat.eqb_refl. simpl. rewrite Nat.eqb_refl. now destruct (f s).
    - simpl. now rewrite Nat.eqb_refl. }
  split; [|exact Hrun].
  intros w s Hs. rewrite Hrun. now apply H.
Qed.

Lemma local_ret {A : Type} (t : nat) (a : A) : local t (ret a).
Proof.
  apply (local_intro t (ret a) (fun s => (Ok a, s))).
  intros w s Hs. unfold ret. simpl. rewrite (pset_same _ _ _ Hs). now destruct w.
Qed.

Lemma local_fail {A : Type} (t : nat) (e : Error) : local t (@fail A e).
Proof.
  apply (local_intro t (fail e) (fun s => (Err e, s))).
  intros w s Hs. unfold fail. simpl. rewrite (pset_same _ _ _ Hs). now destruct w.
Qed.

Lemma local_liftR {A : Type} (t : nat) (r : Result A) : local t (liftR r).
Proof. destruct r; [apply local_ret|apply local_fail]. Qed.

Lemma local_liftS {A : Type} (t : nat) (f : Store -> Result A * Store) :
  local t (liftS (Some t) f).
Proof.
  apply (local_intro t _ f). intros w s Hs. now apply liftS_run.
Qed.

Lemma local_bind_run {A B : Type} (t : nat) (m : M A) (k : A -> M B) :
  local t m -> (forall a, local t (k a)) ->
  local t (bind m k)
  /\ (forall s, runIn t (bind m k) s = bindS (runIn t m) (fun a => runIn t (k a)) s).
Proof.
  intros Hm Hk. apply local_intro. intros w s Hs.
  unfold bind, bindS. rewrite (Hm w s Hs).
  destruct (runIn t m s) as [[a|e] s1]; simpl; [|reflexivity].
  rewrite (Hk a _ s1) by (simpl; now apply plookup_pset with (s := s)).
  simpl. now rewrite pset_pset.
Qed.

Lemma local_bind {A B : Type} (t : nat) (m : M A) (k : A -> M B) :
  local t m -> (forall a, local t (k a)) -> local t (bind m k).
Proof. intros Hm Hk. now apply local_bind_run. Qed.

Lemma runIn_bind {A B : Type} (t : nat) (m : M A) (k : A -> M B) (s : Store) :
  local t m -> (forall a, local t (k a)) ->
  runIn t (bind m k) s = bindS (runIn t m) (fun a => runIn t (k a)) s.
Proof. intros Hm Hk. now apply local_bind_run. Qed.

Lemma local_mapM {A B : Type} (t : nat) (f : A -> M B) (l : list A) :
  (forall x, local t (f x)) -> local t (mapM f l).
Proof.
  intros Hf. induction l as [|x r IH]; simpl.
  - apply local_ret.
  - apply local_bind; [apply Hf|]. intros y.
    apply local_bind; [exact IH|]. intros ys. apply local_ret.
Qed.

Lemma local_forM {A : Type} (t : nat) (f : A -> M unit) (l : list A) :
  (forall x, local t (f x)) -> local t (forM_ f l).
Proof.
  intros Hf. induction l as [|x r IH]; simpl.
  - apply local_ret.
  - apply local_bind; [apply Hf|]. intros _. exact IH.
Qed.

(** What confinement gives: no transaction is opened, the committed store
    and the other transactions are untouched. *)
Lemma local_frame {A : Type} (t : nat) (m : M A) (w : World) (s : Store) :
  local t m -> plookup t (pending w) = Some s ->
  committed (snd (m w)) = committed w
  /\ opened (snd (m w)) = opened w
  /\ (forall t', t' <> t -> plookup t' (pending (snd (m w))) = plookup t' (pending w)).
Proof.
  intros Hm Hs. rewrite (Hm w s Hs). simpl. repeat split.
  intros t' Hne. apply plookup_pset_other. congruence.
Qed.

Lemma wrapTransaction_handle {A : Type} (model : Model) (fn : handle -> M A)
    (t : nat) :
  wrapTransaction model fn (Some t) = fn (Some t).
Proof.
  unfold wrapTransaction. now destruct (String.eqb (connectionClient model) "mssql").
Qed.

(** A confined operation run through [db.transaction]: one transaction is
    opened and closed, and the committed store takes the writes of the
    operation when it resolves and none of them when it rejects. *)
Lemma transaction_local {A : Type} (fn : nat -> M A) (w : World) :
  local (opened w) (fn (opened w)) ->
  transaction fn w
  = (fst (runIn (opened w) (fn (opened w)) (committed w)),
     {| committed := settled (committed w)
                       (runIn (opened w) (fn (opened w)) (committed w));
        pending := premove (opened w) (pending w);
        opened := S (opened w) |}).
Proof.
  intros Hl. unfold transaction.
  rewrite (Hl _ (committed w)) by (simpl; now rewrite Nat.eqb_refl).
  unfold settled.
  destruct (runIn (opened w) (fn (opened w)) (committed w)) as [[a|e] s']; simpl;
    rewrite !Nat.eqb_refl; simpl; rewrite ?Nat.eqb_refl; reflexivity.
Qed.

Ltac local_step :=
  match goal with
  | |- local _ (bind _ _) => apply local_bind; [|intros ?]
  | |- local _ (ret _) => apply local_ret
  | |- local _ (fail _) => apply local_fail
  | |- local _ undefinedModel => apply local_fail
  | |- local _ notFound => apply local_fail
  | |- local _ (liftS _ _) => apply local_liftS
  | |- local _ (liftR _) => apply local_liftR
  | |- local _ (mapM _ _) => apply local_mapM; intros ?
  | |- local _ (forM_ _ _) => apply local_forM; intros ?
  | |- local _ (updateRelations _ _ _ _) => apply local_liftS
  | |- local _ (wrapTransaction _ _ (Some _)) => rewrite wrapTransaction_handle
  | |- local _ (match ?x with _ => _ end) => destruct x
  | |- local _ (let _ := _ in _) => cbv zeta
  end.

Section LocalBuilder.
Variable strapi : Strapi.
Variable model : Model.
Variable t : nat.
Hypothesis Hq : forall u, localQuery t (query strapi u).

Lemma q_create_local u v : local t (q_create (query strapi u) v (Some t)).
Proof. apply (Hq u). Qed.

Lemma q_update_local u p v : local t (q_update (query strapi u) p v (Some t)).
Proof. apply (Hq u). Qed.

Lemma q_delete_local u p : local t (q_delete (query strapi u) p (Some t)).
Proof. apply (Hq u). Qed.

Ltac local_auto :=
  repeat first [ apply q_create_local | apply q_update_local | apply q_delete_local
               | local_step ].

Lemma find_local params : local t (find model params (Some t)).
Proof. apply local_liftS. Qed.

Lemma findOne_local params : local t (findOne model params (Some t)).
Proof. unfold findOne. apply local_bind; [apply find_local|]. intros. local_auto. Qed.

Lemma deleteComponents_local entry :
  local t (deleteComponents strapi model entry (Some t)).
Proof. unfold deleteComponents. local_auto. Qed.

Lemma runDelete_local entry : local t (runDelete strapi model entry (Some t)).
Proof.
  unfold runDelete.
  apply local_bind; [apply deleteComponents_local|]. intros _. local_auto.
Qed.

Lemma deleteOne_local id : local t (deleteOne strapi model id (Some t)).
Proof.
  unfold deleteOne. destruct id; [|apply local_fail].
  apply local_bind; [apply local_liftS|]. intros [entry|]; [|apply local_fail].
  apply local_bind; [apply local_liftS|]. intros _.
  rewrite wrapTransaction_handle. apply runDelete_local.
Qed.

Lemma deleteMany_local params : local t (deleteMany strapi model params (Some t)).
Proof.
  unfold deleteMany. destruct (truthyOpt _).
  - apply local_bind; [apply find_local|]. intros [|e l];
      [apply local_ret|apply deleteOne_local].
  - apply local_bind; [apply find_local|]. intros l.
    apply local_bind; [|intros; apply local_ret].
    apply local_mapM. intros. apply deleteOne_local.
Qed.

Lemma createComponentAndLink_local entry cm v key order :
  local t (createComponentAndLink strapi model entry (Some t) cm v key order).
Proof. unfold createComponentAndLink. local_auto. Qed.

Lemma createComponentsField_local entry values key :
  local t (createComponentsField strapi model entry values (Some t) key).
Proof.
  unfold createComponentsField.
  repeat first [ apply createComponentAndLink_local | local_step ].
Qed.

Lemma createComponents_local entry values :
  local t (createComponents strapi model entry values (Some t)).
Proof.
  unfold createComponents. destruct (len _ =? 0); [apply local_ret|].
  apply local_forM. intros key. apply createComponentsField_local.
Qed.

Lemma deleteOldComponents_local entry v key cm :
  local t (deleteOldComponents strapi model entry v key cm (Some t)).
Proof. unfold deleteOldComponents. local_auto. Qed.

Lemma deleteDynamicZoneOldComponents_local entry v key :
  local t (deleteDynamicZoneOldComponents strapi model entry v key (Some t)).
Proof. unfold deleteDynamicZoneOldComponents. local_auto. Qed.

Lemma updateOrCreateComponentAndLink_local entry cm key v order :
  local t (updateOrCreateComponentAndLink strapi model entry (Some t) cm key v order).
Proof. unfold updateOrCreateComponentAndLink. local_auto. Qed.

Lemma updateComponentsField_local entry values key :
  local t (updateComponentsField strapi model entry values (Some t) key).
Proof.
  unfold updateComponentsField.
  repeat first [ apply updateOrCreateComponentAndLink_local
               | apply deleteOldComponents_local
               | apply deleteDynamicZoneOldComponents_local
               | local_step ].
Qed.

Lemma updateComponents_local entry values :
  local t (updateComponents strapi model entry values (Some t)).
Proof.
  unfold updateComponents. destruct (len _ =? 0); [apply local_ret|].
  apply local_forM. intros key. apply updateComponentsField_local.
Qed.

Lemma runCreate_local values : local t (runCreate strapi model values (Some t)).
Proof.
  unfold runCreate.
  apply local_bind; [apply local_liftS|]. intros entry.
  apply local_bind; [apply createComponents_local|]. intros _. apply local_liftS.
Qed.

Lemma create_local values : local t (create strapi model values (Some t)).
Proof. unfold create. rewrite wrapTransaction_handle. apply runCreate_local. Qed.

Lemma runUpdate_local entry params values :
  local t (runUpdate strapi model entry params values (Some t)).
Proof.
  unfold runUpdate.
  apply local_bind; [destruct (len _ >? 0); [apply local_liftS|apply local_ret]|].
  intros updated. apply local_bind; [apply updateComponents_local|]. intros _.
  destruct (len _ >? 0); [apply local_liftS|apply findOne_local].
Qed.

Lemma update_local params values :
  local t (update strapi model params values (Some t)).
Proof.
  unfold update. apply local_bind; [apply local_liftS|].
  intros [entry|]; [|apply local_fail].
  rewrite wrapTransaction_handle. apply runUpdate_local.
Qed.

Lemma createQueryBuilder_local : localQuery t (createQueryBuilder strapi model).
Proof.
  repeat split; simpl; intros.
  - apply find_local.
  - apply findOne_local.
  - apply create_local.
  - apply update_local.
  - apply deleteMany_local.
Qed.
End LocalBuilder.

Lemma failingQuery_local (t : nat) (pk : string) (e : Error) :
  localQuery t (failingQuery pk e).
Proof. repeat split; simpl; intros; apply local_fail. Qed.

(** Every operation of every query object, given the handle of an open
    transaction, is confined to that transaction. *)
Lemma queryOf_local (reg : list (string * Model)) (n : nat) :
  forall (m : Model) (t : nat), localQuery t (queryOf reg n m).
Proof.
  induction n as [|n IH]; intros m t; simpl.
  - apply failingQuery_local.
  - apply createQueryBuilder_local. intros u. simpl.
    destruct (modelByUid reg u); [apply IH|apply failingQuery_local].
Qed.

Lemma strapiOf_local (reg : list (string * Model)) (n : nat) (t : nat) (u : string) :
  localQuery t (query (strapiOf reg n) u).
Proof.
  simpl. destruct (modelByUid reg u); [apply queryOf_local|apply failingQuery_local].
Qed.

(** ** Transactions *)

Lemma wrapTransaction_none {A : Type} (model : Model) (fn : handle -> M A)
    (w : World) :
  connectionClient model <> "mssql" ->
  local (opened w) (fn (Some (opened w))) ->
  wrapTransaction model fn None w
  = (fst (runIn (opened w) (fn (Some (opened w))) (committed w)),
     afterTransaction w (runIn (opened w) (fn (Some (opened w))) (committed w))).
Proof.
  intros Hc Hl. unfold wrapTransaction.
  apply String.eqb_neq in Hc. rewrite Hc.
  now rewrite (transaction_local (fun trx => fn (Some trx)) w Hl).
Qed.

Lemma whereFetch_found (h : handle) (m : Model) (params : obj) (w : World)
    (s : Store) :
  view h w = Some s ->
  liftS h (whereFetch m params) w
  = (Ok (List.find (whereMatch m params) (t_rows (getTable (collectionName m) s))), w).
Proof. intros Hv. now rewrite (liftS_read h _ w s Hv). Qed.

(** C1, as amended. With no handle and a dialect other than [mssql],
    [create], the patch and component phase of [update] and the component
    and row phase of the single-entity delete each run in one transaction
    opened for them: the committed store takes all the writes of the phase
    when it resolves and none of them when it rejects. With the handle of an
    open transaction the same phases run under that handle: no transaction
    is opened, and the committed store is not written. Under [mssql] no
    transaction is ever opened: the phase runs with the handle it was given,
    outside any transaction when there is none. *)
Theorem multi_step_writes_transactional (reg : list (string * Model)) (n : nat)
    (model : Model) :
  (connectionClient model <> "mssql" ->
   (forall values w,
       create (strapiOf reg n) model values None w
       = (fst (runIn (opened w)
                 (runCreate (strapiOf reg n) model values (Some (opened w)))
                 (committed w)),
          afterTransaction w
            (runIn (opened w) (runCreate (strapiOf reg n) model values (Some (opened w)))
               (committed w))))
   /\ (forall params values entry w,
          List.find (whereMatch model params)
            (t_rows (getTable (collectionName model) (committed w))) = Some entry ->
          update (strapiOf reg n) model params values None w
          = (fst (runIn (opened w)
                    (runUpdate (strapiOf reg n) model entry params values
                       (Some (opened w)))
                    (committed w)),
             afterTransaction w
               (runIn (opened w)
                  (runUpdate (strapiOf reg n) model entry params values
                     (Some (opened w)))
                  (committed w))))
   /\ (forall idv entry w,
          List.find (whereMatch model [(primaryKey model, idv)])
            (t_rows (getTable (collectionName model) (committed w))) = Some entry ->
          deleteOne (strapiOf reg n) model (Some idv) None w
          = (fst (runIn (opened w)
                    (runDelete (strapiOf reg n) model entry (Some (opened w)))
                    (committed (unlinked model entry w))),
             afterTransaction (unlinked model entry w)
               (runIn (opened w)
                  (runDelete (strapiOf reg n) model entry (Some (opened w)))
                  (committed (unlinked model entry w))))))
  /\ (forall t w s, plookup t (pending w) = Some s ->
      (forall values,
          create (strapiOf reg n) model values (Some t) w
          = runCreate (strapiOf reg n) model values (Some t) w
          /\ committed (snd (create (strapiOf reg n) model values (Some t) w))
             = committed w
          /\ opened (snd (create (strapiOf reg n) model values (Some t) w))
             = opened w)
      /\ (forall params values,
             committed (snd (update (strapiOf reg n) model params values (Some t) w))
             = committed w
             /\ opened (snd (update (strapiOf reg n) model params values (Some t) w))
                = opened w)
      /\ (forall id,
             committed (snd (deleteOne (strapiOf reg n) model id (Some t) w))
             = committed w
             /\ opened (snd (deleteOne (strapiOf reg n) model id (Some t) w))
                = opened w))
  /\ (connectionClient model = "mssql" ->
      forall (A : Type) (fn : handle -> M A) (h : handle),
        wrapTransaction model fn h = fn h).
Proof.
  pose proof (strapiOf_local reg n) as Hq.
  split; [|split].
  - intros Hc. split; [|split].
    + intros values w. unfold create.
      apply wrapTransaction_none; [exact Hc|].
      apply runCreate_local. intros u. apply Hq.
    + intros params values entry w Hfind. unfold update, bind.
      rewrite (whereFetch_found None model params w (committed w) eq_refl), Hfind.
      apply wrapTransaction_none; [exact Hc|].
      apply runUpdate_local. intros u. apply Hq.
    + intros idv entry w Hfind. unfold deleteOne, bind.
      rewrite (whereFetch_found None model _ w (committed w) eq_refl), Hfind.
      unfold updateRelations.
      rewrite (liftS_run None _ w (committed w) eq_refl).
      destruct (updateRelationsS model (r_id entry) (unlinkValues model) (committed w))
        as [r s1] eqn:E.
      unfold updateRelationsS in E. injection E as <- <-. cbv beta iota.
      change (opened w) with (opened (unlinked model entry w)).
      apply (wrapTransaction_none model (runDelete (strapiOf reg n) model entry)
               (unlinked model entry w) Hc).
      apply runDelete_local. intros u. apply Hq.
  - intros t w s Hs. split; [|split].
    + intros values.
      assert (Hl : local t (create (strapiOf reg n) model values (Some t)))
        by (apply create_local; intros u; apply Hq).
      split; [unfold create; now rewrite wrapTransaction_handle|].
      destruct (local_frame t _ w s Hl Hs) as (H1 & H2 & _). now split.
    + intros params values.
      assert (Hl : local t (update (strapiOf reg n) model params values (Some t)))
        by (apply update_local; intros u; apply Hq).
      destruct (local_frame t _ w s Hl Hs) as (H1 & H2 & _). now split.
    + intros id.
      assert (Hl : local t (deleteOne (strapiOf reg n) model id (Some t)))
        by (apply deleteOne_local; intros u; apply Hq).
      destruct (local_frame t _ w s Hl Hs) as (H1 & H2 & _). now split.
  - intros Hc A fn h. unfold wrapTransaction. now rewrite Hc.
Qed.

(** An instance of C1: a create whose dynamic zone is refused after the
    entity row and a section were written leaves the committed store empty;
    and the same create under the handle of an open transaction writes its
    working copy only. *)
Lemma multi_step_writes_transactional_witness :
  create (strapiOf registry 2) articleModel sectionsThenBadZone None emptyWorld
  = (Err (HttpError 400
       "Dynamiczone blocks has invalid items. Expected each items to have a valid __component key"),
     {| committed := emptyStore; pending := []; opened := 1 |})
  /\ committed (snd (create (strapiOf registry 2) articleModel sectionsThenBadZone
                       (Some 0%nat) (worldOf 0 emptyStore))) = emptyStore
  /\ wrapTransaction (articleOn "mssql") (fun h => ret h) None = ret None.
Proof.
  split; [|split].
  - rewrite (proj1 (proj1 (multi_step_writes_transactional registry 2 articleModel)
                      ltac:(simpl; discriminate))).
    vm_compute. reflexivity.
  - apply (proj1 (proj2 (proj1 (proj1 (proj2
             (multi_step_writes_transactional registry 2 articleModel))
             0%nat (worldOf 0 emptyStore) emptyStore eq_refl) sectionsThenBadZone))).
  - apply (proj2 (proj2 (multi_step_writes_transactional registry 2 (articleOn "mssql")))
             eq_refl).
Defined.

(** C1, the claim as stated fails: under [mssql] and without a handle no
    transaction is opened at all, the writes of the create run outside any
    transaction, and the refusal of the dynamic zone leaves the entity row
    and the section written before it in the committed store. *)
Lemma create_mssql_partial_state :
  fst (create (strapiOf (registryOn "mssql") 2) (articleOn "mssql")
         sectionsThenBadZone None emptyWorld)
  = Err (HttpError 400
      "Dynamiczone blocks has invalid items. Expected each items to have a valid __component key")
  /\ opened (snd (create (strapiOf (registryOn "mssql") 2) (articleOn "mssql")
                    sectionsThenBadZone None emptyWorld)) = 0%nat
  /\ t_rows (getTable "articles"
               (committed (snd (create (strapiOf (registryOn "mssql") 2)
                                  (articleOn "mssql") sectionsThenBadZone None
                                  emptyWorld))))
     = [{| r_id := 1; r_data := [("title", VStr "A")] |}]
  /\ t_rows (getTable "components_sections"
               (committed (snd (create (strapiOf (registryOn "mssql") 2)
                                  (articleOn "mssql") sectionsThenBadZone None
                                  emptyWorld))))
     = [{| r_id := 1; r_data := [("text", VStr "x")] |}].
Proof. repeat split; vm_compute; reflexivity. Qed.

(** ** Entities that are not there *)

Lemma find_none_of {A : Type} (p : A -> bool) (l : list A) :
  (forall x, In x l -> p x = false) -> List.find p l = None.
Proof.
  induction l as [|x r IH]; simpl; [reflexivity|]. intros H.
  rewrite (H x (or_introl eq_refl)). apply IH. intros y Hy. apply H. now right.
Qed.

Lemma filter_none_of {A : Type} (p : A -> bool) (l : list A) :
  (forall x, In x l -> p x = false) -> filter p l = [].
Proof.
  induction l as [|x r IH]; simpl; [reflexivity|]. intros H.
  rewrite (H x (or_introl eq_refl)). apply IH. intros y Hy. apply H. now right.
Qed.


Lemma deleteOne_notFound (strapi : Strapi) (model : Model) (idv : value)
    (h : handle) (w : World) (s : Store) :
  view h w = Some s ->
  (forall r, In r (t_rows (getTable (collectionName model) s)) ->
             whereMatch model [(primaryKey model, idv)] r = false) ->
  deleteOne strapi model (Some idv) h w = (Err (HttpError 404 "entry.notFound"), w).
Proof.
  intros Hv Hnone. unfold deleteOne, bind.
  now rewrite (whereFetch_found h model _ w s Hv), (find_none_of _ _ Hnone).
Qed.



Lemma filterMatch_limit (m : Model) (v : value) (params : obj) (r : Row) :
  filterMatch m (aset "_limit" v params) r = filterMatch m params r.
Proof.
  unfold filterMatch. induction params as [|[k x] params IH]; cbn [aset].
  - reflexivity.
  - destruct (String.eqb "_limit" k) eqn:E; cbn [forallb].
    + apply String.eqb_eq in E. subst k. reflexivity.
    + now rewrite IH.
Qed.

Lemma paginate_nil {A : Type} (params : obj) : paginate params (@nil A) = [].
Proof.
  unfold paginate.
  assert (H : match alookup "_start" params with
              | Some (VNum n) => skipn (Z.to_nat n) (@nil A)
              | _ => []
              end = []).
  { destruct (alookup "_start" params) as [[]|]; try reflexivity. apply skipn_nil. }
  rewrite H. destruct (alookup "_limit" params) as [[]|]; try reflexivity.
  apply firstn_nil.
Qed.

Lemma find_nothing (m : Model) (params : obj) (h : handle) (w : World) (s : Store) :
  view h w = Some s ->
  (forall r, In r (t_rows (getTable (collectionName m) s)) ->
             filterMatch m params r = false) ->
  find m params h w = (Ok [], w).
Proof.
  intros Hv Hnone. unfold find. rewrite (liftS_read h _ w s Hv); [|reflexivity].
  unfold fetchAllJSON. simpl. now rewrite (filter_none_of _ _ Hnone), paginate_nil.
Qed.

(** C10, as amended. When no entity matches the filter, the public delete
    raises no error and writes nothing: it answers [null] when the value of
    the primary key in the filter is truthy, and the empty array when the
    primary key is absent from the filter or its value is falsy, the filter
    then taking the multi-delete path; the single-entity delete of a key
    that matches nothing rejects with status 404. *)
Theorem deleteMany_no_match (strapi : Strapi) (model : Model) (params : obj)
    (h : handle) (w : World) (s : Store) :
  view h w = Some s ->
  (forall r, In r (t_rows (getTable (collectionName model) s)) ->
             filterMatch model params r = false) ->
  (truthyOpt (alookup (primaryKey model) params) = true ->
   deleteMany strapi model params h w = (Ok VNull, w))
  /\ (truthyOpt (alookup (primaryKey model) params) = false ->
      deleteMany strapi model params h w = (Ok (VArr []), w))
  /\ (forall idv,
         (forall r, In r (t_rows (getTable (collectionName model) s)) ->
                    whereMatch model [(primaryKey model, idv)] r = false) ->
         deleteOne strapi model (Some idv) h w
         = (Err (HttpError 404 "entry.notFound"), w)).
Proof.
  intros Hv Hnone. split; [|split].
  - intros Ht. unfold deleteMany, bind. rewrite Ht.
    rewrite (find_nothing model _ h w s Hv); [reflexivity|].
    intros r Hr. rewrite filterMatch_limit. now apply Hnone.
  - intros Ht. unfold deleteMany, bind. rewrite Ht.
    now rewrite (find_nothing model _ h w s Hv Hnone).
  - intros idv Hnone'. now apply deleteOne_notFound with (s := s).
Qed.

(** An instance of C10: the delete of article 7 in the empty store. *)
Lemma deleteMany_no_match_witness :
  deleteMany (strapiOf registry 2) articleModel [("id", VNum 7)] None emptyWorld
  = (Ok VNull, emptyWorld).
Proof.
  apply (proj1 (deleteMany_no_match (strapiOf registry 2) articleModel
                  [("id", VNum 7)] None emptyWorld emptyStore eq_refl
                  ltac:(intros r [])) eq_refl).
Defined.

(** C10, the claim as stated fails: the filter [{ id: 0 }] contains the
    primary key and matches no entity, and the delete answers the empty
    array, not [null]. *)
Lemma deleteMany_falsy_key :
  amem (primaryKey articleModel) [("id", VNum 0)] = true
  /\ fst (deleteMany (strapiOf registry 2) articleModel [("id", VNum 0)] None
            emptyWorld) = Ok (VArr [])
  /\ fst (deleteMany (strapiOf registry 2) articleModel [("id", VNum 0)] None
            emptyWorld) <> Ok VNull.
Proof. repeat split. vm_compute. discriminate. Qed.

(** ** Referential integrity of component ids *)













(** ** Running operations on a working copy *)

Lemma runIn_ret {A : Type} (t : nat) (a : A) (s : Store) :
  runIn t (ret a) s = (Ok a, s).
Proof. unfold runIn, ret. simpl. now rewrite Nat.eqb_refl. Qed.

Lemma runIn_fail {A : Type} (t : nat) (e : Error) (s : Store) :
  runIn t (@fail A e) s = (Err e, s).
Proof. unfold runIn, fail. simpl. now rewrite Nat.eqb_refl. Qed.

Lemma runIn_liftS {A : Type} (t : nat) (f : Store -> Result A * Store) (s : Store) :
  runIn t (liftS (Some t) f) s = f s.
Proof.
  apply (local_intro t (liftS (Some t) f) f). intros w s' Hs. now apply liftS_run.
Qed.

Lemma local_run {A : Type} (t : nat) (m : M A) (w : World) (s s' : Store)
    (r : Result A) :
  local t m -> plookup t (pending w) = Some s -> runIn t m s = (r, s') ->
  m w = (r, setView (Some t) s' w).
Proof. intros Hl Hs Hr. rewrite (Hl w s Hs), Hr. reflexivity. Qed.

Lemma find_first {A : Type} (p : A -> bool) (l : list A) (x : A) :
  In x l -> p x = true -> exists y, List.find p l = Some y /\ p y = true.
Proof.
  induction l as [|a r IH]; intros Hin Hp; [destruct Hin|]. simpl.
  destruct (p a) eqn:E; [now exists a|].
  destruct Hin as [->|Hin]; [congruence|]. now apply IH.
Qed.

Lemma alookup_aset {A : Type} (k : string) (v : A) (l : list (string * A)) :
  alookup k (aset k v l) = Some v.
Proof.
  induction l as [|[k' x] l IH]; simpl.
  - now rewrite String.eqb_refl.
  - destruct (String.eqb k k') eqn:E; simpl; rewrite E; [reflexivity|exact IH].
Qed.

Lemma alookup_aset_other {A : Type} (k k' : string) (v : A)
    (l : list (string * A)) :
  k <> k' -> alookup k' (aset k v l) = alookup k' l.
Proof.
  intros Hne. induction l as [|[u x] l IH]; simpl.
  - destruct (String.eqb k' k) eqn:E; [|reflexivity].
    apply String.eqb_eq in E. congruence.
  - destruct (String.eqb k u) eqn:E; simpl.
    + apply String.eqb_eq in E. subst u.
      destruct (String.eqb k' k) eqn:E'; [|reflexivity].
      apply String.eqb_eq in E'. congruence.
    + now rewrite IH.
Qed.

Lemma getTable_setTable (name : string) (t : Table) (s : Store) :
  getTable name (setTable name t s) = t.
Proof. unfold getTable, setTable. simpl. now rewrite alookup_aset. Qed.

Lemma getTable_setTable_other (name name' : string) (t : Table) (s : Store) :
  name <> name' -> getTable name' (setTable name t s) = getTable name' s.
Proof.
  intros Hne. unfold getTable, setTable. simpl. now rewrite alookup_aset_other.
Qed.

Lemma getJoins_setJoins (name : string) (l : list JoinRow) (s : Store) :
  getJoins name (setJoins name l s) = l.
Proof. unfold getJoins, setJoins. simpl. now rewrite alookup_aset. Qed.

Lemma getJoins_setJoins_other (name name' : string) (l : list JoinRow) (s : Store) :
  name <> name' -> getJoins name' (setJoins name l s) = getJoins name' s.
Proof.
  intros Hne. unfold getJoins, setJoins. simpl. now rewrite alookup_aset_other.
Qed.

Lemma createComponents_flat (strapi : Strapi) (cm : Model) (entry : Row)
    (values : value) (h : handle) :
  componentKeys cm = [] -> createComponents strapi cm entry values h = ret tt.
Proof. intros H. unfold createComponents. now rewrite H. Qed.

Lemma updateComponents_flat (strapi : Strapi) (cm : Model) (entry : Row)
    (values : value) (h : handle) :
  componentKeys cm = [] -> updateComponents strapi cm entry values h = ret tt.
Proof. intros H. unfold updateComponents. now rewrite H. Qed.

Lemma deleteComponents_flat (strapi : Strapi) (cm : Model) (entry : Row)
    (h : handle) :
  componentKeys cm = [] -> deleteComponents strapi cm entry h = ret tt.
Proof. intros H. unfold deleteComponents. now rewrite H. Qed.

Lemma query_flat (reg : list (string * Model)) (n : nat) (cm : Model) :
  flatComponent reg cm ->
  query (strapiOf reg (S n)) (uid cm) = createQueryBuilder (strapiOf reg n) cm.
Proof. intros (Hu & _ & _). simpl. now rewrite Hu. Qed.

(** The create of an instance of a flat component, under a handle: the row
    is inserted under the next id of its table, and that id is the [id] of
    what the create answers. *)
Lemma create_flat (reg : list (string * Model)) (n : nat) (cm : Model) (v : value)
    (t : nat) (s : Store) :
  flatComponent reg cm ->
  exists component,
    runIn t (q_create (query (strapiOf reg (S n)) (uid cm)) v (Some t)) s
    = (Ok component, insertComponent cm v s)
    /\ idOf component = Ok (t_next (getTable (collectionName cm) s)).
Proof.
  intros Hflat. rewrite (query_flat reg n cm Hflat).
  destruct Hflat as (_ & Hck & Hpk).
  cbn [q_create createQueryBuilder]. unfold create.
  rewrite wrapTransaction_handle. unfold runCreate.
  rewrite runIn_bind;
    [|apply local_liftS
     |intros a; rewrite createComponents_flat by exact Hck;
      apply local_bind; [apply local_ret|intros; apply local_liftS]].
  unfold bindS. rewrite runIn_liftS. cbn [forgeSave].
  rewrite createComponents_flat by exact Hck.
  rewrite runIn_bind; [|apply local_ret|intros; apply local_liftS].
  unfold bindS. rewrite runIn_ret. unfold updateRelations. rewrite runIn_liftS.
  cbn [r_id]. unfold updateRelationsS.
  set (t0 := getTable (collectionName cm) s).
  set (new := {| r_id := t_next t0; r_data := selectAttributes cm v |}).
  match goal with
  | |- context [List.find ?p (t_rows (getTable ?nm ?st))] =>
      assert (Hrows : t_rows (getTable nm st) = (t_rows t0 ++ [new])%list)
  end.
  { unfold getTable at 1. cbn [tables setTable]. now rewrite alookup_aset. }
  rewrite Hrows.
  destruct (find_first (fun r => r_id r =? t_next t0) (t_rows t0 ++ [new]) new)
    as (y & Hy & Hid).
  { apply in_or_app. right. now left. }
  { apply Z.eqb_refl. }
  rewrite Hy. apply Z.eqb_eq in Hid.
  exists (VObj (rowJSON cm y)). split.
  - reflexivity.
  - unfold idOf, rowJSON. rewrite Hpk. cbn. now rewrite Hid.
Qed.

(** ** Creating components *)


Lemma strapi_local (reg : list (string * Model)) (n : nat) (t : nat) :
  forall u, localQuery t (query (strapiOf reg n) u).
Proof. intros u. apply strapiOf_local. Qed.






Lemma getTable_insertComponent (cm : Model) (v : value) (s : Store) :
  getTable (collectionName cm) (insertComponent cm v s)
  = {| t_next := t_next (getTable (collectionName cm) s) + 1;
       t_rows := t_rows (getTable (collectionName cm) s)
                 ++ [{| r_id := t_next (getTable (collectionName cm) s);
                        r_data := selectAttributes cm v |}] |}.
Proof. unfold getTable at 1, insertComponent. simpl. now rewrite alookup_aset. Qed.

Lemma getJoins_linkNew (model cm : Model) (e : Z) (key : string) (order : Z)
    (v : value) (s : Store) :
  getJoins (collectionName model) (linkNew model cm e key order v s)
  = (getJoins (collectionName model) s
     ++ [{| j_fk := e; j_type := collectionName cm;
            j_cid := t_next (getTable (collectionName cm) s);
            j_field := key; j_order := order |}])%list.
Proof. unfold linkNew. now rewrite getJoins_setJoins. Qed.


Lemma get_none_has (v : value) (k : string) : get v k = None -> has v k = false.
Proof. destruct v; simpl; try reflexivity. unfold amem. now intros ->. Qed.


Lemma sectionModel_flat : flatComponent registry sectionModel.
Proof. repeat split. Qed.

Lemma quoteModel_flat : flatComponent registry quoteModel.
Proof. repeat split. Qed.


(** ** Ids and their strings *)

Lemma Zstr_inj (a b : Z) : Zstr a = Zstr b -> a = b.
Proof.
  unfold Zstr. intros H. apply DecimalZ.to_int_inj.
  assert (E : NilEmpty.int_of_string (NilEmpty.string_of_int (Z.to_int a))
              = NilEmpty.int_of_string (NilEmpty.string_of_int (Z.to_int b)))
    by now rewrite H.
  rewrite !NilEmpty.isi in E. now injection E.
Qed.

Lemma Zstr_eqb (a b : Z) : String.eqb (Zstr a) (Zstr b) = (a =? b).
Proof.
  destruct (Z.eqb_spec a b) as [->|Hne].
  - apply String.eqb_refl.
  - apply String.eqb_neq. intros H. now apply Hne, Zstr_inj.
Qed.


Lemma find_ext_eq {A : Type} (p q : A -> bool) (l : list A) :
  (forall x, p x = q x) -> List.find p l = List.find q l.
Proof.
  intros H. induction l as [|x r IH]; simpl; [reflexivity|].
  now rewrite H, IH.
Qed.

Lemma find_filter {A : Type} (p : A -> bool) (l : list A) :
  List.find p l = hd_error (filter p l).
Proof.
  induction l as [|x r IH]; simpl; [reflexivity|].
  destruct (p x); [reflexivity|exact IH].
Qed.

Lemma filter_map_commute {A : Type} (p : A -> bool) (f : A -> A) (l : list A) :
  (forall x, p (f x) = p x) -> filter p (map f l) = map f (filter p l).
Proof.
  intros H. induction l as [|x r IH]; simpl; [reflexivity|].
  rewrite H. destruct (p x); simpl; now rewrite IH.
Qed.

Lemma whereMatch_id (cm : Model) (idv : value) (str : string) (r : Row) :
  primaryKey cm = "id" -> toString idv = Some str ->
  whereMatch cm [(primaryKey cm, idv)] r = hasId str r.
Proof.
  intros Hpk Hs. unfold whereMatch, rowGet, rowJSON, looseEq, hasId.
  cbn [forallb fst snd alookup]. rewrite String.eqb_refl.
  cbn [toString jsString]. rewrite Hs. apply andb_true_r.
Qed.

Lemma filterMatch_id (cm : Model) (idv : value) (str : string) (r : Row) :
  primaryKey cm = "id" -> toString idv = Some str ->
  filterMatch cm (aset "_limit" (VNum 1) [(primaryKey cm, idv)]) r = hasId str r.
Proof.
  intros Hpk Hs. rewrite filterMatch_limit.
  unfold filterMatch, filterClause, rowGet, rowJSON, looseEq, hasId.
  cbn [forallb fst snd]. rewrite Hpk.
  cbn. rewrite Hs. apply andb_true_r.
Qed.

(** ** Updating and deleting the instances of a flat component *)

Lemma existsb_find {A : Type} (p : A -> bool) (l : list A) (x : A) :
  List.find p l = Some x -> existsb p l = true.
Proof.
  intros H. apply find_some in H. apply existsb_exists. now exists x.
Qed.

Lemma hd_firstn_one {A : Type} (l : list A) (x : A) :
  hd_error l = Some x -> firstn 1 l = [x].
Proof. destruct l; simpl; [discriminate|now intros [= ->]]. Qed.

Lemma getTable_patch (cm : Model) (id : Z) (v : value) (s : Store) :
  t_rows (getTable (collectionName cm) (patchComponent cm id v s))
  = if (len (selectAttributes cm v) >? 0)
    then map (fun r => if r_id r =? id then patchRow (selectAttributes cm v) r else r)
           (t_rows (getTable (collectionName cm) s))
    else t_rows (getTable (collectionName cm) s).
Proof.
  unfold patchComponent.
  destruct (len (selectAttributes cm v) >? 0), (len (pickRelations cm v) >? 0);
    try reflexivity.
  - unfold getTable at 1. cbn [tables setTable]. now rewrite alookup_aset.
  - now rewrite getTable_setTable.
Qed.

(** The update of the instance a payload item names by its id: the row of
    that id is patched in place, no row is added or removed, and the answer
    carries the id of the row. *)
Lemma update_flat (reg : list (string * Model)) (n : nat) (cm : Model)
    (idv v : value) (str : string) (centry : Row) (t : nat) (s : Store) :
  flatComponent reg cm ->
  toString idv = Some str ->
  List.find (hasId str) (t_rows (getTable (collectionName cm) s)) = Some centry ->
  exists component,
    runIn t (q_update (query (strapiOf reg (S n)) (uid cm)) [(primaryKey cm, idv)] v
               (Some t)) s
    = (Ok component, patchComponent cm (r_id centry) v s)
    /\ idOf component = Ok (r_id centry).
Proof.
  intros Hflat Hs Hfind. rewrite (query_flat reg n cm Hflat).
  destruct Hflat as (_ & Hck & Hpk).
  cbn [q_update createQueryBuilder]. unfold update.
  rewrite runIn_bind;
    [|apply local_liftS
     |intros [e|]; [rewrite wrapTransaction_handle; apply runUpdate_local;
                    apply strapi_local|apply local_fail]].
  unfold bindS. rewrite runIn_liftS. cbn [whereFetch].
  rewrite (find_ext_eq _ (hasId str)) by (intros; now apply whereMatch_id).
  rewrite Hfind. rewrite wrapTransaction_handle. unfold runUpdate.
  set (data := selectAttributes cm v). set (rel := pickRelations cm v).
  set (rows := t_rows (getTable (collectionName cm) s)) in *.
  set (patched := map (fun r => if r_id r =? r_id centry then patchRow data r else r)
                    rows).
  assert (Hin : In centry rows /\ hasId str centry = true)
    by now apply find_some in Hfind.
  (* the store after the optional patch of the row *)
  set (s1 := if (len data >? 0)
             then setTable (collectionName cm)
                    {| t_next := t_next (getTable (collectionName cm) s);
                       t_rows := patched |} s
             else s).
  assert (Hfirst : exists u,
             runIn t (if (len data >? 0)
                      then liftS (Some t) (savePatch cm centry data)
                      else ret centry) s = (Ok u, s1)).
  { unfold s1. destruct (len data >? 0).
    - rewrite runIn_liftS. unfold savePatch.
      fold rows.
      assert (Hex : existsb (fun r => r_id r =? r_id centry) rows = true).
      { apply existsb_exists. exists centry. split; [apply Hin|apply Z.eqb_refl]. }
      rewrite Hex. eexists. reflexivity.
    - rewrite runIn_ret. eexists. reflexivity. }
  destruct Hfirst as (u & Hu).
  assert (Hrows1 : exists y, List.find (hasId str)
                               (t_rows (getTable (collectionName cm) s1)) = Some y
                             /\ r_id y = r_id centry).
  { unfold s1. destruct (len data >? 0).
    - rewrite getTable_setTable. cbn [t_rows]. unfold patched.
      rewrite find_filter, filter_map_commute.
      + rewrite find_filter in Hfind.
        destruct (filter (hasId str) rows) as [|z zs]; [discriminate|].
        injection Hfind as ->. cbn [map hd_error].
        eexists. split; [reflexivity|]. now destruct (r_id centry =? r_id centry).
      + intros x. unfold hasId. now destruct (r_id x =? r_id centry).
    - now exists centry. }
  destruct Hrows1 as (y & Hy & Hyid).
  rewrite runIn_bind;
    [|destruct (len data >? 0); [apply local_liftS|apply local_ret]
     |intros; apply local_bind;
      [apply updateComponents_local; apply strapi_local|intros _];
      destruct (len rel >? 0); [apply local_liftS|apply findOne_local]].
  unfold bindS. rewrite Hu. rewrite updateComponents_flat by exact Hck.
  rewrite runIn_bind;
    [|apply local_ret
     |intros _; destruct (len rel >? 0); [apply local_liftS|apply findOne_local]].
  unfold bindS. rewrite runIn_ret.
  assert (Hstore : patchComponent cm (r_id centry) v s
                   = if (len rel >? 0)
                     then {| tables := tables s1; joins := joins s1;
                             links := fold_left (fun ls kv =>
                                        setLink (collectionName cm) (r_id centry)
                                          (fst kv) (snd kv) ls) rel (links s1) |}
                     else s1) by reflexivity.
  rewrite Hstore. destruct (len rel >? 0).
  - unfold updateRelations. rewrite runIn_liftS. unfold updateRelationsS.
    match goal with
    | |- context [List.find ?p (t_rows (getTable ?nm ?st))] =>
        change (t_rows (getTable nm st)) with (t_rows (getTable nm s1));
        destruct (find_first p (t_rows (getTable nm s1)) y) as (z & Hz & Hzid)
    end.
    + now apply find_some in Hy.
    + rewrite Hyid. apply Z.eqb_refl.
    + rewrite Hz. apply Z.eqb_eq in Hzid.
      exists (VObj (rowJSON cm z)). split; [reflexivity|].
      unfold idOf, rowJSON. rewrite Hpk. cbn. now rewrite Hzid.
  - unfold findOne.
    rewrite runIn_bind; [|apply find_local|intros; apply local_ret].
    unfold bindS, find. rewrite runIn_liftS. unfold fetchAllJSON.
    rewrite (filter_ext _ (hasId str)) by (intros; now apply filterMatch_id).
    unfold paginate. rewrite Hpk. cbn [aset alookup String.eqb Ascii.eqb Bool.eqb].
    rewrite find_filter in Hy. change (Z.to_nat 1) with 1%nat.
    rewrite (hd_firstn_one _ y Hy). cbn [map truthy]. rewrite runIn_ret.
    exists (VObj (rowJSON cm y)). split; [reflexivity|].
    unfold idOf, rowJSON. rewrite Hpk. cbn. now rewrite Hyid.
Qed.

Lemma whereMatch_idcol (cm : Model) (id : Z) (r : Row) :
  primaryKey cm = "id" ->
  whereMatch cm [("id", VNum id)] r = hasId (Zstr id) r.
Proof.
  intros Hpk. rewrite <- Hpk. now apply whereMatch_id.
Qed.

Lemma rowJSON_id (cm : Model) (r : Row) :
  primaryKey cm = "id" -> get (VObj (rowJSON cm r)) "id" = Some (VNum (r_id r)).
Proof. intros Hpk. unfold rowJSON. rewrite Hpk. reflexivity. Qed.

(** The single-entity delete of an instance of a flat component that is
    there. *)
Lemma deleteOne_flat (reg : list (string * Model)) (n : nat) (cm : Model) (id : Z)
    (t : nat) (s : Store) :
  componentKeys cm = [] -> primaryKey cm = "id" ->
  existsb (hasId (Zstr id)) (t_rows (getTable (collectionName cm) s)) = true ->
  exists r,
    runIn t (deleteOne (strapiOf reg n) cm (Some (VNum id)) (Some t)) s
    = (Ok r, removeRow cm id s).
Proof.
  intros Hck Hpk Hex. unfold deleteOne.
  rewrite runIn_bind;
    [|apply local_liftS
     |intros [e|]; [|apply local_fail];
      apply local_bind; [apply local_liftS|intros _];
      rewrite wrapTransaction_handle; apply runDelete_local; apply strapi_local].
  unfold bindS. rewrite runIn_liftS. cbn [whereFetch].
  rewrite (find_ext_eq _ (hasId (Zstr id)))
    by (intros; now apply (whereMatch_id cm (VNum id))).
  apply existsb_exists in Hex. destruct Hex as (x & Hx & Hxid).
  destruct (find_first _ _ x Hx Hxid) as (y & Hy & Hyid).
  rewrite Hy.
  assert (Hid : r_id y = id).
  { unfold hasId in Hyid. apply String.eqb_eq in Hyid. now apply Zstr_inj. }
  rewrite runIn_bind;
    [|apply local_liftS
     |intros _; rewrite wrapTransaction_handle; apply runDelete_local;
      apply strapi_local].
  unfold bindS, updateRelations. rewrite runIn_liftS.
  unfold updateRelationsS at 1. cbv beta iota zeta.
  rewrite wrapTransaction_handle. unfold runDelete.
  rewrite deleteComponents_flat by exact Hck.
  rewrite runIn_bind;
    [|apply local_ret
     |intros _; apply local_bind; [apply local_liftS|intros; apply local_ret]].
  unfold bindS. rewrite runIn_ret.
  rewrite runIn_bind; [|apply local_liftS|intros; apply local_ret].
  unfold bindS. rewrite runIn_liftS. unfold whereDestroy. rewrite runIn_ret.
  eexists. f_equal. unfold removeRow. rewrite Hid.
  f_equal. f_equal. apply filter_ext. intros r.
  now rewrite whereMatch_idcol.
Qed.

Lemma rows_removeRow (cm : Model) (id : Z) (s : Store) :
  t_rows (getTable (collectionName cm) (removeRow cm id s))
  = filter (fun r => negb (hasId (Zstr id) r))
      (t_rows (getTable (collectionName cm) s)).
Proof. unfold removeRow. now rewrite getTable_setTable. Qed.

Lemma hasId_Zstr (a : Z) (r : Row) : hasId (Zstr a) r = (r_id r =? a).
Proof. unfold hasId. apply Zstr_eqb. Qed.

Lemma hasRow_removeRow (cm : Model) (id : Z) (str : string) (s : Store) :
  str <> Zstr id ->
  existsb (hasId str) (t_rows (getTable (collectionName cm) (removeRow cm id s)))
  = existsb (hasId str) (t_rows (getTable (collectionName cm) s)).
Proof.
  intros Hne. rewrite rows_removeRow.
  induction (t_rows (getTable (collectionName cm) s)) as [|r rows IH];
    [reflexivity|].
  cbn [filter existsb]. destruct (hasId (Zstr id) r) eqn:E; cbn [negb existsb].
  - rewrite IH. unfold hasId in *. apply String.eqb_eq in E.
    destruct (String.eqb_spec (Zstr (r_id r)) str); [congruence|reflexivity].
  - now rewrite IH.
Qed.

Lemma deleteAll_flat (reg : list (string * Model)) (n : nat) (cm : Model) (t : nat)
    (tg : list Row) (s : Store) :
  componentKeys cm = [] -> primaryKey cm = "id" ->
  NoDup (map r_id tg) ->
  (forall x, In x tg ->
     existsb (hasId (Zstr (r_id x))) (t_rows (getTable (collectionName cm) s)) = true) ->
  exists rs,
    runIn t (mapM (fun entry => deleteOne (strapiOf reg n) cm (get entry "id") (Some t))
               (map (fun r => VObj (rowJSON cm r)) tg)) s
    = (Ok rs, fold_left (fun acc r => removeRow cm (r_id r) acc) tg s).
Proof.
  intros Hck Hpk. revert s. induction tg as [|x tg IH]; intros s Hnd Hall.
  - exists []. apply runIn_ret.
  - cbn [map mapM fold_left]. rewrite (rowJSON_id cm x Hpk).
    destruct (deleteOne_flat reg n cm (r_id x) t s Hck Hpk
                (Hall x (or_introl eq_refl))) as (r & Hr).
    cbn [map] in Hnd. apply NoDup_cons_iff in Hnd. destruct Hnd as [Hnotin Hnd].
    destruct (IH (removeRow cm (r_id x) s) Hnd) as (rs & Hrs).
    { intros y Hy. rewrite hasRow_removeRow.
      - apply Hall. now right.
      - intros E. apply Zstr_inj in E. apply Hnotin. rewrite <- E.
        now apply in_map. }
    exists (r :: rs).
    rewrite runIn_bind;
      [|apply deleteOne_local; apply strapi_local
       |intros; apply local_bind; [|intros; apply local_ret];
        apply local_mapM; intros; apply deleteOne_local; apply strapi_local].
    unfold bindS. rewrite Hr.
    rewrite runIn_bind;
      [|apply local_mapM; intros; apply deleteOne_local; apply strapi_local
       |intros; apply local_ret].
    unfold bindS. rewrite Hrs. apply runIn_ret.
Qed.

Lemma existsb_looseEq (z : Z) (ids : list string) :
  existsb (looseEq (VNum z)) (map VStr ids) = strIn (Zstr z) ids.
Proof.
  unfold strIn. induction ids as [|i ids IH]; [reflexivity|].
  cbn [map existsb]. now rewrite IH.
Qed.

Lemma filterMatch_in (cm : Model) (ids : list string) (r : Row) :
  primaryKey cm = "id" ->
  filterMatch cm [(primaryKey cm ++ "_in", VArr (map VStr ids))] r
  = strIn (Zstr (r_id r)) ids.
Proof.
  intros Hpk. unfold filterMatch, filterClause, rowGet, rowJSON.
  rewrite Hpk. cbn [forallb fst snd]. cbn -[existsb looseEq strIn Zstr map].
  rewrite existsb_looseEq. apply andb_true_r.
Qed.

(** Rows chosen from a table with distinct ids have distinct ids. *)
Lemma distinct_ids_filter (p : Row -> bool) (rows : list Row) :
  NoDup (map r_id rows) -> NoDup (map r_id (filter p rows)).
Proof.
  intros Hnd. induction rows as [|row rows IH]; [constructor|].
  cbn [map] in Hnd. apply NoDup_cons_iff in Hnd. destruct Hnd as [Hrow Hrows].
  cbn [filter]. destruct (p row); [|now apply IH].
  cbn [map]. constructor; [|now apply IH].
  intros Hin. apply Hrow. apply in_map_iff in Hin. destruct Hin as (y & Ey & Hy).
  apply filter_In in Hy. apply in_map_iff. exists y. now split; [|apply Hy].
Qed.

(** The delete of the instances of a flat component by a list of ids, the
    call [delete({ id_in: ids })] of [deleteOldComponents]. *)
Lemma delete_in_flat (reg : list (string * Model)) (n : nat) (cm : Model)
    (ids : list string) (t : nat) (s : Store) :
  flatComponent reg cm ->
  NoDup (map r_id (t_rows (getTable (collectionName cm) s))) ->
  exists r,
    runIn t (q_delete (query (strapiOf reg (S n)) (uid cm))
               [(primaryKey cm ++ "_in", VArr (map VStr ids))] (Some t)) s
    = (Ok r, removeComponents cm ids s).
Proof.
  intros Hflat Hnd. rewrite (query_flat reg n cm Hflat).
  destruct Hflat as (_ & Hck & Hpk).
  cbn [q_delete createQueryBuilder]. unfold deleteMany.
  assert (Hfalsy : truthyOpt (alookup (primaryKey cm)
                                [(primaryKey cm ++ "_in", VArr (map VStr ids))]) = false).
  { rewrite Hpk. reflexivity. }
  rewrite Hfalsy.
  rewrite runIn_bind;
    [|apply find_local
     |intros; apply local_bind; [|intros; apply local_ret];
      apply local_mapM; intros; apply deleteOne_local; apply strapi_local].
  unfold bindS, find. rewrite runIn_liftS. unfold fetchAllJSON.
  rewrite (filter_ext _ (fun r => strIn (Zstr (r_id r)) ids))
    by (intros; now apply filterMatch_in).
  assert (Hpag : forall (l : list Row),
             paginate [(primaryKey cm ++ "_in", VArr (map VStr ids))] l = l).
  { intros l. unfold paginate. rewrite Hpk. reflexivity. }
  rewrite Hpag.
  set (tg := filter (fun r => strIn (Zstr (r_id r)) ids)
               (t_rows (getTable (collectionName cm) s))).
  destruct (deleteAll_flat reg n cm t tg s Hck Hpk) as (rs & Hrs).
  - now apply distinct_ids_filter.
  - intros x Hx. apply filter_In in Hx. apply existsb_exists. exists x.
    split; [apply Hx|]. rewrite hasId_Zstr. apply Z.eqb_refl.
  - rewrite runIn_bind;
      [|apply local_mapM; intros; apply deleteOne_local; apply strapi_local
       |intros; apply local_ret].
    unfold bindS. rewrite Hrs. rewrite runIn_ret. eexists. reflexivity.
Qed.

(** ** Reconciling a component field *)

Ltac local_all :=
  repeat first [ apply q_create_local; apply strapi_local
               | apply q_update_local; apply strapi_local
               | apply q_delete_local; apply strapi_local
               | local_step ].

Lemma idStrings_supplied (cm : Model) (items : list value) (keep : list string) :
  idStrings (primaryKey cm) (filter (fun el => has el (primaryKey cm)) items) = Ok keep ->
  suppliedIds cm items = keep.
Proof.
  revert keep. induction items as [|item items IH]; intros keep H.
  - simpl in H. now injection H as <-.
  - cbn [filter] in H. cbn [suppliedIds flat_map].
    destruct (has item (primaryKey cm)) eqn:Hh.
    + cbn [idStrings] in H.
      destruct (get item (primaryKey cm)) as [idv|]; [|discriminate].
      destruct (toString idv) as [str|]; [|discriminate].
      destruct (idStrings _ _) as [strs|] eqn:E; [|discriminate].
      injection H as <-. cbn [app]. f_equal. now apply IH.
    + destruct (get item (primaryKey cm)) as [idv|] eqn:Hg.
      * apply has_get in Hg. congruence.
      * cbn [app]. now apply IH.
Qed.

Lemma deleteOldComponents_run (reg : list (string * Model)) (n : nat)
    (model cm : Model) (entry : Row) (v : value) (key : string)
    (keep : list string) (t : nat) (s : Store) :
  flatComponent reg cm ->
  idStrings (primaryKey cm) (filter (fun el => has el (primaryKey cm)) (asList v))
  = Ok keep ->
  (forall id, In id keep -> In id (existingIds model (r_id entry) key s)) ->
  NoDup (map r_id (t_rows (getTable (collectionName cm) s))) ->
  runIn t (deleteOldComponents (strapiOf reg (S n)) model entry v key (Some cm)
             (Some t)) s
  = (Ok tt, prune model cm (r_id entry) key keep s).
Proof.
  intros Hflat Hk Hsub Hnd. unfold deleteOldComponents.
  assert (Hkeep : match asList v with
                  | [] => Ok []
                  | _ :: _ => idStrings (primaryKey cm)
                                (filter (fun el => has el (primaryKey cm)) (asList v))
                  end = Ok keep).
  { destruct (asList v); [exact Hk|exact Hk]. }
  rewrite Hkeep. cbn [liftR].
  rewrite runIn_bind; [|apply local_ret|intros; local_all].
  unfold bindS. rewrite runIn_ret.
  rewrite runIn_bind;
    [|apply local_liftS
     |intros; local_all].
  unfold bindS. rewrite runIn_liftS. cbn [joinFetchAll].
  fold (existingIds model (r_id entry) key s).
  change (map (fun el => Zstr (j_cid el))
            (filter (joinOf entry key) (getJoins (collectionName model) s)))
    with (existingIds model (r_id entry) key s).
  assert (Hcheck : forEachCheck
                     (fun id => if negb (strIn id (existingIds model (r_id entry) key s))
                                then notRelated key else Ok tt) keep = Ok tt).
  { apply forEachCheck_ok. intros id Hid.
    rewrite (proj2 (strIn_In id _) (Hsub id Hid)). reflexivity. }
  rewrite runIn_bind;
    [|apply local_liftR
     |intros; local_all].
  unfold bindS. rewrite Hcheck. cbn [liftR]. rewrite runIn_ret.
  unfold prune.
  set (idsToDelete := filter (fun id => negb (strIn id keep))
                        (existingIds model (r_id entry) key s)).
  destruct (len idsToDelete >? 0); [|apply runIn_ret].
  rewrite runIn_bind;
    [|apply local_liftS
     |intros; local_all].
  unfold bindS. rewrite runIn_liftS. cbn [joinDestroy].
  rewrite runIn_bind;
    [|apply q_delete_local; apply strapi_local|intros; apply local_ret].
  unfold bindS.
  match goal with
  | |- context [runIn t (q_delete _ _ _) ?st] =>
      destruct (delete_in_flat reg n cm idsToDelete t st Hflat Hnd) as (r & Hr)
  end.
  rewrite Hr. apply runIn_ret.
Qed.

Lemma relink_run (reg : list (string * Model)) (n : nat) (model cm : Model)
    (entry : Row) (key : string) (order : Z) (item : value) (t : nat) (s : Store) :
  flatComponent reg cm ->
  itemReady cm item s ->
  runIn t (updateOrCreateComponentAndLink (strapiOf reg (S n)) model entry (Some t)
             (Some cm) key item order) s
  = (Ok tt, relink model cm (r_id entry) key order item s).
Proof.
  intros Hflat Hready. unfold updateOrCreateComponentAndLink, relink.
  destruct (has item (primaryKey cm)) eqn:Hhas.
  - destruct (get item (primaryKey cm)) as [idv|] eqn:Hget.
    + destruct (Hready idv Hget) as (str & Hstr & Hex).
      rewrite Hstr.
      apply existsb_exists in Hex. destruct Hex as (x & Hx & Hxid).
      destruct (find_first _ _ x Hx Hxid) as (centry & Hc & _).
      rewrite Hc.
      destruct (update_flat reg n cm idv item str centry t s Hflat Hstr Hc)
        as (component & Hrun & Hid).
      rewrite runIn_bind; [|apply q_update_local; apply strapi_local|intros; local_all].
      unfold bindS. rewrite Hrun.
      rewrite runIn_bind; [|apply local_liftR|intros; apply local_liftS].
      unfold bindS. rewrite Hid. cbn [liftR]. rewrite runIn_ret, runIn_liftS.
      reflexivity.
    + destruct item; simpl in *; try discriminate.
      unfold amem in Hhas. rewrite Hget in Hhas. discriminate.
  - rewrite runIn_bind; [|apply q_create_local; apply strapi_local|intros; local_all].
    destruct (create_flat reg n cm item t s Hflat) as (component & Hrun & Hid).
    unfold bindS. rewrite Hrun.
    rewrite runIn_bind; [|apply local_liftR|intros; apply local_liftS].
    unfold bindS. rewrite Hid. cbn [liftR]. rewrite runIn_ret, runIn_liftS.
    reflexivity.
Qed.

Lemma existsb_map_same {A : Type} (p : A -> bool) (f : A -> A) (l : list A) :
  (forall x, p (f x) = p x) -> existsb p (map f l) = existsb p l.
Proof.
  intros H. induction l as [|x r IH]; simpl; [reflexivity|]. now rewrite H, IH.
Qed.

Lemma rows_reorder (model cm cm' : Model) (e : Z) (key : string) (cid order : Z)
    (s : Store) :
  getTable (collectionName cm') (reorder model cm e key cid order s)
  = getTable (collectionName cm') s.
Proof. reflexivity. Qed.

Lemma rows_linkNew (model cm : Model) (e : Z) (key : string) (order : Z)
    (v : value) (s : Store) :
  t_rows (getTable (collectionName cm) (linkNew model cm e key order v s))
  = (t_rows (getTable (collectionName cm) s)
     ++ [{| r_id := t_next (getTable (collectionName cm) s);
            r_data := selectAttributes cm v |}])%list.
Proof.
  change (getTable (collectionName cm) (linkNew model cm e key order v s))
    with (getTable (collectionName cm) (insertComponent cm v s)).
  now rewrite getTable_insertComponent.
Qed.

(** The turn of an item removes no row of the component table. *)
Lemma hasRow_relink (model cm : Model) (e : Z) (key : string) (order : Z)
    (item : value) (str : string) (s : Store) :
  existsb (hasId str) (t_rows (getTable (collectionName cm) s)) = true ->
  existsb (hasId str)
    (t_rows (getTable (collectionName cm) (relink model cm e key order item s))) = true.
Proof.
  intros H. unfold relink.
  destruct (if has item (primaryKey cm) then get item (primaryKey cm) else None)
    as [idv|].
  - destruct (toString idv) as [st|]; [|exact H].
    destruct (List.find _ _) as [centry|]; [|exact H].
    rewrite rows_reorder, getTable_patch.
    destruct (len (selectAttributes cm item) >? 0); [|exact H].
    rewrite existsb_map_same; [exact H|].
    intros x. unfold hasId. now destruct (r_id x =? r_id centry).
  - rewrite rows_linkNew, existsb_app, H. reflexivity.
Qed.

Lemma relinkAll_run (reg : list (string * Model)) (n : nat) (model cm : Model)
    (entry : Row) (key : string) (items : list value) (t : nat) :
  flatComponent reg cm ->
  forall k s,
    (forall item, In item items -> itemReady cm item s) ->
    exists bs,
      runIn t (mapM (fun iv =>
                       updateOrCreateComponentAndLink (strapiOf reg (S n)) model entry
                         (Some t) (Some cm) key (snd iv) (fst iv))
                 (indexed k items)) s
      = (Ok bs,
         fold_left (fun acc iv => relink model cm (r_id entry) key (fst iv) (snd iv) acc)
           (indexed k items) s).
Proof.
  intros Hflat. induction items as [|item items IH]; intros k s Hready.
  - exists []. apply runIn_ret.
  - cbn [indexed mapM fold_left fst snd].
    pose proof (relink_run reg n model cm entry key k item t s Hflat
                  (Hready item (or_introl eq_refl))) as Hrun.
    destruct (IH (k + 1) (relink model cm (r_id entry) key k item s)) as (bs & Hbs).
    { intros it Hit idv Hidv.
      destruct (Hready it (or_intror Hit) idv Hidv) as (str & Hstr & Hex).
      exists str. split; [exact Hstr|]. now apply hasRow_relink. }
    exists (tt :: bs).
    rewrite runIn_bind;
      [|apply updateOrCreateComponentAndLink_local; apply strapi_local
       |intros; apply local_bind; [|intros; apply local_ret];
        apply local_mapM; intros; apply updateOrCreateComponentAndLink_local;
        apply strapi_local].
    unfold bindS. rewrite Hrun.
    rewrite runIn_bind;
      [|apply local_mapM; intros; apply updateOrCreateComponentAndLink_local;
        apply strapi_local
       |intros; apply local_ret].
    unfold bindS. rewrite Hbs. apply runIn_ret.
Qed.

Lemma idStrings_ready (pk : string) (l : list value) (keep : list string)
    (item idv : value) :
  idStrings pk (filter (fun el => has el pk) l) = Ok keep -> In item l ->
  get item pk = Some idv ->
  exists str, toString idv = Some str /\ In str keep.
Proof.
  revert keep. induction l as [|el r IH]; intros keep Hk Hin Hg; [destruct Hin|].
  cbn [filter] in Hk. destruct (has el pk) eqn:Hh.
  - cbn [idStrings] in Hk.
    destruct (get el pk) as [v|] eqn:Eg; [|discriminate].
    destruct (toString v) as [sv|] eqn:Es; [|discriminate].
    destruct (idStrings pk _) as [strs|] eqn:Er; [|discriminate].
    injection Hk as <-. destruct Hin as [->|Hin].
    + exists sv. split; [congruence|now left].
    + destruct (IH strs eq_refl Hin Hg) as (str & H1 & H2).
      exists str. split; [exact H1|now right].
  - destruct Hin as [->|Hin].
    + apply has_get in Hg. congruence.
    + now apply IH.
Qed.

Lemma hasRow_removeAll (cm : Model) (str : string) (tg : list Row) (s : Store) :
  (forall r, In r tg -> Zstr (r_id r) <> str) ->
  existsb (hasId str)
    (t_rows (getTable (collectionName cm)
               (fold_left (fun acc r => removeRow cm (r_id r) acc) tg s)))
  = existsb (hasId str) (t_rows (getTable (collectionName cm) s)).
Proof.
  revert s. induction tg as [|x tg IH]; intros s H; [reflexivity|].
  cbn [fold_left]. rewrite IH by (intros r Hr; apply H; now right).
  apply hasRow_removeRow. intros E. now apply (H x (or_introl eq_refl)).
Qed.

Lemma hasRow_prune (model cm : Model) (e : Z) (key : string) (keep : list string)
    (str : string) (s : Store) :
  In str keep ->
  existsb (hasId str) (t_rows (getTable (collectionName cm) s)) = true ->
  existsb (hasId str)
    (t_rows (getTable (collectionName cm) (prune model cm e key keep s))) = true.
Proof.
  intros Hin H. unfold prune.
  destruct (len _ >? 0); [|exact H].
  unfold removeComponents. rewrite hasRow_removeAll; [exact H|].
  intros r Hr E. apply filter_In in Hr. destruct Hr as [_ Hr].
  rewrite E in Hr. apply strIn_In, filter_In in Hr. destruct Hr as [_ Hr].
  apply (proj2 (strIn_In str keep)) in Hin. rewrite Hin in Hr. discriminate.
Qed.

Lemma updateComponentsField_repeatable (reg : list (string * Model)) (n : nat)
    (model cm : Model) (entry : Row) (values : value) (key : string)
    (attr : Attribute) (items : list value) (keep : list string) (t : nat)
    (w : World) (s : Store) :
  alookup key (attributes model) = Some attr ->
  a_type attr = "component" -> a_repeatable attr = true ->
  get values key = Some (VArr items) ->
  validateRepeatableInput (VArr items) key attr = Ok tt ->
  alookup (a_component attr) reg = Some cm ->
  flatComponent reg cm ->
  plookup t (pending w) = Some s ->
  idStrings (primaryKey cm) (filter (fun el => has el (primaryKey cm)) items) = Ok keep ->
  (forall id, In id keep -> In id (existingIds model (r_id entry) key s)) ->
  (forall id, In id keep ->
     existsb (hasId id) (t_rows (getTable (collectionName cm) s)) = true) ->
  NoDup (map r_id (t_rows (getTable (collectionName cm) s))) ->
  updateComponentsField (strapiOf reg (S n)) model entry values (Some t) key w
  = (Ok tt, setView (Some t) (reconcile model cm (r_id entry) key items s) w).
Proof.
  intros Hattr Hty Hrep Hget Hval Hcm Hflat Hs Hk Hsub Hrows Hnd.
  apply (local_run t _ w s).
  - apply updateComponentsField_local. apply strapi_local.
  - exact Hs.
  - unfold updateComponentsField. rewrite Hget, Hattr, Hty, Hrep, Hval.
    change (String.eqb "component" "component") with true. cbv iota.
    unfold componentModelOf. cbn [components strapiOf]. rewrite Hcm.
    cbn [liftR].
    rewrite runIn_bind;
      [|apply local_ret
       |intros; apply local_bind;
        [apply deleteOldComponents_local; apply strapi_local|intros];
        apply local_bind; [|intros; apply local_ret];
        apply local_mapM; intros; apply updateOrCreateComponentAndLink_local;
        apply strapi_local].
    unfold bindS. rewrite runIn_ret.
    rewrite runIn_bind;
      [|apply deleteOldComponents_local; apply strapi_local
       |intros; apply local_bind; [|intros; apply local_ret];
        apply local_mapM; intros; apply updateOrCreateComponentAndLink_local;
        apply strapi_local].
    unfold bindS.
    rewrite (deleteOldComponents_run reg n model cm entry (VArr items) key keep t s
               Hflat Hk Hsub Hnd).
    rewrite runIn_bind;
      [|apply local_mapM; intros; apply updateOrCreateComponentAndLink_local;
        apply strapi_local
       |intros; apply local_ret].
    unfold bindS. cbn [asList].
    destruct (relinkAll_run reg n model cm entry key items t Hflat 1
                (prune model cm (r_id entry) key keep s)) as (bs & Hbs).
    { intros item Hin idv Hidv.
      destruct (idStrings_ready _ _ _ item idv Hk Hin Hidv) as (str & Hstr & Hin').
      exists str. split; [exact Hstr|].
      apply hasRow_prune; [exact Hin'|now apply Hrows]. }
    rewrite Hbs, runIn_ret. unfold reconcile.
    now rewrite (idStrings_supplied cm items keep Hk).
Qed.

Lemma updateComponentsField_single (reg : list (string * Model)) (n : nat)
    (model cm : Model) (entry : Row) (values : value) (key : string)
    (attr : Attribute) (v : value) (keep : list string) (t : nat)
    (w : World) (s : Store) :
  alookup key (attributes model) = Some attr ->
  a_type attr = "component" -> a_repeatable attr = false ->
  get values key = Some v ->
  validateNonRepeatableInput v key attr = Ok tt ->
  alookup (a_component attr) reg = Some cm ->
  flatComponent reg cm ->
  plookup t (pending w) = Some s ->
  idStrings (primaryKey cm) (filter (fun el => has el (primaryKey cm)) [v]) = Ok keep ->
  (forall id, In id keep -> In id (existingIds model (r_id entry) key s)) ->
  (forall id, In id keep ->
     existsb (hasId id) (t_rows (getTable (collectionName cm) s)) = true) ->
  NoDup (map r_id (t_rows (getTable (collectionName cm) s))) ->
  updateComponentsField (strapiOf reg (S n)) model entry values (Some t) key w
  = (Ok tt,
     setView (Some t)
       (reconcile model cm (r_id entry) key (if isNull v then [] else [v]) s) w).
Proof.
  intros Hattr Hty Hrep Hget Hval Hcm Hflat Hs Hk Hsub Hrows Hnd.
  assert (Hlist : asList v = [v]).
  { unfold validateNonRepeatableInput in Hval.
    destruct v; try reflexivity. discriminate. }
  apply (local_run t _ w s).
  - apply updateComponentsField_local. apply strapi_local.
  - exact Hs.
  - unfold updateComponentsField. rewrite Hget, Hattr, Hty, Hrep, Hval.
    change (String.eqb "component" "component") with true. cbv iota.
    unfold componentModelOf. cbn [components strapiOf]. rewrite Hcm.
    cbn [liftR].
    rewrite runIn_bind;
      [|apply local_ret
       |intros; apply local_bind;
        [apply deleteOldComponents_local; apply strapi_local|intros];
        destruct (isNull v);
        [apply local_ret
        |apply updateOrCreateComponentAndLink_local; apply strapi_local]].
    unfold bindS. rewrite runIn_ret.
    rewrite runIn_bind;
      [|apply deleteOldComponents_local; apply strapi_local
       |intros; destruct (isNull v);
        [apply local_ret
        |apply updateOrCreateComponentAndLink_local; apply strapi_local]].
    unfold bindS.
    rewrite (deleteOldComponents_run reg n model cm entry v key keep t s Hflat)
      by (try rewrite Hlist; assumption).
    unfold reconcile. destruct (isNull v) eqn:Hnull.
    + rewrite runIn_ret. destruct v; try discriminate.
      cbn in Hk. injection Hk as <-. reflexivity.
    + cbn [indexed fold_left fst snd].
      rewrite (idStrings_supplied cm [v] keep Hk).
      apply relink_run; [exact Hflat|].
      intros idv Hidv.
      destruct (idStrings_ready _ _ _ v idv Hk (or_introl eq_refl) Hidv)
        as (str & Hstr & Hin).
      exists str. split; [exact Hstr|].
      apply hasRow_prune; [exact Hin|now apply Hrows].
Qed.

Lemma filter_all {A : Type} (p : A -> bool) (l : list A) :
  (forall x, p x = true) -> filter p l = l.
Proof.
  intros H. induction l as [|x r IH]; simpl; [reflexivity|]. now rewrite H, IH.
Qed.

(** What the pruning leaves: the join rows of the field whose id is to be
    deleted are gone and the others stay, and so for the rows of the
    component table. *)
Lemma joins_removeAll (cm : Model) (name : string) (tg : list Row) (s : Store) :
  getJoins name (fold_left (fun acc r => removeRow cm (r_id r) acc) tg s)
  = getJoins name s.
Proof.
  revert s. induction tg as [|x tg IH]; intros s; [reflexivity|].
  cbn [fold_left]. now rewrite IH.
Qed.

Lemma rows_removeAll (cm : Model) (tg : list Row) (s : Store) :
  t_rows (getTable (collectionName cm)
            (fold_left (fun acc r => removeRow cm (r_id r) acc) tg s))
  = filter (fun r => negb (existsb (fun x => r_id r =? r_id x) tg))
      (t_rows (getTable (collectionName cm) s)).
Proof.
  revert s. induction tg as [|x tg IH]; intros s.
  - cbn [fold_left]. symmetry. apply filter_all. intros r. reflexivity.
  - cbn [fold_left]. rewrite IH, rows_removeRow.
    induction (t_rows (getTable (collectionName cm) s)) as [|r rows IHr];
      [reflexivity|].
    cbn [filter existsb]. rewrite hasId_Zstr.
    destruct (r_id r =? r_id x); cbn [negb orb filter]; [exact IHr|].
    destruct (existsb _ tg); cbn [negb]; [exact IHr|now rewrite IHr].
Qed.

Lemma prune_effect (model cm : Model) (e : Z) (key : string) (items : list value)
    (s : Store) :
  getJoins (collectionName model) (prune model cm e key (suppliedIds cm items) s)
  = filter (fun j => negb (strIn (Zstr (j_cid j)) (idsToDelete model cm e key items s)
                           && String.eqb (j_field j) key))
      (getJoins (collectionName model) s)
  /\ t_rows (getTable (collectionName cm)
               (prune model cm e key (suppliedIds cm items) s))
     = filter (fun r => negb (strIn (Zstr (r_id r)) (idsToDelete model cm e key items s)))
         (t_rows (getTable (collectionName cm) s)).
Proof.
  unfold prune. fold (idsToDelete model cm e key items s).
  destruct (idsToDelete model cm e key items s) as [|d ds] eqn:E.
  - cbn [len List.length Z.of_nat Z.gtb Z.compare]. split.
    + symmetry. apply filter_all. intros j. reflexivity.
    + symmetry. apply filter_all. intros r. reflexivity.
  - assert (Hpos : (len (d :: ds) >? 0) = true).
    { unfold len. apply Z.gtb_lt. simpl. lia. }
    rewrite Hpos. unfold removeComponents. split.
    + rewrite joins_removeAll. now rewrite getJoins_setJoins.
    + rewrite rows_removeAll.
      change (getTable (collectionName cm)
                (setJoins (collectionName model)
                   (filter (fun j => negb (strIn (Zstr (j_cid j)) (d :: ds)
                                           && String.eqb (j_field j) key))
                      (getJoins (collectionName model) s)) s))
        with (getTable (collectionName cm) s).
      apply filter_ext_in. intros r Hr. f_equal.
      destruct (strIn (Zstr (r_id r)) (d :: ds)) eqn:Hin.
      * apply existsb_exists. exists r. split; [|apply Z.eqb_refl].
        apply filter_In. now split.
      * destruct (existsb _ _) eqn:Hex; [|reflexivity].
        apply existsb_exists in Hex. destruct Hex as (x & Hx & Hid).
        apply filter_In in Hx. destruct Hx as [_ Hx].
        apply Z.eqb_eq in Hid. rewrite Hid in Hin. congruence.
Qed.

Lemma next_patch (cm : Model) (id : Z) (v : value) (s : Store) :
  t_next (getTable (collectionName cm) (patchComponent cm id v s))
  = t_next (getTable (collectionName cm) s).
Proof.
  unfold patchComponent.
  destruct (len (selectAttributes cm v) >? 0), (len (pickRelations cm v) >? 0);
    try reflexivity.
  - unfold getTable at 1. cbn [tables setTable]. now rewrite alookup_aset.
  - now rewrite getTable_setTable.
Qed.

Lemma getJoins_reorder (model cm : Model) (e : Z) (key : string) (cid order : Z)
    (s : Store) :
  getJoins (collectionName model) (reorder model cm e key cid order s)
  = map (fun j => if (j_fk j =? e) && String.eqb (j_type j) (collectionName cm)
                     && (j_cid j =? cid) && String.eqb (j_field j) key
                  then {| j_fk := j_fk j; j_type := j_type j; j_cid := j_cid j;
                          j_field := j_field j; j_order := order |}
                  else j)
      (getJoins (collectionName model) s).
Proof. unfold reorder. now rewrite getJoins_setJoins. Qed.

Lemma getJoins_patch (name : string) (cm : Model) (id : Z) (v : value) (s : Store) :
  getJoins name (patchComponent cm id v s) = getJoins name s.
Proof.
  unfold patchComponent.
  now destruct (len (selectAttributes cm v) >? 0), (len (pickRelations cm v) >? 0).
Qed.

(** The turn of an item that carries an id adds and removes no row: the ids
    of the component table and the join rows, up to their order, are as
    before. *)
Lemma relink_with_id (model cm : Model) (e : Z) (key : string) (order : Z)
    (item : value) (s : Store) :
  has item (primaryKey cm) = true ->
  map r_id (t_rows (getTable (collectionName cm) (relink model cm e key order item s)))
  = map r_id (t_rows (getTable (collectionName cm) s))
  /\ map joinKey (getJoins (collectionName model) (relink model cm e key order item s))
     = map joinKey (getJoins (collectionName model) s).
Proof.
  intros Hhas. unfold relink. rewrite Hhas.
  destruct (get item (primaryKey cm)) as [idv|] eqn:Hget.
  - destruct (toString idv) as [str|]; [|now split].
    destruct (List.find _ _) as [centry|]; [|now split].
    split.
    + rewrite rows_reorder, getTable_patch.
      destruct (len (selectAttributes cm item) >? 0); [|reflexivity].
      rewrite map_map. apply map_ext. intros r.
      now destruct (r_id r =? r_id centry).
    + rewrite getJoins_reorder, getJoins_patch, map_map. apply map_ext. intros j.
      now destruct ((j_fk j =? e) && String.eqb (j_type j) (collectionName cm)
                    && (j_cid j =? r_id centry) && String.eqb (j_field j) key).
  - destruct item; simpl in *; try discriminate.
    unfold amem in Hhas. rewrite Hget in Hhas. discriminate.
Qed.



(** ** Reconciling a dynamic zone *)

Lemma alookup_In {A : Type} (k : string) (l : list (string * A)) (v : A) :
  alookup k l = Some v -> In (k, v) l.
Proof.
  induction l as [|[k' x] l IH]; simpl; [discriminate|].
  destruct (String.eqb_spec k k') as [->|Hne].
  - intros [= ->]. now left.
  - intros H. right. now apply IH.
Qed.




























Lemma flatRegistry_component (reg : list (string * Model)) (c : string) (cm : Model) :
  flatRegistry reg -> alookup c reg = Some cm -> flatComponent reg cm.
Proof.
  intros [Hflat _] H. apply alookup_In in H. apply (Hflat (c, cm) H).
Qed.


Lemma registry_flat : flatRegistry registry.
Proof.
  split.
  - intros km [<-|[<-|[]]]; repeat split.
  - intros a b [<-|[<-|[]]] [<-|[<-|[]]]; simpl; intros H;
      try reflexivity; discriminate.
Qed.



(** ** What an update leaves alone *)

Section Preservation.
Variable t : nat.
Variable R : Store -> Store -> Prop.
Hypothesis R_refl : forall s, R s s.
Hypothesis R_trans : forall a b c, R a b -> R b c -> R a c.

Lemma pres_ret {A : Type} (a : A) : pres t R (ret a).
Proof. split; [apply local_ret|]. intros s. rewrite runIn_ret. apply R_refl. Qed.

Lemma pres_fail {A : Type} (e : Error) : pres t R (@fail A e).
Proof. split; [apply local_fail|]. intros s. rewrite runIn_fail. apply R_refl. Qed.

Lemma pres_liftR {A : Type} (r : Result A) : pres t R (liftR r).
Proof. destruct r; [apply pres_ret|apply pres_fail]. Qed.

Lemma pres_liftS {A : Type} (f : Store -> Result A * Store) :
  (forall s, R s (snd (f s))) -> pres t R (liftS (Some t) f).
Proof.
  intros H. split; [apply local_liftS|]. intros s. rewrite runIn_liftS. apply H.
Qed.

Lemma pres_bind {A B : Type} (m : M A) (k : A -> M B) :
  pres t R m -> (forall a, pres t R (k a)) -> pres t R (bind m k).
Proof.
  intros [Hl Hm] Hk. split.
  - apply local_bind; [exact Hl|]. intros a. apply Hk.
  - intros s. rewrite runIn_bind; [|exact Hl|intros a; apply Hk].
    unfold bindS. pose proof (Hm s) as H1.
    destruct (runIn t m s) as [[a|e] s1]; simpl in *; [|exact H1].
    apply R_trans with s1; [exact H1|]. apply Hk.
Qed.

Lemma pres_mapM {A B : Type} (f : A -> M B) (l : list A) :
  (forall x, pres t R (f x)) -> pres t R (mapM f l).
Proof.
  intros Hf. induction l as [|x r IH]; simpl.
  - apply pres_ret.
  - apply pres_bind; [apply Hf|]. intros y.
    apply pres_bind; [exact IH|]. intros ys. apply pres_ret.
Qed.

Lemma pres_forM {A : Type} (f : A -> M unit) (l : list A) :
  (forall x, pres t R (f x)) -> pres t R (forM_ f l).
Proof.
  intros Hf. induction l as [|x r IH]; simpl.
  - apply pres_ret.
  - apply pres_bind; [apply Hf|]. intros _. exact IH.
Qed.
End Preservation.

Lemma keepsJoins_refl (name : string) (s : Store) : keepsJoins name s s.
Proof. reflexivity. Qed.

Lemma keepsJoins_trans (name : string) (a b c : Store) :
  keepsJoins name a b -> keepsJoins name b c -> keepsJoins name a c.
Proof. unfold keepsJoins. congruence. Qed.





(** A write to the join table of a model leaves the other join tables
    alone. *)
Lemma keepsJoins_setJoins (name other : string) (l : list JoinRow) (s : Store) :
  other <> name -> keepsJoins name s (setJoins other l s).
Proof. intros H. unfold keepsJoins. now apply getJoins_setJoins_other. Qed.

Lemma savePatch_joins (name : string) (m : Model) (entry : Row) (data : obj)
    (s : Store) :
  keepsJoins name s (snd (savePatch m entry data s)).
Proof. unfold savePatch. now destruct (existsb _ _). Qed.

Ltac pres_step Rrefl Rtrans :=
  match goal with
  | |- pres _ _ (bind _ _) => apply (pres_bind _ _ Rtrans); [|intros ?]
  | |- pres _ _ (ret _) => apply (pres_ret _ _ Rrefl)
  | |- pres _ _ (fail _) => apply (pres_fail _ _ Rrefl)
  | |- pres _ _ undefinedModel => apply (pres_fail _ _ Rrefl)
  | |- pres _ _ notFound => apply (pres_fail _ _ Rrefl)
  | |- pres _ _ (liftR _) => apply (pres_liftR _ _ Rrefl)
  | |- pres _ _ (mapM _ _) => apply (pres_mapM _ _ Rrefl Rtrans); intros ?
  | |- pres _ _ (forM_ _ _) => apply (pres_forM _ _ Rrefl Rtrans); intros ?
  | |- pres _ _ (wrapTransaction _ _ (Some _)) => rewrite wrapTransaction_handle
  | |- pres _ _ (match ?x with _ => _ end) => destruct x
  end.

Section JoinsBuilder.
Variable strapi : Strapi.
Variable model : Model.
Variable t : nat.
Variable name : string.
Hypothesis Hname : collectionName model <> name.
Hypothesis Hq : forall u, presQuery t (keepsJoins name) (query strapi u).

Ltac kj_step :=
  first
    [ apply (Hq _)
    | pres_step (keepsJoins_refl name) (keepsJoins_trans name)
    | apply pres_liftS; intros;
      first [ reflexivity
            | apply keepsJoins_setJoins; exact Hname
            | apply savePatch_joins ] ].

Lemma find_keeps params : pres t (keepsJoins name) (find model params (Some t)).
Proof. apply pres_liftS. intros. reflexivity. Qed.

Lemma findOne_keeps params : pres t (keepsJoins name) (findOne model params (Some t)).
Proof.
  unfold findOne. apply (pres_bind _ _ (keepsJoins_trans name));
    [apply find_keeps|]. intros. repeat kj_step.
Qed.

Lemma updateRelations_keeps id values :
  pres t (keepsJoins name) (updateRelations model id values (Some t)).
Proof. apply pres_liftS. intros. reflexivity. Qed.

Lemma deleteComponents_keeps entry :
  pres t (keepsJoins name) (deleteComponents strapi model entry (Some t)).
Proof. unfold deleteComponents. repeat kj_step. Qed.

Lemma runDelete_keeps entry :
  pres t (keepsJoins name) (runDelete strapi model entry (Some t)).
Proof.
  unfold runDelete.
  apply (pres_bind _ _ (keepsJoins_trans name));
    [apply deleteComponents_keeps|]. intros. repeat kj_step.
Qed.

Lemma deleteOne_keeps id : pres t (keepsJoins name) (deleteOne strapi model id (Some t)).
Proof.
  unfold deleteOne. destruct id; [|repeat kj_step].
  apply (pres_bind _ _ (keepsJoins_trans name));
    [repeat kj_step|].
  intros [entry|]; [|repeat kj_step].
  apply (pres_bind _ _ (keepsJoins_trans name));
    [apply updateRelations_keeps|]. intros _.
  rewrite wrapTransaction_handle. apply runDelete_keeps.
Qed.

Lemma deleteMany_keeps params :
  pres t (keepsJoins name) (deleteMany strapi model params (Some t)).
Proof.
  unfold deleteMany. destruct (truthyOpt _).
  - apply (pres_bind _ _ (keepsJoins_trans name));
      [apply find_keeps|].
    intros [|e l]; [repeat kj_step|apply deleteOne_keeps].
  - apply (pres_bind _ _ (keepsJoins_trans name));
      [apply find_keeps|]. intros l.
    apply (pres_bind _ _ (keepsJoins_trans name));
      [|intros; repeat kj_step].
    apply (pres_mapM _ _ (keepsJoins_refl name) (keepsJoins_trans name)).
    intros. apply deleteOne_keeps.
Qed.

Lemma createComponents_keeps entry values :
  pres t (keepsJoins name) (createComponents strapi model entry values (Some t)).
Proof.
  unfold createComponents, createComponentsField, createComponentAndLink.
  repeat kj_step.
Qed.

Lemma updateComponents_keeps entry values :
  pres t (keepsJoins name) (updateComponents strapi model entry values (Some t)).
Proof.
  unfold updateComponents, updateComponentsField, deleteOldComponents,
    deleteDynamicZoneOldComponents, updateOrCreateComponentAndLink.
  repeat kj_step.
Qed.

Lemma create_keeps values :
  pres t (keepsJoins name) (create strapi model values (Some t)).
Proof.
  unfold create. rewrite wrapTransaction_handle. unfold runCreate.
  apply (pres_bind _ _ (keepsJoins_trans name));
    [repeat kj_step|]. intros entry.
  apply (pres_bind _ _ (keepsJoins_trans name));
    [apply createComponents_keeps|]. intros _. apply updateRelations_keeps.
Qed.

Lemma update_keeps params values :
  pres t (keepsJoins name) (update strapi model params values (Some t)).
Proof.
  unfold update.
  apply (pres_bind _ _ (keepsJoins_trans name));
    [repeat kj_step|].
  intros [entry|]; [|repeat kj_step].
  rewrite wrapTransaction_handle. unfold runUpdate.
  apply (pres_bind _ _ (keepsJoins_trans name));
    [destruct (len _ >? 0); repeat kj_step|]. intros updated.
  apply (pres_bind _ _ (keepsJoins_trans name));
    [apply updateComponents_keeps|]. intros _.
  destruct (len _ >? 0); [apply updateRelations_keeps|apply findOne_keeps].
Qed.

Lemma createQueryBuilder_keeps :
  presQuery t (keepsJoins name) (createQueryBuilder strapi model).
Proof.
  split; [|split; [|split; [|split]]]; simpl; intros.
  - apply find_keeps.
  - apply findOne_keeps.
  - apply create_keeps.
  - apply update_keeps.
  - apply deleteMany_keeps.
Qed.
End JoinsBuilder.

Lemma failingQuery_pres (t : nat) (R : Store -> Store -> Prop) (pk : string)
    (e : Error) :
  (forall s, R s s) -> presQuery t R (failingQuery pk e).
Proof.
  intros Hr. split; [|split; [|split; [|split]]]; simpl; intros; now apply pres_fail.
Qed.

Lemma modelByUid_In (reg : list (string * Model)) (u : string) (m : Model) :
  modelByUid reg u = Some m -> exists k, In (k, m) reg.
Proof.
  unfold modelByUid. destruct (List.find _ reg) as [[k x]|] eqn:E; [|discriminate].
  intros [= <-]. apply find_some in E. exists k. apply E.
Qed.

(** The operations of a model leave alone every join table that is neither
    its own nor that of a component of the registry. *)
Lemma queryOf_keeps (reg : list (string * Model)) (name : string) (n : nat) :
  (forall km, In km reg -> collectionName (snd km) <> name) ->
  forall (m : Model) (t : nat),
    collectionName m <> name -> presQuery t (keepsJoins name) (queryOf reg n m).
Proof.
  intros Hreg. induction n as [|n IH]; intros m t Hm; simpl.
  - apply failingQuery_pres. apply keepsJoins_refl.
  - apply createQueryBuilder_keeps; [exact Hm|]. intros u. simpl.
    destruct (modelByUid reg u) as [m'|] eqn:E.
    + apply IH. destruct (modelByUid_In reg u m' E) as (k & Hk).
      apply (Hreg (k, m') Hk).
    + apply failingQuery_pres. apply keepsJoins_refl.
Qed.

Lemma strapiOf_keeps (reg : list (string * Model)) (name : string) (n : nat)
    (t : nat) (u : string) :
  (forall km, In km reg -> collectionName (snd km) <> name) ->
  presQuery t (keepsJoins name) (query (strapiOf reg n) u).
Proof.
  intros Hreg. simpl. destruct (modelByUid reg u) as [m'|] eqn:E.
  - apply queryOf_keeps; [exact Hreg|].
    destruct (modelByUid_In reg u m' E) as (k & Hk). apply (Hreg (k, m') Hk).
  - apply failingQuery_pres. apply keepsJoins_refl.
Qed.

Lemma filter_filter_none {A : Type} (q p : A -> bool) (l : list A) :
  (forall x, q x = true -> p x = false) ->
  filter q (filter (fun x => negb (p x)) l) = filter q l.
Proof.
  intros H. induction l as [|x r IH]; simpl; [reflexivity|].
  destruct (q x) eqn:Eq.
  - rewrite (H x Eq). simpl. now rewrite Eq, IH.
  - destruct (p x); simpl; [exact IH|]. now rewrite Eq, IH.
Qed.

Lemma filter_map_fixed {A : Type} (q p : A -> bool) (g : A -> A) (l : list A) :
  (forall x, q x = true -> p x = false) ->
  (forall x, p x = true -> q (g x) = false) ->
  filter q (map (fun x => if p x then g x else x) l) = filter q l.
Proof.
  intros H1 H2. induction l as [|x r IH]; simpl; [reflexivity|].
  destruct (p x) eqn:Ep.
  - rewrite (H2 x Ep). destruct (q x) eqn:Eq; [|exact IH].
    apply H1 in Eq. congruence.
  - now rewrite IH.
Qed.

Section FieldFrame.
Variable reg : list (string * Model).
Variable n : nat.
Variable model : Model.
Variable t : nat.
Variable f : string.
Hypothesis Hreg : forall km, In km reg -> collectionName (snd km) <> collectionName model.








End FieldFrame.

Lemma updateComponents_absent (strapi : Strapi) (model : Model) (entry : Row)
    (values : value) (h : handle) (w : World) :
  (forall key, In key (componentKeys model) -> get values key = None) ->
  updateComponents strapi model entry values h w = (Ok tt, w).
Proof.
  intros Habs. unfold updateComponents. destruct (len _ =? 0); [reflexivity|].
  induction (componentKeys model) as [|key keys IH]; [reflexivity|].
  cbn [forM_]. unfold bind, updateComponentsField at 1.
  rewrite (Habs key (or_introl eq_refl)). cbn [ret].
  apply IH. intros k Hk. apply Habs. now right.
Qed.

Lemma runIn_noop {A : Type} (t : nat) (m : M A) (a : A) (s : Store) :
  (forall w, m w = (Ok a, w)) -> runIn t m s = (Ok a, s).
Proof.
  intros H. unfold runIn. rewrite H. simpl. now rewrite Nat.eqb_refl.
Qed.








(** * Further properties *)

(** ** The validators, continued *)

(** X1. A non-repeatable component value passes the validator exactly when
    it is a plain object, or [null] on a field that is not required; every
    other value, [null] on a required field included, is refused with
    status 400. *)
Theorem validateNonRepeatableInput_rule (v : value) (key : string) (attr : Attribute) :
  (validateNonRepeatableInput v key attr = Ok tt
   <-> ((exists o, v = VObj o) \/ (v = VNull /\ a_required attr = false)))
  /\ (validateNonRepeatableInput v key attr = Ok tt
      \/ isErrStatus 400 (validateNonRepeatableInput v key attr))
  /\ validateNonRepeatableInput VNull key attr
     = (if a_required attr
        then Err (HttpError 400 ("Component " ++ key ++ " is required"))
        else Ok tt)
  /\ (forall l, validateNonRepeatableInput (VArr l) key attr
                = Err (HttpError 400 ("Component " ++ key ++ " should be an object"))).
Proof.
  unfold validateNonRepeatableInput. split; [|split; [|split]].
  - destruct v as [|b|z|s|l|o]; cbn; destruct (a_required attr); cbn; split;
      try discriminate; try (intros [[o' H]|[H H']]; discriminate).
    all: try (intros _; now right).
    all: try (intros _; left; now eexists).
    all: try reflexivity.
  - destruct v as [|b|z|s|l|o]; cbn; destruct (a_required attr); cbn;
      try (now left); right; eexists; reflexivity.
  - cbn. now destruct (a_required attr).
  - intros l. reflexivity.
Qed.

(** The error of a [forEach] whose body throws for some item is the throw
    of one of the items. *)
Lemma forEachCheck_first_err {A : Type} (f : A -> Result unit) (l : list A) :
  (exists x e, In x l /\ f x = Err e) ->
  exists x' e', In x' l /\ f x' = Err e' /\ forEachCheck f l = Err e'.
Proof.
  induction l as [|x r IH]; intros (y & e & Hy & Ey); [destruct Hy|].
  cbn [forEachCheck]. destruct (f x) as [[]|ex] eqn:Ex.
  - destruct Hy as [->|Hy]; [congruence|].
    destruct IH as (x' & e' & Hin & He & Hf); [now exists y, e|].
    exists x', e'. split; [now right|]. now split.
  - exists x, ex. split; [now left|]. now split.
Qed.

(** X2. A dynamic-zone value passes the validator exactly when it is an
    array of plain objects each carrying an allowed [__component], whose
    length is at least a configured [min] when the field is required or the
    array is not empty, and at most a configured non-zero [max]; the items
    are checked before the bounds, so an array with a bad item is refused
    for that item whatever its length. *)
Theorem validateDynamiczoneInput_rule (v : value) (key : string) (attr : Attribute) :
  (validateDynamiczoneInput v key attr = Ok tt <-> dynamiczoneRule v attr)
  /\ (forall items item e,
         v = VArr items ->
         In item items ->
         checkDynamiczoneItem key (a_components attr) item = Err e ->
         exists item' e',
           In item' items
           /\ checkDynamiczoneItem key (a_components attr) item' = Err e'
           /\ validateDynamiczoneInput v key attr = Err e').
Proof.
  split.
  - unfold validateDynamiczoneInput, dynamiczoneRule.
    destruct v as [| | | |items|];
      try (split; [discriminate|intros (items & H & _); discriminate]).
    destruct (forEachCheck _ items) as [[]|e] eqn:E.
    + rewrite checkBounds_ok. split.
      * intros [Hmin Hmax]. exists items. repeat split; auto.
        apply Forall_forall. intros x Hx.
        apply (proj1 (forEachCheck_ok _ _) E) in Hx.
        now apply checkDynamiczoneItem_ok in Hx.
      * intros (items' & Heq & _ & Hmin & Hmax). injection Heq as <-. now split.
    + split; [discriminate|].
      intros (items' & Heq & Hall & _). injection Heq as <-.
      assert (forEachCheck (checkDynamiczoneItem key (a_components attr)) items
              = Ok tt) as Hok.
      { apply forEachCheck_ok. intros x Hx. apply checkDynamiczoneItem_ok.
        rewrite Forall_forall in Hall. now apply Hall. }
      congruence.
  - intros items item e -> Hin Herr. unfold validateDynamiczoneInput.
    destruct (forEachCheck_first_err (checkDynamiczoneItem key (a_components attr))
                items) as (item' & e' & Hin' & He' & Hf); [now exists item, e|].
    exists item', e'. rewrite Hf. now repeat split.
Qed.

(** An instance of X2: a dynamic zone of two items, one more than its [max]
    allows, whose second item has no discriminant, is refused for that
    item. *)
Lemma validateDynamiczoneInput_rule_witness :
  exists item' e',
    In item' [VObj [("__component", VStr "section")]; VObj [("x", VNum 1)]]
    /\ checkDynamiczoneItem "blocks" ["section"] item' = Err e'
    /\ validateDynamiczoneInput
         (VArr [VObj [("__component", VStr "section")]; VObj [("x", VNum 1)]])
         "blocks" (zoneAttr ["section"] false None (Some 1)) = Err e'.
Proof.
  eapply (proj2 (validateDynamiczoneInput_rule
                   (VArr [VObj [("__component", VStr "section")]; VObj [("x", VNum 1)]])
                   "blocks" (zoneAttr ["section"] false None (Some 1)))
            _ (VObj [("x", VNum 1)])).
  - reflexivity.
  - right. left. reflexivity.
  - reflexivity.
Defined.

Lemma append_assoc3 (a b c : string) : (a ++ b ++ c = (a ++ b) ++ c)%string.
Proof. induction a as [|ch a IH]; [reflexivity|]. cbn. now rewrite IH. Qed.

Lemma forEachCheck_names {A : Type} (key : string) (f : A -> Result unit)
    (l : list A) :
  (forall x, namesField key (f x)) -> namesField key (forEachCheck f l).
Proof.
  intros Hf. induction l as [|x r IH]; [exact I|].
  cbn [forEachCheck]. specialize (Hf x). destruct (f x) as [[]|e]; assumption.
Qed.

Lemma checkBounds_names (what key : string) (n : Z) (mn mx : option Z) (req : bool) :
  namesField key (checkBounds what key n mn mx req).
Proof.
  unfold checkBounds.
  destruct ((req || negb req && (n >? 0)) && truthyBound mn && (n <? boundVal mn)).
  - eexists. split; [reflexivity|]. exists (what ++ " "), (" must contain at least " ++ boundStr mn ++ " items").
    apply append_assoc3.
  - destruct (truthyBound mx && (n >? boundVal mx)); [|exact I].
    eexists. split; [reflexivity|]. exists (what ++ " "), (" must contain at most " ++ boundStr mx ++ " items").
    apply append_assoc3.
Qed.

(** X3. Whatever a validator refuses, it refuses with status 400 and a
    message that names the field. *)
Theorem validators_name_field (v : value) (key : string) (attr : Attribute) :
  namesField key (validateRepeatableInput v key attr)
  /\ namesField key (validateNonRepeatableInput v key attr)
  /\ namesField key (validateDynamiczoneInput v key attr).
Proof.
  split; [|split].
  - unfold validateRepeatableInput.
    destruct v as [| | | |items|];
      try (eexists; split; [reflexivity|]; now exists "Component ", " is repetable. Expected an array").
    match goal with
    | |- context [forEachCheck ?f items] =>
        pose proof (forEachCheck_names key f items) as Hn;
        destruct (forEachCheck f items) as [[]|e]
    end.
    + apply checkBounds_names.
    + apply Hn. intros x.
      destruct (negb (typeofObject x) || isArray x || isNull x); [|exact I].
      eexists. split; [reflexivity|].
      now exists "Component ", " has invalid items. Expected each items to be objects".
  - unfold validateNonRepeatableInput.
    destruct (negb (typeofObject v) || isArray v).
    + eexists. split; [reflexivity|]. now exists "Component ", " should be an object".
    + destruct (a_required attr && isNull v); [|exact I].
      eexists. split; [reflexivity|]. now exists "Component ", " is required".
  - unfold validateDynamiczoneInput.
    destruct v as [| | | |items|];
      try (eexists; split; [reflexivity|]; now exists "Dynamiczone ", " is invalid. Expected an array").
    pose proof (forEachCheck_names key (checkDynamiczoneItem key (a_components attr))
                  items) as Hn.
    destruct (forEachCheck _ items) as [[]|e].
    + apply checkBounds_names.
    + apply Hn. intros x. unfold checkDynamiczoneItem.
      destruct (negb (typeofObject x) || isArray x || isNull x).
      { eexists. split; [reflexivity|].
        now exists "Dynamiczone ", " has invalid items. Expected each items to be objects". }
      destruct (negb (has x "__component")).
      { eexists. split; [reflexivity|].
        now exists "Dynamiczone ",
          " has invalid items. Expected each items to have a valid __component key". }
      destruct (negb (includesValue (a_components attr) (get x "__component")));
        [|exact I].
      eexists. split; [reflexivity|].
      now exists "Dynamiczone ",
        " has invalid items. Each item must have a __component key that is present in the attribute definition".
Qed.

Lemma checkBounds_relax (what key : string) (n : Z) (mn mx : option Z) (req : bool) :
  checkBounds what key n mn mx req = Ok tt ->
  checkBounds what key n mn mx false = Ok tt.
Proof.
  unfold checkBounds.
  destruct req, (n >? 0), (truthyBound mn), (n <? boundVal mn),
    (truthyBound mx && (n >? boundVal mx)); cbn; congruence.
Qed.

(** X4. Loosening a field never turns a value away: what a validator lets
    through on a required field it lets through once the field is optional,
    and what the dynamic-zone validator lets through it lets through under
    any larger set of allowed components. *)
Theorem validators_relax (v : value) (key : string) (attr : Attribute) :
  (validateRepeatableInput v key attr = Ok tt ->
   validateRepeatableInput v key (withRequired false attr) = Ok tt)
  /\ (validateNonRepeatableInput v key attr = Ok tt ->
      validateNonRepeatableInput v key (withRequired false attr) = Ok tt)
  /\ (validateDynamiczoneInput v key attr = Ok tt ->
      forall allowed, incl (a_components attr) allowed ->
        validateDynamiczoneInput v key (withComponents allowed (withRequired false attr))
        = Ok tt).
Proof.
  split; [|split].
  - unfold validateRepeatableInput. destruct v as [| | | |items|]; try discriminate.
    destruct (forEachCheck _ items) as [[]|e]; [|discriminate].
    cbn [withRequired a_min a_max a_required]. apply checkBounds_relax.
  - unfold validateNonRepeatableInput.
    destruct (negb (typeofObject v) || isArray v); [discriminate|]. reflexivity.
  - unfold validateDynamiczoneInput. destruct v as [| | | |items|]; try discriminate.
    destruct (forEachCheck _ items) as [[]|e] eqn:E; [|discriminate].
    intros Hb allowed Hincl.
    cbn [withComponents withRequired a_components a_min a_max a_required].
    assert (forEachCheck (checkDynamiczoneItem key allowed) items = Ok tt) as ->.
    { apply forEachCheck_ok. intros x Hx.
      apply (proj1 (forEachCheck_ok _ _) E) in Hx.
      apply checkDynamiczoneItem_ok in Hx. apply checkDynamiczoneItem_ok.
      destruct Hx as [Hp (c & Hc & Hin)]. split; [exact Hp|].
      exists c. split; [exact Hc|]. now apply Hincl. }
    now apply (checkBounds_relax _ _ _ _ _ (a_required attr)).
Qed.

(** An instance of X4: the two sections of the scenario pass on a required
    field and on the field made optional; a zone of one section passes when
    quotes are allowed too. *)
Lemma validators_relax_witness :
  validateRepeatableInput (VArr [VObj [("text", VStr "x")]; VObj [("text", VStr "y")]])
    "sections" (withRequired false (repeatableAttr "section" true (Some 1) (Some 5)))
  = Ok tt
  /\ validateNonRepeatableInput (VObj []) "cover"
       (withRequired false (singleAttr "section" true)) = Ok tt
  /\ validateDynamiczoneInput (VArr [VObj [("__component", VStr "section")]]) "blocks"
       (withComponents ["section"; "quote"]
          (withRequired false (zoneAttr ["section"] true (Some 1) None))) = Ok tt.
Proof.
  split; [|split].
  - apply (proj1 (validators_relax _ "sections"
                    (repeatableAttr "section" true (Some 1) (Some 5)))).
    reflexivity.
  - apply (proj1 (proj2 (validators_relax _ "cover" (singleAttr "section" true)))).
    reflexivity.
  - apply (proj2 (proj2 (validators_relax _ "blocks"
                           (zoneAttr ["section"] true (Some 1) None)))).
    + reflexivity.
    + intros x [<-|[]]. now left.
Defined.

(** ** Splitting a payload *)




(** ** The clauses of a search, continued *)

Lemma searchable_In (m : Model) (types : list string) (a : string) :
  In a (searchable m types) ->
  a <> primaryKey m
  /\ ~ In a (map alias (associations m))
  /\ exists ty, In (a, ty) (_attributes m) /\ In ty types.
Proof.
  unfold searchable. intros H. apply in_map_iff in H.
  destruct H as ([a' ty] & <- & H). cbn [fst].
  apply filter_In in H. destruct H as [H Hty].
  apply filter_In in H. destruct H as [Hin Hp]. cbn [fst snd] in *.
  apply andb_prop in Hp as [Hpk Has].
  apply negb_true_iff in Hpk, Has. apply String.eqb_neq in Hpk.
  split; [exact Hpk|]. split.
  - intros H. apply strIn_In in H. congruence.
  - exists ty. split; [exact Hin|]. now apply strIn_In.
Qed.

(** X6. A search never compares the primary key nor a relation alias: every
    exact-match clause the builder adds is on a column of the model of a
    numeric type, with the number the query reads as, or of the boolean
    type, with 1 for ['true'] and 0 for ['false']. *)
Theorem buildSearchQuery_columns (toNumber : string -> option Z) (m : Model)
    (query : string) (a : string) (n : Z) :
  In (OrWhere a n) (buildSearchQuery toNumber m query) ->
  a <> primaryKey m
  /\ ~ In a (map alias (associations m))
  /\ exists ty,
       In (a, ty) (_attributes m)
       /\ ((In ty ["integer"; "decimal"; "float"] /\ toNumber query = Some n)
           \/ (ty = "boolean"
               /\ (query = "true" /\ n = 1 \/ query = "false" /\ n = 0))).
Proof.
  unfold buildSearchQuery. intros H.
  apply in_app_or in H. destruct H as [H|H].
  - destruct (toNumber query) as [z|]; [|destruct H].
    apply in_map_iff in H. destruct H as (a' & [= <- <-] & H).
    destruct (searchable_In m _ a' H) as (Hpk & Has & ty & Hin & Hty).
    split; [exact Hpk|]. split; [exact Has|].
    exists ty. split; [exact Hin|]. left. now split.
  - apply in_app_or in H. destruct H as [H|H].
    + destruct (String.eqb query "true" || String.eqb query "false") eqn:Eq;
        [|destruct H].
      apply in_map_iff in H. destruct H as (a' & [= <- <-] & H).
      destruct (searchable_In m _ a' H) as (Hpk & Has & ty & Hin & Hty).
      split; [exact Hpk|]. split; [exact Has|].
      exists ty. split; [exact Hin|]. right.
      destruct Hty as [<-|[]]. split; [reflexivity|].
      destruct (String.eqb_spec query "true") as [E|Hne]; [left; now split|].
      cbn [orb] in Eq. apply String.eqb_eq in Eq. right. now split.
    + destruct (String.eqb (client m) "mysql"); [destruct H as [H|[]]; discriminate|].
      destruct (String.eqb (client m) "pg"); [destruct H as [H|[]]; discriminate|].
      destruct H.
Qed.

(** An instance of X6: the search of "42" on the sample article compares the
    counter, which is neither the primary key nor a relation. *)
Lemma buildSearchQuery_columns_witness :
  "views" <> primaryKey articleModel
  /\ ~ In "views" (map alias (associations articleModel))
  /\ exists ty,
       In ("views", ty) (_attributes articleModel)
       /\ ((In ty ["integer"; "decimal"; "float"] /\ readsFortyTwo "42" = Some 42)
           \/ (ty = "boolean"
               /\ ("42" = "true" /\ 42 = 1 \/ "42" = "false" /\ 42 = 0))).
Proof.
  apply (buildSearchQuery_columns readsFortyTwo articleModel "42" "views" 42).
  left. reflexivity.
Defined.

Lemma app_nil_both {A : Type} (l1 l2 : list A) :
  (l1 ++ l2)%list = [] <-> l1 = [] /\ l2 = [].
Proof.
  split.
  - intros H. now apply app_eq_nil in H.
  - intros [-> ->]. reflexivity.
Qed.

Lemma map_nil_iff {A B : Type} (f : A -> B) (l : list A) : map f l = [] <-> l = [].
Proof. destruct l; split; intros H; try reflexivity; discriminate. Qed.

(** X7. The builder adds no predicate at all exactly when the dialect is
    neither [mysql] nor [pg], the query does not read as a number or the
    model has no numeric column to search, and the query is neither
    ['true'] nor ['false'] or the model has no boolean column to search; the
    search then selects every row. *)
Theorem buildSearchQuery_no_predicate (toNumber : string -> option Z)
    (fullText : string -> string -> Row -> bool) (m : Model) (query : string) :
  (buildSearchQuery toNumber m query = [] <->
   (toNumber query = None \/ searchable m ["integer"; "decimal"; "float"] = [])
   /\ ((query <> "true" /\ query <> "false") \/ searchable m ["boolean"] = [])
   /\ client m <> "mysql" /\ client m <> "pg")
  /\ (buildSearchQuery toNumber m query = [] ->
      forall r, whereHolds fullText m (buildSearchQuery toNumber m query) r = true).
Proof.
  split.
  - unfold buildSearchQuery. rewrite !app_nil_both.
    assert (H1 : match toNumber query with
                 | Some n => map (fun attribute => OrWhere attribute n)
                               (searchable m ["integer"; "decimal"; "float"])
                 | None => []
                 end = []
                 <-> toNumber query = None
                     \/ searchable m ["integer"; "decimal"; "float"] = []).
    { destruct (toNumber query) as [z|].
      - rewrite map_nil_iff. split; [now right|]. now intros [H|H].
      - split; [now left|reflexivity]. }
    assert (H2 : (if String.eqb query "true" || String.eqb query "false"
                  then map (fun attribute =>
                              OrWhere attribute (if String.eqb query "true" then 1 else 0))
                         (searchable m ["boolean"])
                  else []) = []
                 <-> (query <> "true" /\ query <> "false")
                     \/ searchable m ["boolean"] = []).
    { destruct (String.eqb_spec query "true") as [Et|Et];
        destruct (String.eqb_spec query "false") as [Ef|Ef]; cbn [orb];
        try rewrite map_nil_iff; split; try tauto; try (intros _; now left);
        intros [[Ht Hf]|H]; congruence. }
    assert (H3 : (if String.eqb (client m) "mysql"
                  then [OrWhereRaw ("MATCH(" ++ joinWith "," (searchable m ["string"; "text"])
                                    ++ ") AGAINST(? IN BOOLEAN MODE)")
                          ("*" ++ query ++ "*")]
                  else if String.eqb (client m) "pg"
                  then [OrWhereRaw (joinWith " || "
                                      (map pgVector (searchable m ["string"; "text"]))
                                    ++ " @@ plainto_tsquery(?)") query]
                  else []) = []
                 <-> client m <> "mysql" /\ client m <> "pg").
    { destruct (String.eqb_spec (client m) "mysql") as [E|E].
      - split; [discriminate|]. now intros [H _].
      - destruct (String.eqb_spec (client m) "pg") as [E'|E'].
        + split; [discriminate|]. now intros [_ H].
        + split; [now split|reflexivity]. }
    rewrite H1, H2, H3. tauto.
  - intros -> r. reflexivity.
Qed.

(** An instance of X7: under [sqlite3] the search of a word on the sample
    article is no filter. *)
Lemma buildSearchQuery_no_predicate_witness :
  whereHolds (fun _ _ _ => false) articleModel
    (buildSearchQuery readsFortyTwo articleModel "hello")
    {| r_id := 1; r_data := [("title", VStr "A"); ("views", VNum 7)] |} = true.
Proof.
  apply (proj2 (buildSearchQuery_no_predicate readsFortyTwo (fun _ _ _ => false)
                  articleModel "hello")).
  reflexivity.
Defined.

(** X8. Under [mysql] and under [pg] the builder ends with one full-text
    predicate, whatever the attributes of the model: a model with no string
    or text column to search still gets the predicate, over an empty list of
    columns. *)
Theorem buildSearchQuery_full_text (toNumber : string -> option Z) (m : Model)
    (query : string) :
  (client m = "mysql" ->
   exists cs,
     buildSearchQuery toNumber m query
     = (cs ++ [OrWhereRaw (mysqlSearch m) ("*" ++ query ++ "*")])%list
     /\ existsb isRaw cs = false)
  /\ (client m = "pg" ->
      exists cs,
        buildSearchQuery toNumber m query
        = (cs ++ [OrWhereRaw (pgSearch m) query])%list
        /\ existsb isRaw cs = false)
  /\ (searchable m ["string"; "text"] = [] ->
      mysqlSearch m = "MATCH() AGAINST(? IN BOOLEAN MODE)"
      /\ pgSearch m = " @@ plainto_tsquery(?)").
Proof.
  assert (Hraw : forall (f : string -> clause) l,
             (forall a, isRaw (f a) = false) -> existsb isRaw (map f l) = false).
  { intros f l Hf. induction l as [|x l IH]; [reflexivity|].
    cbn [map existsb]. now rewrite Hf, IH. }
  assert (Hcs : existsb isRaw
                  ((match toNumber query with
                    | Some n => map (fun attribute => OrWhere attribute n)
                                  (searchable m ["integer"; "decimal"; "float"])
                    | None => []
                    end)
                   ++ (if String.eqb query "true" || String.eqb query "false"
                       then map (fun attribute =>
                                   OrWhere attribute
                                     (if String.eqb query "true" then 1 else 0))
                              (searchable m ["boolean"])
                       else [])) = false).
  { rewrite existsb_app. apply orb_false_iff. split.
    - destruct (toNumber query); [now apply Hraw|reflexivity].
    - destruct (String.eqb query "true" || String.eqb query "false");
        [now apply Hraw|reflexivity]. }
  split; [|split].
  - intros Hc. eexists. split; [|exact Hcs].
    unfold buildSearchQuery. rewrite Hc. cbn [String.eqb].
    change (String.eqb "mysql" "mysql") with true. cbv iota.
    now rewrite app_assoc.
  - intros Hc. eexists. split; [|exact Hcs].
    unfold buildSearchQuery. rewrite Hc.
    change (String.eqb "pg" "mysql") with false.
    change (String.eqb "pg" "pg") with true. cbv iota.
    now rewrite app_assoc.
  - intros Hs. unfold mysqlSearch, pgSearch. rewrite Hs. split; reflexivity.
Qed.

(** An instance of X8: a model whose only column is a counter, under
    [mysql]. *)
Lemma buildSearchQuery_full_text_witness :
  exists cs,
    buildSearchQuery readsFortyTwo (counterOn "mysql") "42"
    = (cs ++ [OrWhereRaw "MATCH() AGAINST(? IN BOOLEAN MODE)" "*42*"])%list
    /\ existsb isRaw cs = false.
Proof.
  destruct (proj1 (buildSearchQuery_full_text readsFortyTwo (counterOn "mysql") "42")
              eq_refl) as (cs & Hcs & Hraw).
  exists cs. split; [|exact Hraw].
  rewrite Hcs.
  now rewrite (proj1 (proj2 (proj2 (buildSearchQuery_full_text readsFortyTwo
                                      (counterOn "mysql") "42")) eq_refl)).
Defined.

(** ** The rows an operation leaves alone *)

Lemma keepsRows_refl (name : string) (s : Store) : keepsRows name s s.
Proof. reflexivity. Qed.

Lemma keepsRows_trans (name : string) (a b c : Store) :
  keepsRows name a b -> keepsRows name b c -> keepsRows name a c.
Proof. unfold keepsRows. congruence. Qed.

(** A write to the table of a model leaves the other tables alone. *)
Lemma keepsRows_setTable (name other : string) (tb : Table) (s : Store) :
  other <> name -> keepsRows name s (setTable other tb s).
Proof. intros H. unfold keepsRows. now apply getTable_setTable_other. Qed.

Lemma savePatch_rows (name : string) (m : Model) (entry : Row) (data : obj)
    (s : Store) :
  collectionName m <> name -> keepsRows name s (snd (savePatch m entry data s)).
Proof.
  intros H. unfold savePatch. destruct (existsb _ _); [|reflexivity].
  now apply keepsRows_setTable.
Qed.

Section RowsBuilder.
Variable strapi : Strapi.
Variable model : Model.
Variable t : nat.
Variable name : string.
Hypothesis Hname : collectionName model <> name.
Hypothesis Hq : forall u, presQuery t (keepsRows name) (query strapi u).

Ltac kr_step :=
  first
    [ apply (Hq _)
    | pres_step (keepsRows_refl name) (keepsRows_trans name)
    | apply pres_liftS; intros;
      first [ reflexivity
            | apply keepsRows_setTable; exact Hname
            | apply savePatch_rows; exact Hname ] ].

Lemma find_rows params : pres t (keepsRows name) (find model params (Some t)).
Proof. apply pres_liftS. intros. reflexivity. Qed.

Lemma findOne_rows params : pres t (keepsRows name) (findOne model params (Some t)).
Proof.
  unfold findOne. apply (pres_bind _ _ (keepsRows_trans name));
    [apply find_rows|]. intros. repeat kr_step.
Qed.

Lemma updateRelations_rows id values :
  pres t (keepsRows name) (updateRelations model id values (Some t)).
Proof. apply pres_liftS. intros. reflexivity. Qed.

Lemma deleteComponents_rows entry :
  pres t (keepsRows name) (deleteComponents strapi model entry (Some t)).
Proof. unfold deleteComponents. repeat kr_step. Qed.

Lemma runDelete_rows entry :
  pres t (keepsRows name) (runDelete strapi model entry (Some t)).
Proof.
  unfold runDelete.
  apply (pres_bind _ _ (keepsRows_trans name));
    [apply deleteComponents_rows|]. intros. repeat kr_step.
Qed.

Lemma deleteOne_rows id : pres t (keepsRows name) (deleteOne strapi model id (Some t)).
Proof.
  unfold deleteOne. destruct id; [|repeat kr_step].
  apply (pres_bind _ _ (keepsRows_trans name));
    [repeat kr_step|].
  intros [entry|]; [|repeat kr_step].
  apply (pres_bind _ _ (keepsRows_trans name));
    [apply updateRelations_rows|]. intros _.
  rewrite wrapTransaction_handle. apply runDelete_rows.
Qed.

Lemma deleteMany_rows params :
  pres t (keepsRows name) (deleteMany strapi model params (Some t)).
Proof.
  unfold deleteMany. destruct (truthyOpt _).
  - apply (pres_bind _ _ (keepsRows_trans name));
      [apply find_rows|].
    intros [|e l]; [repeat kr_step|apply deleteOne_rows].
  - apply (pres_bind _ _ (keepsRows_trans name));
      [apply find_rows|]. intros l.
    apply (pres_bind _ _ (keepsRows_trans name));
      [|intros; repeat kr_step].
    apply (pres_mapM _ _ (keepsRows_refl name) (keepsRows_trans name)).
    intros. apply deleteOne_rows.
Qed.

Lemma createComponents_rows entry values :
  pres t (keepsRows name) (createComponents strapi model entry values (Some t)).
Proof.
  unfold createComponents, createComponentsField, createComponentAndLink.
  repeat kr_step.
Qed.

Lemma updateComponents_rows entry values :
  pres t (keepsRows name) (updateComponents strapi model entry values (Some t)).
Proof.
  unfold updateComponents, updateComponentsField, deleteOldComponents,
    deleteDynamicZoneOldComponents, updateOrCreateComponentAndLink.
  repeat kr_step.
Qed.

Lemma create_rows values :
  pres t (keepsRows name) (create strapi model values (Some t)).
Proof.
  unfold create. rewrite wrapTransaction_handle. unfold runCreate.
  apply (pres_bind _ _ (keepsRows_trans name));
    [repeat kr_step|]. intros entry.
  apply (pres_bind _ _ (keepsRows_trans name));
    [apply createComponents_rows|]. intros _. apply updateRelations_rows.
Qed.

Lemma update_rows params values :
  pres t (keepsRows name) (update strapi model params values (Some t)).
Proof.
  unfold update.
  apply (pres_bind _ _ (keepsRows_trans name));
    [repeat kr_step|].
  intros [entry|]; [|repeat kr_step].
  rewrite wrapTransaction_handle. unfold runUpdate.
  apply (pres_bind _ _ (keepsRows_trans name));
    [destruct (len _ >? 0); repeat kr_step|]. intros updated.
  apply (pres_bind _ _ (keepsRows_trans name));
    [apply updateComponents_rows|]. intros _.
  destruct (len _ >? 0); [apply updateRelations_rows|apply findOne_rows].
Qed.

Lemma createQueryBuilder_rows :
  presQuery t (keepsRows name) (createQueryBuilder strapi model).
Proof.
  split; [|split; [|split; [|split]]]; simpl; intros.
  - apply find_rows.
  - apply findOne_rows.
  - apply create_rows.
  - apply update_rows.
  - apply deleteMany_rows.
Qed.
End RowsBuilder.

(** The operations of a model leave alone every table that is neither its
    own nor that of a component of the registry. *)
Lemma queryOf_rows (reg : list (string * Model)) (name : string) (n : nat) :
  (forall km, In km reg -> collectionName (snd km) <> name) ->
  forall (m : Model) (t : nat),
    collectionName m <> name -> presQuery t (keepsRows name) (queryOf reg n m).
Proof.
  intros Hreg. induction n as [|n IH]; intros m t Hm; simpl.
  - apply failingQuery_pres. apply keepsRows_refl.
  - apply createQueryBuilder_rows; [exact Hm|]. intros u. simpl.
    destruct (modelByUid reg u) as [m'|] eqn:E.
    + apply IH. destruct (modelByUid_In reg u m' E) as (k & Hk).
      apply (Hreg (k, m') Hk).
    + apply failingQuery_pres. apply keepsRows_refl.
Qed.

Lemma strapiOf_rows (reg : list (string * Model)) (name : string) (n : nat)
    (t : nat) (u : string) :
  (forall km, In km reg -> collectionName (snd km) <> name) ->
  presQuery t (keepsRows name) (query (strapiOf reg n) u).
Proof.
  intros Hreg. simpl. destruct (modelByUid reg u) as [m'|] eqn:E.
  - apply queryOf_rows; [exact Hreg|].
    destruct (modelByUid_In reg u m' E) as (k & Hk). apply (Hreg (k, m') Hk).
  - apply failingQuery_pres. apply keepsRows_refl.
Qed.

Lemma pres_after {A : Type} (t : nat) (R : Store -> Store -> Prop) (m : M A)
    (w : World) (s : Store) :
  pres t R m -> view (Some t) w = Some s ->
  exists s', after t m w = Some s' /\ R s s'.
Proof.
  intros [Hl HR] Hv. exists (snd (runIn t m s)). split; [|apply HR].
  unfold after. rewrite (Hl w s Hv). cbn [snd]. now apply view_setView with s.
Qed.




Section OwnRows.
Variable reg : list (string * Model).
Variable n : nat.
Variable model : Model.
Variable t : nat.
Hypothesis Hreg : forall km, In km reg -> collectionName (snd km) <> collectionName model.

Ltac own_step :=
  first
    [ apply (strapiOf_rows reg (collectionName model) n t _ Hreg)
    | pres_step (keepsRows_refl (collectionName model))
                (keepsRows_trans (collectionName model))
    | apply pres_liftS; intros; reflexivity ].

Lemma createComponents_own entry values :
  pres t (keepsRows (collectionName model))
    (createComponents (strapiOf reg n) model entry values (Some t)).
Proof.
  unfold createComponents, createComponentsField, createComponentAndLink.
  repeat own_step.
Qed.

Lemma updateComponents_own entry values :
  pres t (keepsRows (collectionName model))
    (updateComponents (strapiOf reg n) model entry values (Some t)).
Proof.
  unfold updateComponents, updateComponentsField, deleteOldComponents,
    deleteDynamicZoneOldComponents, updateOrCreateComponentAndLink.
  repeat own_step.
Qed.

Lemma deleteComponents_own entry :
  pres t (keepsRows (collectionName model))
    (deleteComponents (strapiOf reg n) model entry (Some t)).
Proof. unfold deleteComponents. repeat own_step. Qed.
End OwnRows.

(** X10. The component store never touches the row of the entity: when no
    registered component shares the collection of the model,
    [createComponents], [updateComponents] and [deleteComponents] leave the
    table of the model as it was, whatever they do to the join rows and to
    the component tables and whether they resolve or reject. *)
Theorem component_store_keeps_entity_rows (reg : list (string * Model)) (n : nat)
    (model : Model) (t : nat) (entry : Row) (values : value) (w : World) (s : Store) :
  (forall km, In km reg -> collectionName (snd km) <> collectionName model) ->
  view (Some t) w = Some s ->
  (exists s',
      after t (createComponents (strapiOf reg n) model entry values (Some t)) w = Some s'
      /\ getTable (collectionName model) s' = getTable (collectionName model) s)
  /\ (exists s',
         after t (updateComponents (strapiOf reg n) model entry values (Some t)) w
         = Some s'
         /\ getTable (collectionName model) s' = getTable (collectionName model) s)
  /\ (exists s',
         after t (deleteComponents (strapiOf reg n) model entry (Some t)) w = Some s'
         /\ getTable (collectionName model) s' = getTable (collectionName model) s).
Proof.
  intros Hreg Hv. split; [|split].
  - apply (pres_after t (keepsRows (collectionName model))); [|exact Hv].
    now apply createComponents_own.
  - apply (pres_after t (keepsRows (collectionName model))); [|exact Hv].
    now apply updateComponents_own.
  - apply (pres_after t (keepsRows (collectionName model))); [|exact Hv].
    now apply deleteComponents_own.
Qed.

(** An instance of X10: the update of the scenario leaves the table of the
    articles as it was. *)
Lemma component_store_keeps_entity_rows_witness :
  exists s',
    after 0 (updateComponents (strapiOf registry 2) articleModel articleEntry
               keepFirstSection (Some 0%nat))
      (worldOf 0 (committed articleWorld)) = Some s'
    /\ getTable (collectionName articleModel) s'
       = getTable (collectionName articleModel) (committed articleWorld).
Proof.
  apply (proj1 (proj2 (component_store_keeps_entity_rows registry 2 articleModel 0
                         articleEntry keepFirstSection
                         (worldOf 0 (committed articleWorld)) (committed articleWorld)
                         ltac:(intros km [<-|[<-|[]]]; discriminate)
                         eq_refl))).
Defined.

(** ** Creating and reading back *)





(** ** What an update answers *)

(** [findOne] under a handle: the first of the rows that match, and nothing
    written. *)
Lemma findOne_run (m : Model) (params : obj) (t : nat) (s : Store) :
  runIn t (findOne m params (Some t)) s
  = (Ok match paginate (aset "_limit" (VNum 1) params)
                (filter (filterMatch m (aset "_limit" (VNum 1) params))
                   (t_rows (getTable (collectionName m) s))) with
        | [] => VNull
        | r :: _ => VObj (rowJSON m r)
        end, s).
Proof.
  unfold findOne.
  rewrite runIn_bind; [|apply find_local|intros; apply local_ret].
  unfold bindS, find. rewrite runIn_liftS. unfold fetchAllJSON.
  rewrite runIn_ret.
  now destruct (paginate _ _).
Qed.

(** X12. An update answers with what [findOne] finds, after the patch, under
    the filter the update was given. For a payload that names no component
    field and no relation, the update patches the row it located and then
    reads the filter again on the patched table; when the patch has moved
    the row out of the filter and no other row is in it, the answer is
    [null], though the row was patched. *)
Theorem update_answers_refetch (reg : list (string * Model)) (n : nat)
    (model : Model) (params : obj) (values : value) (entry : Row) (t : nat)
    (s : Store) :
  List.find (whereMatch model params) (t_rows (getTable (collectionName model) s))
  = Some entry ->
  (forall key, In key (componentKeys model) -> get values key = None) ->
  pickRelations model values = [] ->
  let s' := patchComponent model (r_id entry) values s in
  runIn t (update (strapiOf reg n) model params values (Some t)) s
  = (fst (runIn t (findOne model params (Some t)) s'), s')
  /\ ((forall r, In r (t_rows (getTable (collectionName model) s')) ->
                 filterMatch model params r = false) ->
      runIn t (update (strapiOf reg n) model params values (Some t)) s
      = (Ok VNull, s')).
Proof.
  intros Hfind Habs Hrel s'.
  assert (Hrun : runIn t (update (strapiOf reg n) model params values (Some t)) s
                 = (fst (runIn t (findOne model params (Some t)) s'), s')).
  { unfold update.
    rewrite runIn_bind;
      [|apply local_liftS
       |intros [e|]; [rewrite wrapTransaction_handle; apply runUpdate_local;
                      apply strapi_local|apply local_fail]].
    unfold bindS. rewrite runIn_liftS. cbn [whereFetch]. rewrite Hfind.
    rewrite wrapTransaction_handle. unfold runUpdate. rewrite Hrel.
    change (len (@nil (string * value)) >? 0) with false. cbv iota.
    assert (Hs' : s' = if (len (selectAttributes model values) >? 0)
                       then snd (savePatch model entry (selectAttributes model values) s)
                       else s).
    { unfold s', patchComponent. rewrite Hrel.
      change (len (@nil (string * value)) >? 0) with false. cbv iota.
      destruct (len (selectAttributes model values) >? 0); [|reflexivity].
      unfold savePatch.
      assert (Hex : existsb (fun r => r_id r =? r_id entry)
                      (t_rows (getTable (collectionName model) s)) = true).
      { apply existsb_exists. exists entry. apply find_some in Hfind.
        split; [apply Hfind|apply Z.eqb_refl]. }
      now rewrite Hex. }
    assert (Hfirst : exists u,
               runIn t (if (len (selectAttributes model values) >? 0)
                        then liftS (Some t)
                               (savePatch model entry (selectAttributes model values))
                        else ret entry) s = (Ok u, s')).
    { rewrite Hs'. destruct (len (selectAttributes model values) >? 0).
      - rewrite runIn_liftS. unfold savePatch.
        assert (Hex : existsb (fun r => r_id r =? r_id entry)
                        (t_rows (getTable (collectionName model) s)) = true).
        { apply existsb_exists. exists entry. apply find_some in Hfind.
          split; [apply Hfind|apply Z.eqb_refl]. }
        rewrite Hex. eexists. reflexivity.
      - rewrite runIn_ret. eexists. reflexivity. }
    destruct Hfirst as (u & Hu).
    rewrite runIn_bind;
      [|destruct (len (selectAttributes model values) >? 0);
        [apply local_liftS|apply local_ret]
       |intros; apply local_bind;
        [apply updateComponents_local; apply strapi_local|intros _];
        apply findOne_local].
    unfold bindS. rewrite Hu.
    rewrite runIn_bind;
      [|apply updateComponents_local; apply strapi_local
       |intros _; apply findOne_local].
    unfold bindS.
    rewrite (runIn_noop t _ tt s')
      by (intros w; now apply updateComponents_absent).
    now rewrite findOne_run. }
  split; [exact Hrun|].
  intros Hnone. rewrite Hrun, findOne_run. cbn [fst].
  rewrite (filter_none_of _ _ (fun r Hr => eq_trans (filterMatch_limit model _ params r)
                                             (Hnone r Hr))).
  now rewrite paginate_nil.
Qed.

(** An instance of X12: the article of the scenario located by its title
    and given another title. *)
Lemma update_answers_refetch_witness :
  runIn 0 (update (strapiOf registry 2) articleModel [("title", VStr "A")]
             (VObj [("title", VStr "B")]) (Some 0%nat)) (committed articleWorld)
  = (Ok VNull,
     patchComponent articleModel 1 (VObj [("title", VStr "B")])
       (committed articleWorld)).
Proof.
  apply (proj2 (update_answers_refetch registry 2 articleModel [("title", VStr "A")]
                  (VObj [("title", VStr "B")]) articleEntry 0 (committed articleWorld)
                  eq_refl
                  ltac:(intros key [<-|[<-|[]]]; reflexivity)
                  eq_refl)).
  intros r Hr. vm_compute in Hr. destruct Hr as [<-|[]]. reflexivity.
Defined.

(** ** Deleting an entity *)

Lemma deleteComponents_loop (strapi : Strapi) (model : Model) (entry : Row)
    (h : handle) :
  deleteComponents strapi model entry h
  = if (len (componentKeys model) =? 0) then ret tt
    else forM_ (deleteComponentsField strapi model entry h) (componentKeys model).
Proof. reflexivity. Qed.

Lemma alookup_distinct {A : Type} (k : string) (v : A) (l : list (string * A)) :
  NoDup (map fst l) -> In (k, v) l -> alookup k l = Some v.
Proof.
  induction l as [|[k' v'] l IH]; intros Hnd Hin; [destruct Hin|].
  cbn [map fst] in Hnd. apply NoDup_cons_iff in Hnd. destruct Hnd as [Hk Hnd].
  cbn [alookup]. destruct Hin as [[= -> ->]|Hin].
  - now rewrite String.eqb_refl.
  - destruct (String.eqb_spec k k') as [->|Hne]; [|now apply IH].
    exfalso. apply Hk. change k' with (fst (k', v)). now apply in_map.
Qed.

(** A component key of a model names an attribute of type [component] or
    [dynamiczone]. *)
Lemma componentKeys_attr (model : Model) (key : string) :
  NoDup (map fst (attributes model)) ->
  In key (componentKeys model) ->
  exists attr,
    alookup key (attributes model) = Some attr
    /\ (a_type attr = "component" \/ a_type attr = "dynamiczone").
Proof.
  intros Hnd Hin. unfold componentKeys in Hin. apply in_map_iff in Hin.
  destruct Hin as ([k attr] & <- & Hin). apply filter_In in Hin.
  destruct Hin as [Hin Hty]. cbn [fst snd] in *.
  exists attr. split; [now apply alookup_distinct|].
  apply strIn_In in Hty. destruct Hty as [E|[E|[]]]; [now right|now left].
Qed.

(** An operation that leaves the join table of a model alone, followed by
    the destroy of the join rows that satisfy [p]. *)
Lemma then_destroy {A : Type} (t : nat) (model : Model) (m : M A)
    (p : JoinRow -> bool) (s : Store) :
  pres t (keepsJoins (collectionName model)) m ->
  fst (runIn t (m ;;; liftS (Some t) (joinDestroy model p)) s) = Ok tt ->
  getJoins (collectionName model)
    (snd (runIn t (m ;;; liftS (Some t) (joinDestroy model p)) s))
  = filter (fun j => negb (p j)) (getJoins (collectionName model) s).
Proof.
  intros [Hl Hk]. rewrite runIn_bind; [|exact Hl|intros; apply local_liftS].
  unfold bindS. specialize (Hk s).
  destruct (runIn t m s) as [[a|e] s1]; [|discriminate]. intros _.
  rewrite runIn_liftS. cbn [joinDestroy snd]. rewrite getJoins_setJoins.
  cbn [snd] in Hk. unfold keepsJoins in Hk. now rewrite Hk.
Qed.

(** One turn of the loop of [deleteComponents] that resolves has destroyed
    the join rows of the entity in its field, and no other. *)
Lemma deleteComponentsField_joins (reg : list (string * Model)) (n : nat)
    (model : Model) (t : nat) (entry : Row) (key : string) (attr : Attribute)
    (s : Store) :
  (forall km, In km reg -> collectionName (snd km) <> collectionName model) ->
  alookup key (attributes model) = Some attr ->
  a_type attr = "component" \/ a_type attr = "dynamiczone" ->
  fst (runIn t (deleteComponentsField (strapiOf reg n) model entry (Some t) key) s)
  = Ok tt ->
  getJoins (collectionName model)
    (snd (runIn t (deleteComponentsField (strapiOf reg n) model entry (Some t) key) s))
  = filter (fun j => negb (joinOf entry key j)) (getJoins (collectionName model) s).
Proof.
  intros Hreg Hattr Hty.
  assert (Hq : forall u, presQuery t (keepsJoins (collectionName model))
                           (query (strapiOf reg n) u))
    by (intros u; now apply strapiOf_keeps).
  unfold deleteComponentsField. rewrite Hattr.
  destruct Hty as [Hty|Hty]; rewrite Hty.
  - change (String.eqb "component" "component") with true. cbv iota zeta.
    rewrite runIn_bind;
      [|apply local_liftS
       |intros ids; destruct (componentModelOf _ _);
        [apply local_bind; [apply q_delete_local; apply strapi_local
                           |intros; apply local_liftS]
        |apply local_fail]].
    unfold bindS. rewrite runIn_liftS. cbn [joinFetchAll].
    destruct (componentModelOf _ _) as [cm|].
    + apply then_destroy. apply (Hq (uid cm)).
    + unfold undefinedModel. rewrite runIn_fail. discriminate.
  - change (String.eqb "dynamiczone" "component") with false.
    change (String.eqb "dynamiczone" "dynamiczone") with true. cbv iota.
    assert (Hinner : forall cj,
               pres t (keepsJoins (collectionName model))
                 (forM_ (fun compo =>
                    match componentModelOf (strapiOf reg n) compo with
                    | None => undefinedModel
                    | Some cm =>
                        let q := query (strapiOf reg n) (uid cm) in
                        let toDelete :=
                          filter (fun el => String.eqb (j_type el) (collectionName cm))
                            cj in
                        if (len toDelete >? 0) then
                          q_delete q
                            [(q_primaryKey q ++ "_in",
                              VArr (map (fun el => VNum (j_cid el)) toDelete))]
                            (Some t) ;;; ret tt
                        else ret tt
                    end) (a_components attr))).
    { intros cj.
      apply (pres_forM _ _ (keepsJoins_refl _) (keepsJoins_trans _)).
      intros compo. destruct (componentModelOf _ compo) as [cm|];
        [|apply (pres_fail _ _ (keepsJoins_refl _))].
      cbv zeta. destruct (len _ >? 0); [|apply (pres_ret _ _ (keepsJoins_refl _))].
      apply (pres_bind _ _ (keepsJoins_trans _)); [apply (Hq (uid cm))|].
      intros _. apply (pres_ret _ _ (keepsJoins_refl _)). }
    rewrite runIn_bind;
      [|apply local_liftS
       |intros cj; apply local_bind; [apply (Hinner cj)|intros; apply local_liftS]].
    unfold bindS. rewrite runIn_liftS. cbn [joinFetchAll].
    apply then_destroy. apply Hinner.
Qed.

Lemma ownedBy_cons (id : Z) (key : string) (keys : list string) (entry : Row)
    (j : JoinRow) :
  r_id entry = id ->
  ownedBy id (key :: keys) j = joinOf entry key j || ownedBy id keys j.
Proof.
  intros <-. unfold ownedBy, joinOf, strIn. cbn [existsb].
  destruct (j_fk j =? r_id entry); reflexivity.
Qed.

Lemma filter_filter_or {A : Type} (p q : A -> bool) (l : list A) :
  filter (fun x => negb (q x)) (filter (fun x => negb (p x)) l)
  = filter (fun x => negb (p x || q x)) l.
Proof.
  induction l as [|x r IH]; [reflexivity|]. cbn [filter].
  destruct (p x); cbn [negb orb filter]; [exact IH|].
  destruct (q x); cbn [negb]; now rewrite IH.
Qed.

Lemma deleteComponentsField_local (reg : list (string * Model)) (n : nat)
    (model : Model) (t : nat) (entry : Row) (key : string) :
  local t (deleteComponentsField (strapiOf reg n) model entry (Some t) key).
Proof. unfold deleteComponentsField. local_all. Qed.

Lemma ownedBy_nil (id : Z) (j : JoinRow) : ownedBy id [] j = false.
Proof. unfold ownedBy, strIn. cbn [existsb]. apply andb_false_r. Qed.

(** The turns of the loop of [deleteComponents] over the keys [keys]. *)
Lemma deleteComponents_keys (reg : list (string * Model)) (n : nat)
    (model : Model) (t : nat) (entry : Row) :
  (forall km, In km reg -> collectionName (snd km) <> collectionName model) ->
  NoDup (map fst (attributes model)) ->
  forall keys s,
    (forall key, In key keys -> In key (componentKeys model)) ->
    fst (runIn t (forM_ (deleteComponentsField (strapiOf reg n) model entry (Some t))
                    keys) s) = Ok tt ->
    getJoins (collectionName model)
      (snd (runIn t (forM_ (deleteComponentsField (strapiOf reg n) model entry
                              (Some t)) keys) s))
    = filter (fun j => negb (ownedBy (r_id entry) keys j))
        (getJoins (collectionName model) s).
Proof.
  intros Hreg Hnd keys. induction keys as [|key keys IH]; intros s Hkeys.
  - intros _. cbn [forM_]. rewrite runIn_ret. cbn [snd]. symmetry.
    apply filter_all. intros j. now rewrite ownedBy_nil.
  - cbn [forM_].
    rewrite runIn_bind;
      [|apply deleteComponentsField_local
       |intros; apply local_forM; intros; apply deleteComponentsField_local].
    unfold bindS.
    destruct (componentKeys_attr model key Hnd (Hkeys key (or_introl eq_refl)))
      as (attr & Hattr & Hty).
    pose proof (deleteComponentsField_joins reg n model t entry key attr s
                  Hreg Hattr Hty) as Hturn.
    destruct (runIn t (deleteComponentsField (strapiOf reg n) model entry
                         (Some t) key) s) as [[[]|e] s1]; [|discriminate].
    intros Hok. cbn [fst snd] in Hturn.
    rewrite (IH s1 (fun k Hk => Hkeys k (or_intror Hk)) Hok).
    rewrite (Hturn eq_refl), filter_filter_or.
    apply filter_ext. intros j.
    now rewrite (ownedBy_cons (r_id entry) key keys entry j eq_refl).
Qed.

(** The join table of a model after a [deleteComponents] that resolves. *)
Lemma deleteComponents_joins_run (reg : list (string * Model)) (n : nat)
    (model : Model) (t : nat) (entry : Row) (s : Store) :
  (forall km, In km reg -> collectionName (snd km) <> collectionName model) ->
  NoDup (map fst (attributes model)) ->
  fst (runIn t (deleteComponents (strapiOf reg n) model entry (Some t)) s) = Ok tt ->
  getJoins (collectionName model)
    (snd (runIn t (deleteComponents (strapiOf reg n) model entry (Some t)) s))
  = filter (fun j => negb (ownedBy (r_id entry) (componentKeys model) j))
      (getJoins (collectionName model) s).
Proof.
  intros Hreg Hnd. rewrite deleteComponents_loop.
  destruct (len (componentKeys model) =? 0) eqn:Elen.
  - intros _. rewrite runIn_ret. cbn [snd].
    assert (Hk : componentKeys model = []).
    { apply Z.eqb_eq in Elen. unfold len in Elen.
      destruct (componentKeys model); [reflexivity|discriminate]. }
    rewrite Hk. symmetry. apply filter_all. intros j. now rewrite ownedBy_nil.
  - now apply deleteComponents_keys.
Qed.

(** X13. A [deleteComponents] that resolves leaves no join row of the entity
    in a component or dynamic-zone field, and it leaves every other join
    row of the model as it was: the rows of the other entities, and the
    rows of the entity in a field that is no component key. *)
Theorem deleteComponents_joins (reg : list (string * Model)) (n : nat)
    (model : Model) (t : nat) (entry : Row) (s : Store) :
  (forall km, In km reg -> collectionName (snd km) <> collectionName model) ->
  NoDup (map fst (attributes model)) ->
  fst (runIn t (deleteComponents (strapiOf reg n) model entry (Some t)) s) = Ok tt ->
  let joins' :=
    getJoins (collectionName model)
      (snd (runIn t (deleteComponents (strapiOf reg n) model entry (Some t)) s)) in
  joins' = filter (fun j => negb (ownedBy (r_id entry) (componentKeys model) j))
             (getJoins (collectionName model) s)
  /\ (forall j, In j joins' -> ownedBy (r_id entry) (componentKeys model) j = false)
  /\ (forall j, In j (getJoins (collectionName model) s) ->
        j_fk j <> r_id entry -> In j joins').
Proof.
  intros Hreg Hnd Hok joins'.
  assert (Hj : joins' = filter (fun j => negb (ownedBy (r_id entry)
                                                 (componentKeys model) j))
                          (getJoins (collectionName model) s))
    by now apply deleteComponents_joins_run.
  split; [exact Hj|]. split.
  - intros j Hin. rewrite Hj in Hin. apply filter_In in Hin.
    now apply negb_true_iff.
  - intros j Hin Hfk. rewrite Hj. apply filter_In. split; [exact Hin|].
    unfold ownedBy. apply Z.eqb_neq in Hfk. now rewrite Hfk.
Qed.

Lemma articleModel_keys : NoDup (map fst (attributes articleModel)).
Proof. repeat (constructor; [cbn; intuition discriminate|]). constructor. Qed.

(** An instance of X13: the components of the article of the scenario. *)
Lemma deleteComponents_joins_witness :
  getJoins "articles"
    (snd (runIn 0 (deleteComponents (strapiOf registry 2) articleModel articleEntry
                     (Some 0%nat)) (committed articleWorld)))
  = filter (fun j => negb (ownedBy 1 ["sections"; "blocks"] j))
      (getJoins "articles" (committed articleWorld)).
Proof.
  assert (Hok : fst (runIn 0 (deleteComponents (strapiOf registry 2) articleModel
                               articleEntry (Some 0%nat)) (committed articleWorld))
                = Ok tt) by (vm_compute; reflexivity).
  exact (proj1 (deleteComponents_joins registry 2 articleModel 0 articleEntry
                  (committed articleWorld)
                  ltac:(intros km [<-|[<-|[]]]; discriminate)
                  articleModel_keys Hok)).
Defined.

(** X14. A single-entity delete that resolves has removed the entity. Under
    the handle of an open transaction, for a model whose primary key is
    [id]: the answer is the entity as it was fetched before the deletion,
    the table of the model has lost the rows of that id and no other, the
    join table has lost the join rows of the entity in its component fields
    and no other, and [findOne] on the id, under the same handle, answers
    [null]. *)
Theorem deleteOne_removes (reg : list (string * Model)) (n : nat) (model : Model)
    (t : nat) (id : Z) (entry : Row) (r : value) (s : Store) :
  (forall km, In km reg -> collectionName (snd km) <> collectionName model) ->
  NoDup (map fst (attributes model)) ->
  primaryKey model = "id" ->
  List.find (whereMatch model [(primaryKey model, VNum id)])
    (t_rows (getTable (collectionName model) s)) = Some entry ->
  fst (runIn t (deleteOne (strapiOf reg n) model (Some (VNum id)) (Some t)) s) = Ok r ->
  let s' := snd (runIn t (deleteOne (strapiOf reg n) model (Some (VNum id)) (Some t))
                   s) in
  r = VObj (rowJSON model entry)
  /\ r_id entry = id
  /\ t_rows (getTable (collectionName model) s')
     = filter (fun x => negb (r_id x =? id)) (t_rows (getTable (collectionName model) s))
  /\ getJoins (collectionName model) s'
     = filter (fun j => negb (ownedBy id (componentKeys model) j))
         (getJoins (collectionName model) s)
  /\ runIn t (findOne model [("id", VNum id)] (Some t)) s' = (Ok VNull, s').
Proof.
  intros Hreg Hnd Hpk Hfind.
  assert (Hid : r_id entry = id).
  { apply find_some in Hfind. destruct Hfind as [_ Hm].
    rewrite (whereMatch_id model (VNum id) (Zstr id) entry Hpk eq_refl) in Hm.
    rewrite hasId_Zstr in Hm. now apply Z.eqb_eq. }
  unfold deleteOne.
  rewrite runIn_bind;
    [|apply local_liftS
     |intros [e|]; [|apply local_fail];
      apply local_bind; [apply local_liftS|intros _];
      rewrite wrapTransaction_handle; apply runDelete_local; apply strapi_local].
  unfold bindS. rewrite runIn_liftS. cbn [whereFetch]. rewrite Hfind.
  rewrite runIn_bind;
    [|apply local_liftS
     |intros _; rewrite wrapTransaction_handle; apply runDelete_local;
      apply strapi_local].
  unfold bindS, updateRelations. rewrite runIn_liftS.
  destruct (updateRelationsS model (r_id entry) (unlinkValues model) s)
    as [ru su] eqn:Eu.
  unfold updateRelationsS in Eu. injection Eu as <- Hsu. cbv iota beta.
  assert (Htu : getTable (collectionName model) su = getTable (collectionName model) s)
    by (now subst su).
  assert (Hju : getJoins (collectionName model) su = getJoins (collectionName model) s)
    by (now subst su).
  clear Hsu.
  rewrite wrapTransaction_handle. unfold runDelete.
  rewrite runIn_bind;
    [|apply deleteComponents_local; apply strapi_local
     |intros _; apply local_bind; [apply local_liftS|intros; apply local_ret]].
  unfold bindS.
  pose proof (deleteComponents_joins_run reg n model t entry su Hreg Hnd) as Hjoins.
  pose proof (proj2 (deleteComponents_own reg n model t Hreg entry) su) as Hown.
  unfold keepsRows in Hown.
  destruct (runIn t (deleteComponents (strapiOf reg n) model entry (Some t)) su)
    as [[[]|e] s1]; [|discriminate].
  cbn [fst snd] in Hjoins, Hown. specialize (Hjoins eq_refl).
  rewrite runIn_bind; [|apply local_liftS|intros; apply local_ret].
  unfold bindS. rewrite runIn_liftS. cbn [whereDestroy]. rewrite runIn_ret.
  cbn [fst snd]. intros [= <-].
  match goal with
  | |- context [setTable ?nm ?tb s1] => set (s' := setTable nm tb s1)
  end.
  assert (Hrows : t_rows (getTable (collectionName model) s')
                  = filter (fun x => negb (r_id x =? id))
                      (t_rows (getTable (collectionName model) s))).
  { unfold s'. rewrite getTable_setTable. cbn [t_rows]. rewrite Hown, Htu, Hid.
    apply filter_ext. intros x.
    now rewrite (whereMatch_idcol model id x Hpk), hasId_Zstr. }
  split; [reflexivity|]. split; [exact Hid|]. split; [exact Hrows|]. split.
  - unfold s'. unfold getJoins at 1. cbn [joins setTable].
    change (match alookup (collectionName model) (joins s1) with
            | Some l => l
            | None => []
            end) with (getJoins (collectionName model) s1).
    now rewrite Hjoins, Hju, Hid.
  - rewrite findOne_run, Hrows.
    rewrite (filter_none_of
               (filterMatch model (aset "_limit" (VNum 1) [("id", VNum id)]))).
    + now rewrite paginate_nil.
    + intros x Hx. apply filter_In in Hx. destruct Hx as [_ Hx].
      rewrite <- Hpk.
      rewrite (filterMatch_id model (VNum id) (Zstr id) x Hpk eq_refl), hasId_Zstr.
      now apply negb_true_iff.
Qed.

(** An instance of X14: the article of the scenario, deleted by its id. *)
Lemma deleteOne_removes_witness :
  let s' := snd (runIn 0 (deleteOne (strapiOf registry 2) articleModel
                            (Some (VNum 1)) (Some 0%nat)) (committed articleWorld)) in
  VObj (rowJSON articleModel articleEntry) = VObj (rowJSON articleModel articleEntry)
  /\ r_id articleEntry = 1
  /\ t_rows (getTable (collectionName articleModel) s')
     = filter (fun x => negb (r_id x =? 1))
         (t_rows (getTable (collectionName articleModel) (committed articleWorld)))
  /\ getJoins (collectionName articleModel) s'
     = filter (fun j => negb (ownedBy 1 (componentKeys articleModel) j))
         (getJoins (collectionName articleModel) (committed articleWorld))
  /\ runIn 0 (findOne articleModel [("id", VNum 1)] (Some 0%nat)) s' = (Ok VNull, s').
Proof.
  assert (Hfind : List.find (whereMatch articleModel [(primaryKey articleModel, VNum 1)])
                    (t_rows (getTable (collectionName articleModel)
                               (committed articleWorld))) = Some articleEntry)
    by (vm_compute; reflexivity).
  assert (Hok : fst (runIn 0 (deleteOne (strapiOf registry 2) articleModel
                                (Some (VNum 1)) (Some 0%nat)) (committed articleWorld))
                = Ok (VObj (rowJSON articleModel articleEntry)))
    by (vm_compute; reflexivity).
  exact (deleteOne_removes registry 2 articleModel 0 1 articleEntry
           (VObj (rowJSON articleModel articleEntry)) (committed articleWorld)
           ltac:(intros km [<-|[<-|[]]]; discriminate)
           articleModel_keys eq_refl Hfind Hok).
Defined.

(** X15. The single-entity delete empties the relations of the entity
    before it opens its transaction, so that step is not undone: without a
    handle and under a dialect other than [mssql], when the transactional
    phase rejects, the delete rejects with the same error, the tables and
    the join tables of the committed store are as they were, and the
    relation collaborator has been handed the emptied value of every
    relation of the entity. *)
Theorem deleteOne_unlinks_outside (reg : list (string * Model)) (n : nat)
    (model : Model) (idv : value) (entry : Row) (e : Error) (w : World) :
  connectionClient model <> "mssql" ->
  List.find (whereMatch model [(primaryKey model, idv)])
    (t_rows (getTable (collectionName model) (committed w))) = Some entry ->
  fst (runIn (opened w) (runDelete (strapiOf reg n) model entry (Some (opened w)))
         (committed (unlinked model entry w))) = Err e ->
  let w' := snd (deleteOne (strapiOf reg n) model (Some idv) None w) in
  fst (deleteOne (strapiOf reg n) model (Some idv) None w) = Err e
  /\ tables (committed w') = tables (committed w)
  /\ joins (committed w') = joins (committed w)
  /\ links (committed w')
     = fold_left (fun ls kv =>
                    setLink (collectionName model) (r_id entry) (fst kv) (snd kv) ls)
         (unlinkValues model) (links (committed w)).
Proof.
  intros Hc Hfind Herr.
  assert (Hrun : deleteOne (strapiOf reg n) model (Some idv) None w
                 = (Err e,
                    {| committed := committed (unlinked model entry w);
                       pending := premove (opened w) (pending w);
                       opened := S (opened w) |})).
  { unfold deleteOne, bind.
    rewrite (whereFetch_found None model _ w (committed w) eq_refl), Hfind.
    unfold updateRelations.
    rewrite (liftS_run None _ w (committed w) eq_refl).
    destruct (updateRelationsS model (r_id entry) (unlinkValues model) (committed w))
      as [r s1] eqn:E.
    unfold updateRelationsS in E. injection E as <- <-. cbv beta iota.
    transitivity (wrapTransaction model (runDelete (strapiOf reg n) model entry) None
                    (unlinked model entry w)); [reflexivity|].
    rewrite (wrapTransaction_none model (runDelete (strapiOf reg n) model entry)
               (unlinked model entry w) Hc)
      by (apply runDelete_local; apply strapi_local).
    change (opened (unlinked model entry w)) with (opened w).
    rewrite Herr. unfold afterTransaction, settled. now rewrite Herr. }
  intros w'. unfold w'. rewrite Hrun. cbn [fst snd committed].
  repeat split.
Qed.

(** An instance of X15: a page whose component field names a component the
    registry does not know; its delete rejects in the transaction, the row
    stays and the author is unlinked. *)
Lemma deleteOne_unlinks_outside_witness :
  let w' := snd (deleteOne (strapiOf registry 2) pageModel (Some (VNum 1)) None
                   pageWorld) in
  fst (deleteOne (strapiOf registry 2) pageModel (Some (VNum 1)) None pageWorld)
  = Err (TypeError "Cannot read property of undefined")
  /\ tables (committed w') = tables (committed pageWorld)
  /\ joins (committed w') = joins (committed pageWorld)
  /\ links (committed w')
     = fold_left (fun ls kv =>
                    setLink (collectionName pageModel) 1 (fst kv) (snd kv) ls)
         (unlinkValues pageModel) (links (committed pageWorld)).
Proof.
  exact (deleteOne_unlinks_outside registry 2 pageModel (VNum 1)
           {| r_id := 1; r_data := [("title", VStr "P")] |}
           (TypeError "Cannot read property of undefined") pageWorld
           ltac:(discriminate) eq_refl eq_refl).
Defined.

(** ** Deleting by a filter *)

Lemma find_own (rows : list Row) (x : Row) :
  NoDup (map r_id rows) -> In x rows ->
  List.find (hasId (Zstr (r_id x))) rows = Some x.
Proof.
  induction rows as [|a rows IH]; intros Hnd Hin; [destruct Hin|].
  cbn [map] in Hnd. apply NoDup_cons_iff in Hnd. destruct Hnd as [Ha Hnd].
  cbn [List.find]. rewrite hasId_Zstr.
  destruct Hin as [->|Hin]; [now rewrite Z.eqb_refl|].
  destruct (Z.eqb_spec (r_id a) (r_id x)) as [E|E]; [|now apply IH].
  exfalso. apply Ha. rewrite E. now apply in_map.
Qed.

(** The single-entity delete of a row of a model without components: the
    answer is the row, and the row is removed. *)
Lemma deleteOne_own (reg : list (string * Model)) (n : nat) (cm : Model) (x : Row)
    (t : nat) (s : Store) :
  componentKeys cm = [] -> primaryKey cm = "id" ->
  NoDup (map r_id (t_rows (getTable (collectionName cm) s))) ->
  In x (t_rows (getTable (collectionName cm) s)) ->
  runIn t (deleteOne (strapiOf reg n) cm (Some (VNum (r_id x))) (Some t)) s
  = (Ok (VObj (rowJSON cm x)), removeRow cm (r_id x) s).
Proof.
  intros Hck Hpk Hnd Hin. unfold deleteOne.
  rewrite runIn_bind;
    [|apply local_liftS
     |intros [e|]; [|apply local_fail];
      apply local_bind; [apply local_liftS|intros _];
      rewrite wrapTransaction_handle; apply runDelete_local; apply strapi_local].
  unfold bindS. rewrite runIn_liftS. cbn [whereFetch].
  rewrite (find_ext_eq _ (hasId (Zstr (r_id x))))
    by (intros; now apply (whereMatch_id cm (VNum (r_id x)))).
  rewrite (find_own _ x Hnd Hin).
  rewrite runIn_bind;
    [|apply local_liftS
     |intros _; rewrite wrapTransaction_handle; apply runDelete_local;
      apply strapi_local].
  unfold bindS, updateRelations. rewrite runIn_liftS.
  unfold updateRelationsS at 1. cbv beta iota zeta.
  rewrite wrapTransaction_handle. unfold runDelete.
  rewrite deleteComponents_flat by exact Hck.
  rewrite runIn_bind;
    [|apply local_ret
     |intros _; apply local_bind; [apply local_liftS|intros; apply local_ret]].
  unfold bindS. rewrite runIn_ret.
  rewrite runIn_bind; [|apply local_liftS|intros; apply local_ret].
  unfold bindS. rewrite runIn_liftS. unfold whereDestroy. rewrite runIn_ret.
  f_equal. unfold removeRow.
  f_equal. f_equal. apply filter_ext. intros r.
  now rewrite whereMatch_idcol.
Qed.

Lemma deleteAll_own (reg : list (string * Model)) (n : nat) (cm : Model) (t : nat)
    (tg : list Row) (s : Store) :
  componentKeys cm = [] -> primaryKey cm = "id" ->
  NoDup (map r_id (t_rows (getTable (collectionName cm) s))) ->
  NoDup (map r_id tg) ->
  incl tg (t_rows (getTable (collectionName cm) s)) ->
  runIn t (mapM (fun entry => deleteOne (strapiOf reg n) cm (get entry "id") (Some t))
             (map (fun r => VObj (rowJSON cm r)) tg)) s
  = (Ok (map (fun r => VObj (rowJSON cm r)) tg),
     fold_left (fun acc r => removeRow cm (r_id r) acc) tg s).
Proof.
  intros Hck Hpk. revert s. induction tg as [|x tg IH]; intros s Hnd Htg Hincl.
  - apply runIn_ret.
  - cbn [map mapM fold_left]. rewrite (rowJSON_id cm x Hpk).
    cbn [map] in Htg. apply NoDup_cons_iff in Htg. destruct Htg as [Hx Htg].
    rewrite runIn_bind;
      [|apply deleteOne_local; apply strapi_local
       |intros; apply local_bind; [|intros; apply local_ret];
        apply local_mapM; intros; apply deleteOne_local; apply strapi_local].
    unfold bindS.
    rewrite (deleteOne_own reg n cm x t s Hck Hpk Hnd (Hincl x (or_introl eq_refl))).
    rewrite runIn_bind;
      [|apply local_mapM; intros; apply deleteOne_local; apply strapi_local
       |intros; apply local_ret].
    unfold bindS. rewrite IH; [now rewrite runIn_ret| |exact Htg|].
    + rewrite rows_removeRow. now apply distinct_ids_filter.
    + intros y Hy. rewrite rows_removeRow. apply filter_In.
      split; [apply Hincl; now right|].
      rewrite hasId_Zstr. apply negb_true_iff, Z.eqb_neq. intros E.
      apply Hx. rewrite <- E. now apply in_map.
Qed.

Lemma paginate_incl {A : Type} (params : obj) (l : list A) :
  exists a b, l = (a ++ paginate params l ++ b)%list.
Proof.
  unfold paginate.
  assert (H1 : exists a, l = (a ++ match alookup "_start" params with
                                   | Some (VNum n) => skipn (Z.to_nat n) l
                                   | _ => l
                                   end)%list).
  { destruct (alookup "_start" params) as [[| |z| | |]|]; try (now exists []).
    exists (firstn (Z.to_nat z) l). symmetry. apply firstn_skipn. }
  destruct H1 as (a & Ha).
  set (l1 := match alookup "_start" params with
             | Some (VNum n) => skipn (Z.to_nat n) l
             | _ => l
             end) in *.
  destruct (alookup "_limit" params) as [[| |z| | |]|];
    try (exists a, []; now rewrite app_nil_r).
  exists a, (skipn (Z.to_nat z) l1). now rewrite firstn_skipn.
Qed.

(** The delete by a filter without primary key, on a model without
    component fields: the rows [find] finds are deleted one after the
    other. *)
Lemma deleteMany_own (reg : list (string * Model)) (n : nat) (cm : Model)
    (params : obj) (t : nat) (s : Store) :
  componentKeys cm = [] -> primaryKey cm = "id" ->
  NoDup (map r_id (t_rows (getTable (collectionName cm) s))) ->
  truthyOpt (alookup (primaryKey cm) params) = false ->
  let tg := paginate params
              (filter (filterMatch cm params) (t_rows (getTable (collectionName cm) s))) in
  incl tg (t_rows (getTable (collectionName cm) s))
  /\ runIn t (deleteMany (strapiOf reg n) cm params (Some t)) s
     = (Ok (VArr (map (fun r => VObj (rowJSON cm r)) tg)),
        fold_left (fun acc r => removeRow cm (r_id r) acc) tg s).
Proof.
  intros Hck Hpk Hnd Hfalsy.
  set (rows := t_rows (getTable (collectionName cm) s)) in *.
  intros tg.
  destruct (paginate_incl params (filter (filterMatch cm params) rows))
    as (a & b & Hab). fold tg in Hab.
  assert (Hincl : incl tg rows).
  { intros x Hx. apply (proj1 (filter_In (filterMatch cm params) x rows)).
    rewrite Hab. apply in_or_app. right. apply in_or_app. now left. }
  assert (Htg : NoDup (map r_id tg)).
  { pose proof (distinct_ids_filter (filterMatch cm params) rows Hnd) as H.
    rewrite Hab, !map_app in H.
    apply NoDup_app_remove_l in H. now apply NoDup_app_remove_r in H. }
  split; [exact Hincl|].
  unfold deleteMany. rewrite Hfalsy.
  rewrite runIn_bind;
    [|apply find_local
     |intros; apply local_bind; [|intros; apply local_ret];
      apply local_mapM; intros; apply deleteOne_local; apply strapi_local].
  unfold bindS, find. rewrite runIn_liftS. unfold fetchAllJSON.
  fold rows. fold tg.
  rewrite runIn_bind;
    [|apply local_mapM; intros; apply deleteOne_local; apply strapi_local
     |intros; apply local_ret].
  unfold bindS.
  rewrite (deleteAll_own reg n cm t tg s Hck Hpk Hnd Htg Hincl).
  now rewrite runIn_ret.
Qed.

(** X16. On a model without component fields, a delete by a filter without
    primary key deletes what [find] finds under that filter, and answers
    with the same entities: under the handle of an open transaction, the
    rows removed from the table are the rows of the entities [find]
    answers with, no other, and the answer of the delete is the array
    [find] answered with. *)
Theorem deleteMany_deletes_found (reg : list (string * Model)) (n : nat)
    (cm : Model) (params : obj) (t : nat) (s : Store) (found : list value) :
  componentKeys cm = [] -> primaryKey cm = "id" ->
  NoDup (map r_id (t_rows (getTable (collectionName cm) s))) ->
  truthyOpt (alookup (primaryKey cm) params) = false ->
  fst (runIn t (find cm params (Some t)) s) = Ok found ->
  exists tg,
    found = map (fun r => VObj (rowJSON cm r)) tg
    /\ incl tg (t_rows (getTable (collectionName cm) s))
    /\ fst (runIn t (deleteMany (strapiOf reg n) cm params (Some t)) s)
       = Ok (VArr found)
    /\ t_rows (getTable (collectionName cm)
                 (snd (runIn t (deleteMany (strapiOf reg n) cm params (Some t)) s)))
       = filter (fun r => negb (existsb (fun x => r_id r =? r_id x) tg))
           (t_rows (getTable (collectionName cm) s)).
Proof.
  intros Hck Hpk Hnd Hfalsy. unfold find at 1. rewrite runIn_liftS.
  unfold fetchAllJSON. cbn [fst].
  destruct (deleteMany_own reg n cm params t s Hck Hpk Hnd Hfalsy) as [Hincl Hrun].
  set (tg := paginate params
               (filter (filterMatch cm params)
                  (t_rows (getTable (collectionName cm) s)))) in *.
  intros [= <-]. exists tg. rewrite Hrun. cbn [fst snd].
  split; [reflexivity|]. split; [exact Hincl|]. split; [reflexivity|].
  apply rows_removeAll.
Qed.

(** An instance of X16: the sections of the scenario whose text is "x". *)
Lemma deleteMany_deletes_found_witness :
  exists tg,
    [VObj [("id", VNum 1); ("text", VStr "x")]]
    = map (fun r => VObj (rowJSON sectionModel r)) tg
    /\ incl tg (t_rows (getTable (collectionName sectionModel) (committed articleWorld)))
    /\ fst (runIn 0 (deleteMany (strapiOf registry 2) sectionModel [("text", VStr "x")]
                       (Some 0%nat)) (committed articleWorld))
       = Ok (VArr [VObj [("id", VNum 1); ("text", VStr "x")]])
    /\ t_rows (getTable (collectionName sectionModel)
                 (snd (runIn 0 (deleteMany (strapiOf registry 2) sectionModel
                                  [("text", VStr "x")] (Some 0%nat))
                         (committed articleWorld))))
       = filter (fun r => negb (existsb (fun x => r_id r =? r_id x) tg))
           (t_rows (getTable (collectionName sectionModel) (committed articleWorld))).
Proof.
  assert (Hnd : NoDup (map r_id (t_rows (getTable (collectionName sectionModel)
                                           (committed articleWorld))))).
  { vm_compute. repeat (constructor; [cbn; intuition discriminate|]). constructor. }
  assert (Hfound : fst (runIn 0 (find sectionModel [("text", VStr "x")] (Some 0%nat))
                          (committed articleWorld))
                   = Ok [VObj [("id", VNum 1); ("text", VStr "x")]])
    by (vm_compute; reflexivity).
  exact (deleteMany_deletes_found registry 2 sectionModel [("text", VStr "x")] 0
           (committed articleWorld) [VObj [("id", VNum 1); ("text", VStr "x")]]
           eq_refl eq_refl Hnd eq_refl Hfound).
Defined.

(** ** Deleting the instances the entity owns *)

Lemma filter_both {A : Type} (p q : A -> bool) (l : list A) :
  filter q (filter p l) = filter (fun x => p x && q x) l.
Proof.
  induction l as [|x r IH]; [reflexivity|]. cbn [filter].
  destruct (p x); cbn [andb filter]; [|exact IH].
  destruct (q x); now rewrite IH.
Qed.

Lemma thins_refl (s : Store) : thins s s.
Proof. intros name. exists (fun _ => true). symmetry. now apply filter_all. Qed.

Lemma thins_trans (a b c : Store) : thins a b -> thins b c -> thins a c.
Proof.
  intros Hab Hbc name. destruct (Hab name) as (p & Hp). destruct (Hbc name) as (q & Hq).
  exists (fun x => p x && q x). now rewrite Hq, Hp, filter_both.
Qed.

Lemma thins_tables (s s' : Store) : tables s' = tables s -> thins s s'.
Proof.
  intros H name. exists (fun _ => true). unfold getTable. rewrite H.
  symmetry. now apply filter_all.
Qed.

Lemma thins_incl (s s' : Store) (name : string) (r : Row) :
  thins s s' -> In r (t_rows (getTable name s')) -> In r (t_rows (getTable name s)).
Proof.
  intros H Hin. destruct (H name) as (p & Hp). rewrite Hp in Hin.
  now apply filter_In in Hin.
Qed.

Lemma distinctIds_thins (reg : list (string * Model)) (s s' : Store) :
  distinctIds reg s -> thins s s' -> distinctIds reg s'.
Proof.
  intros Hd Ht km Hkm. destruct (Ht (collectionName (snd km))) as (p & Hp).
  rewrite Hp. apply distinct_ids_filter. now apply Hd.
Qed.

(** The destroy of rows of a table thins the store. *)
Lemma whereDestroy_thins (m : Model) (params : obj) (s : Store) :
  thins s (snd (whereDestroy m params s)).
Proof.
  intros name. unfold whereDestroy. cbn [snd].
  destruct (String.eqb_spec (collectionName m) name) as [<-|Hne].
  - rewrite getTable_setTable. cbn [t_rows]. now eexists.
  - rewrite getTable_setTable_other by exact Hne.
    exists (fun _ => true). symmetry. now apply filter_all.
Qed.

(** The deletes of a model without component fields thin the store. *)
Lemma deleteOne_thins (strapi : Strapi) (cm : Model) (t : nat) (id : option value) :
  componentKeys cm = [] -> pres t thins (deleteOne strapi cm id (Some t)).
Proof.
  intros Hck. unfold deleteOne. destruct id as [idv|];
    [|apply (pres_fail _ _ thins_refl)].
  apply (pres_bind _ _ thins_trans).
  { apply pres_liftS. intros s. apply thins_refl. }
  intros [entry|]; [|apply (pres_fail _ _ thins_refl)].
  apply (pres_bind _ _ thins_trans).
  { apply pres_liftS. intros s. now apply thins_tables. }
  intros _. rewrite wrapTransaction_handle. unfold runDelete.
  rewrite deleteComponents_flat by exact Hck.
  apply (pres_bind _ _ thins_trans); [apply (pres_ret _ _ thins_refl)|]. intros _.
  apply (pres_bind _ _ thins_trans); [|intros; apply (pres_ret _ _ thins_refl)].
  apply pres_liftS. intros s. apply whereDestroy_thins.
Qed.

Lemma deleteMany_thins (strapi : Strapi) (cm : Model) (t : nat) (params : obj) :
  componentKeys cm = [] -> pres t thins (deleteMany strapi cm params (Some t)).
Proof.
  intros Hck. unfold deleteMany.
  assert (Hfind : forall p, pres t thins (find cm p (Some t))).
  { intros p. apply pres_liftS. intros s. apply thins_refl. }
  destruct (truthyOpt _).
  - apply (pres_bind _ _ thins_trans); [apply Hfind|].
    intros [|e l]; [apply (pres_ret _ _ thins_refl)|now apply deleteOne_thins].
  - apply (pres_bind _ _ thins_trans); [apply Hfind|]. intros l.
    apply (pres_bind _ _ thins_trans); [|intros; apply (pres_ret _ _ thins_refl)].
    apply (pres_mapM _ _ thins_refl thins_trans). intros. now apply deleteOne_thins.
Qed.

(** Over a registry of flat components, the deletes a turn of
    [deleteComponents] asks of a component thin the store. *)
Lemma q_delete_thins (reg : list (string * Model)) (n : nat) (c : string)
    (cm : Model) (t : nat) (params : obj) :
  flatRegistry reg -> alookup c reg = Some cm ->
  pres t thins (q_delete (query (strapiOf reg (S n)) (uid cm)) params (Some t)).
Proof.
  intros Hflat Hc.
  pose proof (flatRegistry_component reg c cm Hflat Hc) as Hcm.
  rewrite (query_flat reg n cm Hcm). cbn [q_delete createQueryBuilder].
  apply deleteMany_thins. apply Hcm.
Qed.

Lemma deleteComponentsField_thins (reg : list (string * Model)) (n : nat)
    (model : Model) (t : nat) (entry : Row) (key : string) :
  flatRegistry reg ->
  pres t thins (deleteComponentsField (strapiOf reg (S n)) model entry (Some t) key).
Proof.
  intros Hflat. unfold deleteComponentsField.
  assert (Hread : forall A (f : Store -> Result A * Store),
             (forall s, snd (f s) = s) -> pres t thins (liftS (Some t) f)).
  { intros A f Hf. apply pres_liftS. intros s. rewrite Hf. apply thins_refl. }
  assert (Hdestroy : forall p, pres t thins (liftS (Some t) (joinDestroy model p))).
  { intros p. apply pres_liftS. intros s. now apply thins_tables. }
  destruct (alookup key (attributes model)) as [attr|];
    [|apply (pres_fail _ _ thins_refl)].
  destruct (String.eqb (a_type attr) "component").
  - cbv zeta. apply (pres_bind _ _ thins_trans); [now apply Hread|]. intros ids.
    unfold componentModelOf. cbn [components strapiOf].
    destruct (alookup (a_component attr) reg) as [cm|] eqn:Ecm;
      [|apply (pres_fail _ _ thins_refl)].
    apply (pres_bind _ _ thins_trans); [|intros; apply Hdestroy].
    now apply (q_delete_thins reg n (a_component attr)).
  - destruct (String.eqb (a_type attr) "dynamiczone");
      [|apply (pres_ret _ _ thins_refl)].
    apply (pres_bind _ _ thins_trans); [now apply Hread|]. intros cj.
    apply (pres_bind _ _ thins_trans); [|intros; apply Hdestroy].
    apply (pres_forM _ _ thins_refl thins_trans). intros compo.
    unfold componentModelOf. cbn [components strapiOf].
    destruct (alookup compo reg) as [cm|] eqn:Ecm;
      [|apply (pres_fail _ _ thins_refl)].
    cbv zeta. destruct (len _ >? 0); [|apply (pres_ret _ _ thins_refl)].
    apply (pres_bind _ _ thins_trans); [|intros; apply (pres_ret _ _ thins_refl)].
    now apply (q_delete_thins reg n compo).
Qed.

Lemma existsb_nums (z : Z) (zs : list Z) :
  existsb (looseEq (VNum z)) (map VNum zs) = existsb (Z.eqb z) zs.
Proof.
  induction zs as [|a zs IH]; [reflexivity|]. cbn [map existsb]. rewrite IH.
  f_equal. unfold looseEq. cbn [toString jsString]. apply Zstr_eqb.
Qed.

Lemma filterMatch_in_nums (cm : Model) (zs : list Z) (r : Row) :
  primaryKey cm = "id" ->
  filterMatch cm [(primaryKey cm ++ "_in", VArr (map VNum zs))] r
  = existsb (Z.eqb (r_id r)) zs.
Proof.
  intros Hpk. unfold filterMatch, filterClause, rowGet, rowJSON.
  rewrite Hpk. cbn [forallb fst snd]. cbn -[existsb looseEq strIn Zstr map].
  rewrite existsb_nums. apply andb_true_r.
Qed.

(** The delete of the instances of a flat component by a list of ids, the
    call [delete({ id_in: ids })] of [deleteComponents]: it resolves, and no
    row of one of these ids is left. *)
Lemma delete_nums_flat (reg : list (string * Model)) (n : nat) (cm : Model)
    (zs : list Z) (t : nat) (s : Store) :
  flatComponent reg cm ->
  NoDup (map r_id (t_rows (getTable (collectionName cm) s))) ->
  exists r s',
    runIn t (q_delete (query (strapiOf reg (S n)) (uid cm))
               [(primaryKey cm ++ "_in", VArr (map VNum zs))] (Some t)) s
    = (Ok r, s')
    /\ (forall x, In x (t_rows (getTable (collectionName cm) s')) ->
        forall z, In z zs -> r_id x <> z).
Proof.
  intros Hflat Hnd. rewrite (query_flat reg n cm Hflat).
  destruct Hflat as (_ & Hck & Hpk).
  cbn [q_delete createQueryBuilder].
  assert (Hfalsy : truthyOpt (alookup (primaryKey cm)
                                [(primaryKey cm ++ "_in", VArr (map VNum zs))]) = false).
  { rewrite Hpk. reflexivity. }
  destruct (deleteMany_own reg n cm _ t s Hck Hpk Hnd Hfalsy) as [_ Hrun].
  rewrite Hrun. eexists. eexists. split; [reflexivity|].
  intros x Hx z Hz E. rewrite rows_removeAll in Hx. apply filter_In in Hx.
  destruct Hx as [Hx Hex]. apply negb_true_iff in Hex.
  assert (Hin : existsb (fun y => r_id x =? r_id y)
                  (paginate [(primaryKey cm ++ "_in", VArr (map VNum zs))]
                     (filter (filterMatch cm [(primaryKey cm ++ "_in",
                                               VArr (map VNum zs))])
                        (t_rows (getTable (collectionName cm) s)))) = true).
  { apply existsb_exists. exists x. split; [|apply Z.eqb_refl].
    assert (Hpag : forall (l : list Row),
               paginate [(primaryKey cm ++ "_in", VArr (map VNum zs))] l = l).
    { intros l. unfold paginate. rewrite Hpk. reflexivity. }
    rewrite Hpag. apply filter_In. split; [exact Hx|].
    rewrite (filterMatch_in_nums cm zs x Hpk). apply existsb_exists.
    exists z. split; [exact Hz|]. now apply Z.eqb_eq. }
  congruence.
Qed.

(** A turn of [deleteComponents] for a field of type [component] that
    resolves has deleted, from the table of the component of the field, the
    instance every join row of the entity in the field names. *)
Lemma deleteComponentsField_component (reg : list (string * Model)) (n : nat)
    (model : Model) (t : nat) (entry : Row) (key : string) (attr : Attribute)
    (cm : Model) (s : Store) :
  flatRegistry reg ->
  alookup key (attributes model) = Some attr ->
  a_type attr = "component" ->
  alookup (a_component attr) reg = Some cm ->
  distinctIds reg s ->
  fst (runIn t (deleteComponentsField (strapiOf reg (S n)) model entry (Some t) key) s)
  = Ok tt ->
  forall j, In j (getJoins (collectionName model) s) -> joinOf entry key j = true ->
    forall r,
      In r (t_rows (getTable (collectionName cm)
                      (snd (runIn t (deleteComponentsField (strapiOf reg (S n)) model
                                       entry (Some t) key) s)))) ->
      r_id r <> j_cid j.
Proof.
  intros Hflat Hattr Hty Hcm Hd.
  pose proof (flatRegistry_component reg _ cm Hflat Hcm) as Hfc.
  unfold deleteComponentsField. rewrite Hattr, Hty.
  change (String.eqb "component" "component") with true. cbv iota zeta.
  unfold componentModelOf. cbn [components strapiOf]. rewrite Hcm.
  rewrite runIn_bind;
    [|apply local_liftS
     |intros ids; apply local_bind; [apply q_delete_local; apply strapi_local
                                    |intros; apply local_liftS]].
  unfold bindS. rewrite runIn_liftS. cbn [joinFetchAll].
  rewrite runIn_bind;
    [|apply q_delete_local; apply strapi_local|intros; apply local_liftS].
  unfold bindS.
  rewrite <- (map_map j_cid VNum).
  destruct (delete_nums_flat reg n cm
              (map j_cid (filter (joinOf entry key) (getJoins (collectionName model) s)))
              t s Hfc (Hd _ (alookup_In _ _ _ Hcm))) as (r0 & s1 & Hrun & Hgone).
  rewrite Hrun. rewrite runIn_liftS. cbn [joinDestroy fst snd].
  intros _ j Hj Hjo r Hr.
  apply (Hgone r); [exact Hr|].
  apply in_map. apply filter_In. now split.
Qed.

(** The inner loop of a turn of [deleteComponents] for a dynamic zone, run
    over the allowed components [comps] with the join rows [cj] of the
    entity in the zone: when it resolves, the instance every join row names
    is gone from the table of the allowed component whose collection is the
    [component_type] of the row. *)
Lemma zone_deletes (reg : list (string * Model)) (n : nat) (t : nat)
    (cj : list JoinRow) :
  flatRegistry reg ->
  forall comps s,
    distinctIds reg s ->
    fst (runIn t
           (forM_ (fun compo =>
              match componentModelOf (strapiOf reg (S n)) compo with
              | None => undefinedModel
              | Some cm =>
                  let q := query (strapiOf reg (S n)) (uid cm) in
                  let toDelete :=
                    filter (fun el => String.eqb (j_type el) (collectionName cm)) cj in
                  if (len toDelete >? 0) then
                    q_delete q
                      [(q_primaryKey q ++ "_in",
                        VArr (map (fun el => VNum (j_cid el)) toDelete))]
                      (Some t) ;;; ret tt
                  else ret tt
              end) comps) s) = Ok tt ->
    forall c cm j,
      In c comps -> alookup c reg = Some cm -> In j cj ->
      j_type j = collectionName cm ->
      forall r,
        In r (t_rows (getTable (collectionName cm)
                        (snd (runIn t
           (forM_ (fun compo =>
              match componentModelOf (strapiOf reg (S n)) compo with
              | None => undefinedModel
              | Some cm =>
                  let q := query (strapiOf reg (S n)) (uid cm) in
                  let toDelete :=
                    filter (fun el => String.eqb (j_type el) (collectionName cm)) cj in
                  if (len toDelete >? 0) then
                    q_delete q
                      [(q_primaryKey q ++ "_in",
                        VArr (map (fun el => VNum (j_cid el)) toDelete))]
                      (Some t) ;;; ret tt
                  else ret tt
              end) comps) s)))) ->
        r_id r <> j_cid j.
Proof.
  intros Hflat.
  set (body := fun compo =>
         match componentModelOf (strapiOf reg (S n)) compo with
         | None => undefinedModel
         | Some cm =>
             let q := query (strapiOf reg (S n)) (uid cm) in
             let toDelete :=
               filter (fun el => String.eqb (j_type el) (collectionName cm)) cj in
             if (len toDelete >? 0) then
               q_delete q
                 [(q_primaryKey q ++ "_in",
                   VArr (map (fun el => VNum (j_cid el)) toDelete))]
                 (Some t) ;;; ret tt
             else ret tt
         end).
  assert (Hbody : forall compo, pres t thins (body compo)).
  { intros compo. unfold body, componentModelOf. cbn [components strapiOf].
    destruct (alookup compo reg) as [cm|] eqn:Ecm;
      [|apply (pres_fail _ _ thins_refl)].
    cbv zeta. destruct (len _ >? 0); [|apply (pres_ret _ _ thins_refl)].
    apply (pres_bind _ _ thins_trans); [|intros; apply (pres_ret _ _ thins_refl)].
    now apply (q_delete_thins reg n compo). }
  assert (Hloop : forall comps, pres t thins (forM_ body comps)).
  { intros comps. now apply (pres_forM _ _ thins_refl thins_trans). }
  induction comps as [|c0 comps IH]; intros s Hd Hok c cm j Hc Hcm Hj Hty r Hr;
    [destruct Hc|].
  cbn [forM_] in Hok, Hr.
  rewrite runIn_bind in Hok, Hr;
    try apply (proj1 (Hbody c0)); try (intros; apply (proj1 (Hloop comps))).
  unfold bindS in Hok, Hr.
  pose proof (proj2 (Hbody c0) s) as Hthin0.
  assert (Hturn : c0 = c ->
                  forall x, In x (t_rows (getTable (collectionName cm)
                                            (snd (runIn t (body c0) s)))) ->
                            r_id x <> j_cid j).
  { intros -> x. unfold body, componentModelOf.
    cbn [components strapiOf]. rewrite Hcm. cbv zeta.
    pose proof (flatRegistry_component reg c cm Hflat Hcm) as Hfc.
    assert (Hpos : (len (filter (fun el => String.eqb (j_type el) (collectionName cm))
                           cj) >? 0) = true).
    { apply Z.gtb_lt. unfold len.
      assert (Hin : In j (filter (fun el => String.eqb (j_type el) (collectionName cm))
                            cj))
        by (apply filter_In; split; [exact Hj|now apply String.eqb_eq]).
      destruct (filter _ cj); [destruct Hin|]. cbn. lia. }
    rewrite Hpos.
    assert (Hq : q_primaryKey (query (strapiOf reg (S n)) (uid cm)) = primaryKey cm)
      by (now rewrite (query_flat reg n cm Hfc)).
    rewrite Hq, <- (map_map j_cid VNum).
    destruct (delete_nums_flat reg n cm
                (map j_cid (filter (fun el => String.eqb (j_type el) (collectionName cm))
                              cj))
                t s Hfc (Hd _ (alookup_In _ _ _ Hcm))) as (r0 & s1 & Hrun & Hgone).
    rewrite runIn_bind;
      [|apply q_delete_local; apply strapi_local|intros; apply local_ret].
    unfold bindS. rewrite Hrun, runIn_ret. cbn [snd]. intros Hx.
    apply (Hgone x Hx). apply in_map. apply filter_In.
    split; [exact Hj|now apply String.eqb_eq]. }
  destruct (runIn t (body c0) s) as [[[]|e] s1]; [|discriminate].
  cbn [snd fst] in *.
  destruct Hc as [E|Hc].
  - apply (Hturn E).
    apply (thins_incl s1 _ _ r (proj2 (Hloop comps) s1)). exact Hr.
  - apply (IH s1 (distinctIds_thins reg s s1 Hd Hthin0) Hok c cm j Hc Hcm Hj Hty r Hr).
Qed.

Lemma deleteComponentsField_zone (reg : list (string * Model)) (n : nat)
    (model : Model) (t : nat) (entry : Row) (key : string) (attr : Attribute)
    (s : Store) :
  flatRegistry reg ->
  alookup key (attributes model) = Some attr ->
  a_type attr = "dynamiczone" ->
  distinctIds reg s ->
  fst (runIn t (deleteComponentsField (strapiOf reg (S n)) model entry (Some t) key) s)
  = Ok tt ->
  forall c cm j,
    In c (a_components attr) -> alookup c reg = Some cm ->
    In j (getJoins (collectionName model) s) -> joinOf entry key j = true ->
    j_type j = collectionName cm ->
    forall r,
      In r (t_rows (getTable (collectionName cm)
                      (snd (runIn t (deleteComponentsField (strapiOf reg (S n)) model
                                       entry (Some t) key) s)))) ->
      r_id r <> j_cid j.
Proof.
  intros Hflat Hattr Hty Hd.
  pose proof (deleteComponentsField_thins reg n model t entry key Hflat) as Hpres.
  unfold deleteComponentsField in *. rewrite Hattr, Hty in *.
  change (String.eqb "dynamiczone" "component") with false in *.
  change (String.eqb "dynamiczone" "dynamiczone") with true in *. cbv iota in *.
  set (cj := filter (joinOf entry key) (getJoins (collectionName model) s)).
  pose proof (zone_deletes reg n t cj Hflat (a_components attr) s Hd) as Hzone.
  match type of Hzone with
  | fst (runIn t ?m s) = _ -> _ => set (inner := m) in *
  end.
  assert (Hinner : local t inner).
  { unfold inner. apply local_forM. intros compo.
    destruct (componentModelOf _ compo); [|apply local_fail].
    cbv zeta. destruct (len _ >? 0); [|apply local_ret].
    apply local_bind; [apply q_delete_local; apply strapi_local
                      |intros; apply local_ret]. }
  rewrite runIn_bind;
    [|apply local_liftS
     |intros cj0; apply local_bind; [|intros; apply local_liftS];
      apply local_forM; intros compo;
      destruct (componentModelOf _ compo); [|apply local_fail];
      cbv zeta; destruct (len _ >? 0); [|apply local_ret];
      apply local_bind; [apply q_delete_local; apply strapi_local
                        |intros; apply local_ret]].
  unfold bindS. rewrite runIn_liftS. cbn [joinFetchAll]. fold cj. fold inner.
  rewrite runIn_bind; [|exact Hinner|intros; apply local_liftS].
  unfold bindS.
  destruct (runIn t inner s) as [[[]|e] s1]; [|discriminate].
  cbn [fst snd] in Hzone. rewrite runIn_liftS. cbn [joinDestroy fst snd].
  intros _ c cm j Hc Hcm Hj Hjo Hjt r Hr.
  apply (Hzone eq_refl c cm j Hc Hcm); [|exact Hjt|exact Hr].
  apply filter_In. now split.
Qed.

(** A turn of [deleteComponents] that resolves has deleted the instance
    every join row of the entity in its field names, from the tables of its
    target models. *)
Lemma deleteComponentsField_targets (reg : list (string * Model)) (n : nat)
    (model : Model) (t : nat) (entry : Row) (key : string) (attr : Attribute)
    (s : Store) :
  flatRegistry reg ->
  alookup key (attributes model) = Some attr ->
  distinctIds reg s ->
  fst (runIn t (deleteComponentsField (strapiOf reg (S n)) model entry (Some t) key) s)
  = Ok tt ->
  forall j cm,
    In j (getJoins (collectionName model) s) -> joinOf entry key j = true ->
    In cm (targetModels reg attr j) ->
    forall r,
      In r (t_rows (getTable (collectionName cm)
                      (snd (runIn t (deleteComponentsField (strapiOf reg (S n)) model
                                       entry (Some t) key) s)))) ->
      r_id r <> j_cid j.
Proof.
  intros Hflat Hattr Hd Hok j cm Hj Hjo Hcm. unfold targetModels in Hcm.
  destruct (String.eqb_spec (a_type attr) "component") as [Hty|Hty].
  - destruct (alookup (a_component attr) reg) as [cm'|] eqn:E; [|destruct Hcm].
    destruct Hcm as [<-|[]].
    now apply (deleteComponentsField_component reg n model t entry key attr cm' s).
  - destruct (String.eqb_spec (a_type attr) "dynamiczone") as [Hz|Hz]; [|destruct Hcm].
    apply in_flat_map in Hcm. destruct Hcm as (c & Hc & Hcm).
    destruct (alookup c reg) as [cm'|] eqn:E; [|destruct Hcm].
    destruct (String.eqb_spec (j_type j) (collectionName cm')) as [Et|Et];
      [|destruct Hcm].
    destruct Hcm as [<-|[]].
    now apply (deleteComponentsField_zone reg n model t entry key attr s Hflat Hattr
                 Hz Hd Hok c cm' j).
Qed.

Lemma joinOf_field (entry : Row) (key : string) (j : JoinRow) :
  joinOf entry key j = true -> j_field j = key.
Proof.
  unfold joinOf. intros H. apply andb_prop in H. now apply String.eqb_eq.
Qed.

(** The turns of the loop of [deleteComponents] over the keys [keys], for
    the instances the join rows of the entity name. *)
Lemma deleteComponents_keys_cascade (reg : list (string * Model)) (n : nat)
    (model : Model) (t : nat) (entry : Row) :
  flatRegistry reg ->
  (forall km, In km reg -> collectionName (snd km) <> collectionName model) ->
  NoDup (map fst (attributes model)) ->
  forall keys s,
    (forall key, In key keys -> In key (componentKeys model)) ->
    distinctIds reg s ->
    fst (runIn t (forM_ (deleteComponentsField (strapiOf reg (S n)) model entry
                           (Some t)) keys) s) = Ok tt ->
    forall key attr j cm,
      In key keys ->
      alookup key (attributes model) = Some attr ->
      In j (getJoins (collectionName model) s) -> joinOf entry key j = true ->
      In cm (targetModels reg attr j) ->
      forall r,
        In r (t_rows (getTable (collectionName cm)
                        (snd (runIn t (forM_ (deleteComponentsField
                                                (strapiOf reg (S n)) model entry
                                                (Some t)) keys) s)))) ->
        r_id r <> j_cid j.
Proof.
  intros Hflat Hreg Hnd keys.
  induction keys as [|k0 keys IH]; intros s Hkeys Hd Hok key attr j cm Hkey Hattr Hj
    Hjo Hcm r Hr; [destruct Hkey|].
  cbn [forM_] in Hok, Hr.
  rewrite runIn_bind in Hok, Hr;
    try apply deleteComponentsField_local;
    try (intros; apply local_forM; intros; apply deleteComponentsField_local).
  unfold bindS in Hok, Hr.
  destruct (componentKeys_attr model k0 Hnd (Hkeys k0 (or_introl eq_refl)))
    as (attr0 & Hattr0 & Hty0).
  pose proof (deleteComponentsField_joins reg (S n) model t entry k0 attr0 s
                Hreg Hattr0 Hty0) as Hjoins.
  pose proof (deleteComponentsField_targets reg n model t entry k0 attr0 s
                Hflat Hattr0 Hd) as Htargets.
  pose proof (proj2 (deleteComponentsField_thins reg n model t entry k0 Hflat) s)
    as Hthin.
  assert (Hrest : pres t thins (forM_ (deleteComponentsField (strapiOf reg (S n))
                                         model entry (Some t)) keys)).
  { apply (pres_forM _ _ thins_refl thins_trans). intros.
    now apply deleteComponentsField_thins. }
  destruct (runIn t (deleteComponentsField (strapiOf reg (S n)) model entry
                       (Some t) k0) s) as [[[]|e] s1]; [|discriminate].
  cbn [fst snd] in *. specialize (Hjoins eq_refl). specialize (Htargets eq_refl).
  destruct (joinOf entry k0 j) eqn:Ej0.
  - assert (key = k0).
    { apply joinOf_field in Hjo. apply joinOf_field in Ej0. congruence. }
    subst key. assert (attr = attr0) by congruence. subst attr.
    apply (Htargets j cm Hj Ej0 Hcm).
    apply (thins_incl s1 _ _ r (proj2 Hrest s1)). exact Hr.
  - destruct Hkey as [->|Hkey]; [congruence|].
    apply (IH s1 (fun k Hk => Hkeys k (or_intror Hk))
             (distinctIds_thins reg s s1 Hd Hthin) Hok key attr j cm Hkey Hattr);
      [|exact Hjo|exact Hcm|exact Hr].
    rewrite Hjoins. apply filter_In. split; [exact Hj|]. now rewrite Ej0.
Qed.

(** X17. Over a registry of flat components, a [deleteComponents] that
    resolves leaves no instance behind: for every join row of the entity in
    a component or dynamic-zone field, the row of the id the join row
    names is gone from the table of the component of the field, or, in a
    dynamic zone, from the table of the allowed component whose collection
    is the [component_type] of the join row. The tables only lose rows: no
    row is added, and none is changed. *)
Theorem deleteComponents_cascade (reg : list (string * Model)) (n : nat)
    (model : Model) (t : nat) (entry : Row) (s : Store) :
  flatRegistry reg ->
  (forall km, In km reg -> collectionName (snd km) <> collectionName model) ->
  NoDup (map fst (attributes model)) ->
  distinctIds reg s ->
  fst (runIn t (deleteComponents (strapiOf reg (S n)) model entry (Some t)) s) = Ok tt ->
  let s' := snd (runIn t (deleteComponents (strapiOf reg (S n)) model entry (Some t))
                   s) in
  (forall key attr j cm,
      In key (componentKeys model) ->
      alookup key (attributes model) = Some attr ->
      In j (getJoins (collectionName model) s) -> joinOf entry key j = true ->
      In cm (targetModels reg attr j) ->
      forall r, In r (t_rows (getTable (collectionName cm) s')) -> r_id r <> j_cid j)
  /\ thins s s'.
Proof.
  intros Hflat Hreg Hnd Hd. rewrite deleteComponents_loop.
  destruct (len (componentKeys model) =? 0) eqn:Elen.
  - intros _ s'. split.
    + assert (Hk : componentKeys model = []).
      { apply Z.eqb_eq in Elen. unfold len in Elen.
        destruct (componentKeys model); [reflexivity|discriminate]. }
      rewrite Hk. intros key attr j cm [].
    + unfold s'. rewrite runIn_ret. apply thins_refl.
  - intros Hok s'. split.
    + intros key attr j cm Hkey Hattr Hj Hjo Hcm r Hr.
      now apply (deleteComponents_keys_cascade reg n model t entry Hflat Hreg Hnd
                   (componentKeys model) s (fun k Hk => Hk) Hd Hok key attr j cm).
    + apply (pres_forM _ _ thins_refl thins_trans). intros.
      now apply deleteComponentsField_thins.
Qed.

Lemma articleWorld_distinct : distinctIds registry (committed articleWorld).
Proof.
  intros km [<-|[<-|[]]]; vm_compute;
    repeat (constructor; [cbn; intuition discriminate|]); constructor.
Qed.

(** An instance of X17: after the components of the article of the scenario
    are deleted, its first section is in the table of the sections no
    more. *)
Lemma deleteComponents_cascade_witness :
  ~ In {| r_id := 1; r_data := [("text", VStr "x")] |}
      (t_rows (getTable (collectionName sectionModel)
                 (snd (runIn 0 (deleteComponents (strapiOf registry 2) articleModel
                                  articleEntry (Some 0%nat))
                         (committed articleWorld))))).
Proof.
  assert (Hok : fst (runIn 0 (deleteComponents (strapiOf registry 2) articleModel
                               articleEntry (Some 0%nat)) (committed articleWorld))
                = Ok tt) by (vm_compute; reflexivity).
  intros Hin.
  apply (proj1 (deleteComponents_cascade registry 1 articleModel 0 articleEntry
                  (committed articleWorld) registry_flat
                  ltac:(intros km [<-|[<-|[]]]; discriminate)
                  articleModel_keys articleWorld_distinct Hok)
           "sections" (repeatableAttr "section" false (Some 1) (Some 5))
           {| j_fk := 1; j_type := "components_sections"; j_cid := 1;
              j_field := "sections"; j_order := 1 |}
           sectionModel
           ltac:(left; reflexivity) eq_refl
           ltac:(vm_compute; left; reflexivity) eq_refl
           ltac:(left; reflexivity)
           {| r_id := 1; r_data := [("text", VStr "x")] |} Hin).
  reflexivity.
Defined.

(** ** The orders a reconciliation leaves *)

Lemma length_filter_split {A : Type} (p q : A -> bool) (l : list A) :
  List.length (filter p l)
  = (List.length (filter (fun x => p x && q x) l)
     + List.length (filter (fun x => p x && negb (q x)) l))%nat.
Proof.
  induction l as [|x r IH]; [reflexivity|]. cbn [filter].
  destruct (p x), (q x); cbn [andb negb List.length]; rewrite IH; lia.
Qed.

Section Orders.
Variable e : Z.
Variable key : string.
Variable tyname : string.

(** The rows of (entity, field) that no id of [ids] names, at the order
    [o]. *)
Lemma left_split (ids : list string) (z k o : Z) (l : list JoinRow) (j0 : JoinRow) :
  strIn (Zstr z) ids = false ->
  filter (fun j => (j_fk j =? e) && String.eqb (j_field j) key && (j_cid j =? z)) l
  = [j0] ->
  j_type j0 = tyname ->
  List.length
    (filter (fun j => (j_fk j =? e) && String.eqb (j_field j) key
                      && negb (strIn (Zstr (j_cid j)) ids) && (j_order j =? o))
       (map (fun j => if (j_fk j =? e) && String.eqb (j_type j) tyname
                         && (j_cid j =? z) && String.eqb (j_field j) key
                      then {| j_fk := j_fk j; j_type := j_type j; j_cid := j_cid j;
                              j_field := j_field j; j_order := k |}
                      else j) l))
  = Nat.add
      (List.length
         (filter (fun j => (j_fk j =? e) && String.eqb (j_field j) key
                           && negb (strIn (Zstr (j_cid j)) (Zstr z :: ids))
                           && (j_order j =? o)) l))
      (if k =? o then 1%nat else 0%nat).
Proof.
  intros Hz Hone Hty.
  set (upd := fun j => if (j_fk j =? e) && String.eqb (j_type j) tyname
                          && (j_cid j =? z) && String.eqb (j_field j) key
                       then {| j_fk := j_fk j; j_type := j_type j; j_cid := j_cid j;
                               j_field := j_field j; j_order := k |}
                       else j).
  rewrite (length_filter_split _ (fun j => negb (j_cid j =? z)) (map upd l)).
  cbv beta. f_equal.
  - f_equal. unfold upd.
    rewrite (filter_map_fixed
               (fun j => (j_fk j =? e) && String.eqb (j_field j) key
                         && negb (strIn (Zstr (j_cid j)) ids) && (j_order j =? o)
                         && negb (j_cid j =? z))
               (fun j => (j_fk j =? e) && String.eqb (j_type j) tyname
                         && (j_cid j =? z) && String.eqb (j_field j) key)).
    + apply filter_ext. intros j. unfold strIn. cbn [existsb]. rewrite Zstr_eqb.
      destruct (j_fk j =? e), (String.eqb (j_field j) key), (j_cid j =? z),
        (existsb (String.eqb (Zstr (j_cid j))) ids), (j_order j =? o); reflexivity.
    + intros j Hq. apply andb_prop in Hq. destruct Hq as [_ Hq].
      apply negb_true_iff in Hq. rewrite Hq. now rewrite andb_false_r.
    + intros j Hp. cbn [j_cid j_fk j_field j_order].
      apply andb_prop in Hp. destruct Hp as [Hp _].
      apply andb_prop in Hp. destruct Hp as [_ Hp]. rewrite Hp.
      cbn [negb]. now rewrite andb_false_r.
  - assert (Hsub : filter (fun j => (j_fk j =? e) && String.eqb (j_field j) key
                                    && negb (strIn (Zstr (j_cid j)) ids)
                                    && (j_order j =? o)
                                    && negb (negb (j_cid j =? z))) (map upd l)
                   = filter (fun j => negb (strIn (Zstr (j_cid j)) ids)
                                      && (j_order j =? o))
                       (filter (fun j => (j_fk j =? e) && String.eqb (j_field j) key
                                         && (j_cid j =? z)) (map upd l))).
    { rewrite filter_both. apply filter_ext. intros j.
      destruct (j_fk j =? e), (String.eqb (j_field j) key), (j_cid j =? z),
        (strIn (Zstr (j_cid j)) ids), (j_order j =? o); reflexivity. }
    rewrite Hsub.
    rewrite (filter_map_commute
               (fun j => (j_fk j =? e) && String.eqb (j_field j) key && (j_cid j =? z))
               upd)
      by (intros j; unfold upd;
          destruct ((j_fk j =? e) && String.eqb (j_type j) tyname && (j_cid j =? z)
                    && String.eqb (j_field j) key); reflexivity).
    rewrite Hone. cbn [map].
    assert (Hin : In j0 (filter (fun j => (j_fk j =? e) && String.eqb (j_field j) key
                                          && (j_cid j =? z)) l))
      by (rewrite Hone; now left).
    apply filter_In in Hin. destruct Hin as [_ Hin].
    apply andb_prop in Hin. destruct Hin as [Hin Hcid].
    apply andb_prop in Hin. destruct Hin as [Hfk Hfield].
    unfold upd. rewrite Hfk, Hfield, Hcid, Hty, String.eqb_refl.
    cbn [andb filter j_cid j_order].
    apply Z.eqb_eq in Hcid. rewrite Hcid, Hz. cbn [negb andb].
    now destruct (k =? o).
Qed.

Lemma left_added (ids : list string) (z k o : Z) (l : list JoinRow) :
  strIn (Zstr z) ids = false ->
  List.length
    (filter (fun j => (j_fk j =? e) && String.eqb (j_field j) key
                      && negb (strIn (Zstr (j_cid j)) ids) && (j_order j =? o))
       (l ++ [{| j_fk := e; j_type := tyname; j_cid := z; j_field := key;
                 j_order := k |}]))
  = Nat.add
      (List.length
         (filter (fun j => (j_fk j =? e) && String.eqb (j_field j) key
                           && negb (strIn (Zstr (j_cid j)) ids) && (j_order j =? o)) l))
      (if k =? o then 1%nat else 0%nat).
Proof.
  intros Hz. rewrite filter_app, length_app. f_equal.
  cbn [filter j_fk j_field j_cid j_order].
  rewrite Z.eqb_refl, String.eqb_refl, Hz. cbn [andb negb].
  now destruct (k =? o).
Qed.

(** The join row of (entity, field) that names the id [z'] is not touched
    by the turn of another id. *)
Lemma one_kept (z z' k : Z) (l : list JoinRow) :
  z' <> z ->
  filter (fun j => (j_fk j =? e) && String.eqb (j_field j) key && (j_cid j =? z'))
    (map (fun j => if (j_fk j =? e) && String.eqb (j_type j) tyname
                      && (j_cid j =? z) && String.eqb (j_field j) key
                   then {| j_fk := j_fk j; j_type := j_type j; j_cid := j_cid j;
                           j_field := j_field j; j_order := k |}
                   else j) l)
  = filter (fun j => (j_fk j =? e) && String.eqb (j_field j) key && (j_cid j =? z')) l.
Proof.
  intros Hne.
  apply (filter_map_fixed
           (fun j => (j_fk j =? e) && String.eqb (j_field j) key && (j_cid j =? z'))
           (fun j => (j_fk j =? e) && String.eqb (j_type j) tyname
                     && (j_cid j =? z) && String.eqb (j_field j) key)).
  - intros j Hq. apply andb_prop in Hq. destruct Hq as [_ Hq].
    apply Z.eqb_eq in Hq.
    assert (Hz : (j_cid j =? z) = false) by (apply Z.eqb_neq; congruence).
    rewrite Hz. now rewrite andb_false_r.
  - intros j Hp. cbn [j_cid j_fk j_field].
    apply andb_prop in Hp. destruct Hp as [Hp _].
    apply andb_prop in Hp. destruct Hp as [_ Hp].
    apply Z.eqb_eq in Hp.
    assert (Hz : (j_cid j =? z') = false) by (apply Z.eqb_neq; congruence).
    rewrite Hz. now rewrite andb_false_r.
Qed.

Lemma one_kept_added (z z' k : Z) (l : list JoinRow) :
  z' <> z ->
  filter (fun j => (j_fk j =? e) && String.eqb (j_field j) key && (j_cid j =? z'))
    (l ++ [{| j_fk := e; j_type := tyname; j_cid := z; j_field := key;
              j_order := k |}])
  = filter (fun j => (j_fk j =? e) && String.eqb (j_field j) key && (j_cid j =? z')) l.
Proof.
  intros Hne. rewrite filter_app. cbn [filter j_fk j_field j_cid].
  assert (Hz : (z =? z') = false) by (apply Z.eqb_neq; congruence).
  rewrite Hz, andb_false_r. apply app_nil_r.
Qed.
End Orders.

Lemma window_step (k o n : Z) :
  0 <= n ->
  Nat.add (if k =? o then 1%nat else 0%nat)
    (if (k + 1 <=? o) && (o <? k + 1 + n) then 1%nat else 0%nat)
  = (if (k <=? o) && (o <? k + (1 + n)) then 1%nat else 0%nat).
Proof.
  intros Hn.
  destruct (Z.eqb_spec k o), (Z.leb_spec (k + 1) o), (Z.ltb_spec o (k + 1 + n)),
    (Z.leb_spec k o), (Z.ltb_spec o (k + (1 + n))); cbn; try reflexivity; lia.
Qed.

Lemma relink_new (model cm : Model) (e : Z) (key : string) (order : Z)
    (item : value) (s : Store) :
  get item (primaryKey cm) = None ->
  relink model cm e key order item s = linkNew model cm e key order item s.
Proof. intros H. unfold relink. now rewrite (get_none_has _ _ H). Qed.

Lemma relink_id (model cm : Model) (e : Z) (key : string) (order : Z)
    (item idv : value) (str : string) (centry : Row) (s : Store) :
  get item (primaryKey cm) = Some idv -> toString idv = Some str ->
  List.find (hasId str) (t_rows (getTable (collectionName cm) s)) = Some centry ->
  relink model cm e key order item s
  = reorder model cm e key (r_id centry) order
      (patchComponent cm (r_id centry) item s).
Proof.
  intros Hg Hs Hf. unfold relink. now rewrite (has_get _ _ _ Hg), Hg, Hs, Hf.
Qed.

Lemma hasId_row (z : Z) (rows : list Row) :
  existsb (hasId (Zstr z)) rows = true -> In z (map r_id rows).
Proof.
  intros H. apply existsb_exists in H. destruct H as (r & Hr & Hid).
  rewrite hasId_Zstr in Hid. apply Z.eqb_eq in Hid. subst z. now apply in_map.
Qed.

(** The orders of the join rows of (entity, field) after the turns of the
    items [items], taken from the index [k]: every item leaves one row at
    its index, and the rows that no item names keep their order. *)
Lemma relinkAll_orders (model cm : Model) (e : Z) (key : string) :
  forall (items : list value) (k : Z) (s : Store),
    NoDup (suppliedIds cm items) ->
    (forall item idv, In item items -> get item (primaryKey cm) = Some idv ->
                      toString idv <> None) ->
    (forall str, In str (suppliedIds cm items) ->
       exists z j0,
         str = Zstr z
         /\ existsb (hasId str) (t_rows (getTable (collectionName cm) s)) = true
         /\ filter (fun j => (j_fk j =? e) && String.eqb (j_field j) key
                             && (j_cid j =? z))
              (getJoins (collectionName model) s) = [j0]
         /\ j_type j0 = collectionName cm) ->
    freshNext (getTable (collectionName cm) s) ->
    forall o,
      withOrder e key o
        (getJoins (collectionName model)
           (fold_left (fun acc iv => relink model cm e key (fst iv) (snd iv) acc)
              (indexed k items) s))
      = Nat.add
          (List.length
             (filter (fun j => (j_fk j =? e) && String.eqb (j_field j) key
                               && negb (strIn (Zstr (j_cid j)) (suppliedIds cm items))
                               && (j_order j =? o))
                (getJoins (collectionName model) s)))
          (if (k <=? o) && (o <? k + len items) then 1%nat else 0%nat).
Proof.
  induction items as [|item items IH]; intros k s Hnd Hstr Hone Hfresh o.
  - cbn [indexed fold_left suppliedIds flat_map]. unfold withOrder.
    assert (Hw : ((k <=? o) && (o <? k + len (@nil value))) = false).
    { unfold len. cbn. destruct (Z.leb_spec k o), (Z.ltb_spec o (k + 0));
        cbn; try reflexivity; lia. }
    rewrite Hw, Nat.add_0_r. f_equal. apply filter_ext. intros j.
    unfold strIn. cbn [existsb negb]. now rewrite andb_true_r.
  - cbn [indexed fold_left fst snd].
    assert (Hlen : len (item :: items) = 1 + len items)
      by (unfold len; cbn [List.length]; lia).
    assert (Hpos : 0 <= len items) by (unfold len; lia).
    rewrite Hlen, <- (window_step k o (len items) Hpos), Nat.add_assoc.
    destruct (get item (primaryKey cm)) as [idv|] eqn:Hget.
    + destruct (toString idv) as [str|] eqn:Hs;
        [|now destruct (Hstr item idv (or_introl eq_refl) Hget)].
      assert (Hsup : suppliedIds cm (item :: items) = str :: suppliedIds cm items).
      { cbn [suppliedIds flat_map]. now rewrite Hget, Hs. }
      rewrite Hsup in *. apply NoDup_cons_iff in Hnd. destruct Hnd as [Hnot Hnd].
      destruct (Hone str (or_introl eq_refl)) as (z & j0 & -> & Hrow & Hj0 & Hty).
      apply existsb_exists in Hrow. destruct Hrow as (x & Hx & Hxid).
      destruct (find_first _ _ x Hx Hxid) as (centry & Hfind & Hcid).
      rewrite hasId_Zstr in Hcid. apply Z.eqb_eq in Hcid.
      rewrite (relink_id model cm e key k item idv (Zstr z) centry s Hget Hs Hfind).
      rewrite Hcid.
      set (s1 := reorder model cm e key z k (patchComponent cm z item s)).
      assert (Hj1 : getJoins (collectionName model) s1
                    = map (fun j => if (j_fk j =? e)
                                       && String.eqb (j_type j) (collectionName cm)
                                       && (j_cid j =? z) && String.eqb (j_field j) key
                                    then {| j_fk := j_fk j; j_type := j_type j;
                                            j_cid := j_cid j; j_field := j_field j;
                                            j_order := k |}
                                    else j)
                        (getJoins (collectionName model) s)).
      { unfold s1. now rewrite getJoins_reorder, getJoins_patch. }
      assert (Hrel : s1 = relink model cm e key k item s).
      { unfold s1. rewrite <- Hcid. symmetry.
        now apply (relink_id model cm e key k item idv (Zstr z) centry s). }
      assert (Hz : strIn (Zstr z) (suppliedIds cm items) = false).
      { destruct (strIn (Zstr z) (suppliedIds cm items)) eqn:E; [|reflexivity].
        apply strIn_In in E. contradiction. }
      rewrite (IH (k + 1) s1 Hnd).
      * rewrite Hj1, (left_split e key (collectionName cm) _ z k o _ j0 Hz Hj0 Hty).
        reflexivity.
      * intros it iv Hit. apply Hstr. now right.
      * intros str' Hstr'.
        destruct (Hone str' (or_intror Hstr')) as (z' & j0' & -> & Hrow' & Hj0' & Hty').
        exists z', j0'. split; [reflexivity|]. split; [|split; [|exact Hty']].
        -- rewrite Hrel. now apply hasRow_relink.
        -- rewrite Hj1, one_kept; [exact Hj0'|]. intros ->. contradiction.
      * intros y Hy. rewrite Hrel in Hy.
        rewrite (proj1 (relink_with_id model cm e key k item s (has_get _ _ _ Hget)))
          in Hy.
        unfold s1. rewrite rows_reorder, next_patch. now apply Hfresh.
    + assert (Hsup : suppliedIds cm (item :: items) = suppliedIds cm items).
      { cbn [suppliedIds flat_map]. now rewrite Hget. }
      rewrite Hsup in *.
      rewrite (relink_new model cm e key k item s Hget).
      set (s1 := linkNew model cm e key k item s).
      assert (Hbelow : forall str, In str (suppliedIds cm items) ->
                 exists z, str = Zstr z
                           /\ z <> t_next (getTable (collectionName cm) s)).
      { intros str Hin. destruct (Hone str Hin) as (z & j0 & -> & Hrow & _).
        exists z. split; [reflexivity|].
        apply hasId_row in Hrow. apply Hfresh in Hrow. lia. }
      assert (Hz : strIn (Zstr (t_next (getTable (collectionName cm) s)))
                     (suppliedIds cm items) = false).
      { destruct (strIn _ (suppliedIds cm items)) eqn:E; [|reflexivity].
        apply strIn_In in E. destruct (Hbelow _ E) as (z & Ez & Hne).
        apply Zstr_inj in Ez. congruence. }
      rewrite (IH (k + 1) s1 Hnd).
      * unfold s1. rewrite getJoins_linkNew.
        rewrite (left_added e key (collectionName cm) _ _ k o _ Hz). reflexivity.
      * intros it iv Hit. apply Hstr. now right.
      * intros str' Hstr'.
        destruct (Hone str' Hstr') as (z' & j0' & -> & Hrow' & Hj0' & Hty').
        exists z', j0'. split; [reflexivity|]. split; [|split; [|exact Hty']].
        -- unfold s1. rewrite rows_linkNew, existsb_app, Hrow'. reflexivity.
        -- unfold s1. rewrite getJoins_linkNew, one_kept_added; [exact Hj0'|].
           destruct (Hbelow _ Hstr') as (z2 & Ez & Hne). apply Zstr_inj in Ez.
           congruence.
      * intros y Hy. unfold s1 in *.
        change (getTable (collectionName cm) (linkNew model cm e key k item s))
          with (getTable (collectionName cm) (insertComponent cm item s)) in *.
        rewrite getTable_insertComponent in *. cbn [t_next t_rows] in *.
        rewrite map_app in Hy. apply in_app_or in Hy. destruct Hy as [Hy|[<-|[]]].
        -- apply Hfresh in Hy. lia.
        -- cbn [r_id]. lia.
Qed.

Lemma next_removeAll (cm : Model) (tg : list Row) (s : Store) :
  t_next (getTable (collectionName cm)
            (fold_left (fun acc r => removeRow cm (r_id r) acc) tg s))
  = t_next (getTable (collectionName cm) s).
Proof.
  revert s. induction tg as [|x tg IH]; intros s; [reflexivity|].
  cbn [fold_left]. rewrite IH. unfold removeRow. now rewrite getTable_setTable.
Qed.

Lemma next_prune (model cm : Model) (e : Z) (key : string) (keep : list string)
    (s : Store) :
  t_next (getTable (collectionName cm) (prune model cm e key keep s))
  = t_next (getTable (collectionName cm) s).
Proof.
  unfold prune. destruct (len _ >? 0); [|reflexivity].
  unfold removeComponents. now rewrite next_removeAll.
Qed.

(** In a list whose images under [f] are distinct, an element is the only
    one with its image. *)
Lemma only_one (f : JoinRow -> string) (l : list JoinRow) (x : JoinRow) :
  NoDup (map f l) -> In x l ->
  filter (fun y => String.eqb (f y) (f x)) l = [x].
Proof.
  induction l as [|a l IH]; intros Hnd Hin; [destruct Hin|].
  cbn [map] in Hnd. apply NoDup_cons_iff in Hnd. destruct Hnd as [Ha Hnd].
  cbn [filter]. destruct Hin as [->|Hin].
  - rewrite String.eqb_refl. f_equal. apply filter_none_of. intros y Hy.
    apply String.eqb_neq. intros E. apply Ha. rewrite <- E. now apply in_map.
  - destruct (String.eqb_spec (f a) (f x)) as [E|E]; [|now apply IH].
    exfalso. apply Ha. rewrite E. now apply in_map.
Qed.

(** The orders of the join rows of (entity, field) after the
    reconciliation of the field with [items], on a store where the ids the
    items supply are distinct, joined to (entity, field) and name rows of
    the component table, and where the join rows of (entity, field) name
    distinct instances of the component: one row at each index from 1 to
    the number of items, and no other. *)
Lemma reconcile_orders (model cm : Model) (e : Z) (key : string)
    (items : list value) (s : Store) :
  NoDup (suppliedIds cm items) ->
  (forall item idv, In item items -> get item (primaryKey cm) = Some idv ->
                    toString idv <> None) ->
  (forall id, In id (suppliedIds cm items) -> In id (existingIds model e key s)) ->
  (forall id, In id (suppliedIds cm items) ->
     existsb (hasId id) (t_rows (getTable (collectionName cm) s)) = true) ->
  NoDup (existingIds model e key s) ->
  (forall j, In j (getJoins (collectionName model) s) ->
     (j_fk j =? e) && String.eqb (j_field j) key = true ->
     j_type j = collectionName cm) ->
  freshNext (getTable (collectionName cm) s) ->
  forall o,
    withOrder e key o (getJoins (collectionName model) (reconcile model cm e key items s))
    = (if (1 <=? o) && (o <=? len items) then 1%nat else 0%nat).
Proof.
  intros Hnd Hstr Hrel Hrows Hex Hty Hfresh o. unfold reconcile.
  set (s0 := prune model cm e key (suppliedIds cm items) s).
  destruct (prune_effect model cm e key items s) as [Hj0 Hr0]. fold s0 in Hj0, Hr0.
  set (own := fun j => (j_fk j =? e) && String.eqb (j_field j) key).
  assert (Hkeep : forall j, own j = true ->
                    strIn (Zstr (j_cid j)) (suppliedIds cm items) = true ->
                    negb (strIn (Zstr (j_cid j)) (idsToDelete model cm e key items s)
                          && String.eqb (j_field j) key) = true).
  { intros j _ Hin. apply negb_true_iff.
    destruct (strIn (Zstr (j_cid j)) (idsToDelete model cm e key items s)) eqn:E;
      [|reflexivity].
    apply strIn_In in E. unfold idsToDelete in E. apply filter_In in E.
    destruct E as [_ E]. rewrite Hin in E. discriminate. }
  rewrite (relinkAll_orders model cm e key items 1 s0 Hnd Hstr).
  - assert (Hnone : filter (fun j => (j_fk j =? e) && String.eqb (j_field j) key
                                     && negb (strIn (Zstr (j_cid j))
                                                (suppliedIds cm items))
                                     && (j_order j =? o))
                      (getJoins (collectionName model) s0) = []).
    { apply filter_none_of. intros j Hj. rewrite Hj0 in Hj. apply filter_In in Hj.
      destruct Hj as [Hj Hk].
      destruct ((j_fk j =? e) && String.eqb (j_field j) key) eqn:Eown;
        [|reflexivity].
      destruct (strIn (Zstr (j_cid j)) (suppliedIds cm items)) eqn:Esup;
        [reflexivity|].
      exfalso. apply negb_true_iff in Hk.
      assert (Hd : strIn (Zstr (j_cid j)) (idsToDelete model cm e key items s) = true).
      { apply strIn_In. unfold idsToDelete. apply filter_In. split.
        - unfold existingIds. apply in_map_iff. exists j. split; [reflexivity|].
          apply filter_In. now split.
        - now rewrite Esup. }
      apply andb_prop in Eown. destruct Eown as [_ Ef].
      rewrite Hd, Ef in Hk. discriminate. }
    rewrite Hnone. cbn [List.length Nat.add].
    destruct (Z.leb_spec 1 o), (Z.ltb_spec o (1 + len items)),
      (Z.leb_spec o (len items)); cbn; try reflexivity; lia.
  - intros str Hin.
    pose proof (Hrel str Hin) as Hexist. unfold existingIds in Hexist.
    apply in_map_iff in Hexist. destruct Hexist as (j & Ej & Hj).
    exists (j_cid j), j. split; [now symmetry|].
    split; [now apply hasRow_prune; [|apply Hrows]|].
    assert (Hone : filter (fun y => (j_fk y =? e) && String.eqb (j_field y) key
                                    && (j_cid y =? j_cid j))
                     (getJoins (collectionName model) s) = [j]).
    { rewrite <- (only_one (fun y => Zstr (j_cid y)) _ j Hex Hj).
      rewrite filter_both. apply filter_ext. intros y.
      now rewrite Zstr_eqb. }
    split.
    + rewrite Hj0.
      rewrite (filter_filter_none
                 (fun y => (j_fk y =? e) && String.eqb (j_field y) key
                           && (j_cid y =? j_cid j))
                 (fun y => strIn (Zstr (j_cid y)) (idsToDelete model cm e key items s)
                           && String.eqb (j_field y) key)); [exact Hone|].
      intros y Hy. apply andb_prop in Hy. destruct Hy as [Hown Hc].
      apply Z.eqb_eq in Hc. apply negb_true_iff.
      apply (Hkeep y Hown). rewrite Hc, Ej. now apply strIn_In.
    + apply filter_In in Hj. apply Hty; apply Hj.
  - intros z Hz. rewrite Hr0 in Hz. unfold s0. rewrite next_prune. apply Hfresh.
    apply in_map_iff in Hz. destruct Hz as (r & <- & Hr). apply filter_In in Hr.
    apply in_map. apply Hr.
Qed.

(** X18. An update keeps the orders of a repeatable field dense. Over a flat
    component and under the handle of an open transaction, on a store where
    the join rows of (entity, field) name distinct instances of the
    component and the next id of its table is above its rows, and for items
    whose ids are distinct, joined to (entity, field) and name rows of the
    component: the turn of [updateComponents] for the field resolves, and
    afterwards the join rows of (entity, field) are one at each order from
    1 to the number of items, and none at any other order. *)
Theorem updateComponents_orders (reg : list (string * Model)) (n : nat)
    (model cm : Model) (entry : Row) (values : value) (key : string)
    (attr : Attribute) (items : list value) (keep : list string) (t : nat)
    (w : World) (s : Store) :
  alookup key (attributes model) = Some attr ->
  a_type attr = "component" -> a_repeatable attr = true ->
  get values key = Some (VArr items) ->
  validateRepeatableInput (VArr items) key attr = Ok tt ->
  alookup (a_component attr) reg = Some cm ->
  flatComponent reg cm ->
  plookup t (pending w) = Some s ->
  idStrings (primaryKey cm) (filter (fun el => has el (primaryKey cm)) items) = Ok keep ->
  NoDup keep ->
  (forall id, In id keep -> In id (existingIds model (r_id entry) key s)) ->
  (forall id, In id keep ->
     existsb (hasId id) (t_rows (getTable (collectionName cm) s)) = true) ->
  NoDup (map r_id (t_rows (getTable (collectionName cm) s))) ->
  NoDup (existingIds model (r_id entry) key s) ->
  (forall j, In j (getJoins (collectionName model) s) -> joinOf entry key j = true ->
     j_type j = collectionName cm) ->
  freshNext (getTable (collectionName cm) s) ->
  exists s',
    updateComponentsField (strapiOf reg (S n)) model entry values (Some t) key w
    = (Ok tt, setView (Some t) s' w)
    /\ forall o,
         withOrder (r_id entry) key o (getJoins (collectionName model) s')
         = (if (1 <=? o) && (o <=? len items) then 1%nat else 0%nat).
Proof.
  intros Hattr Hty Hrep Hget Hval Hcm Hflat Hs Hkeep Hnd Hrel Hrows Hids Hex Htype
    Hfresh.
  exists (reconcile model cm (r_id entry) key items s). split.
  - now apply (updateComponentsField_repeatable reg n model cm entry values key attr
                 items keep t w s).
  - pose proof (idStrings_supplied cm items keep Hkeep) as Hsup.
    apply reconcile_orders.
    + now rewrite Hsup.
    + intros item idv Hin Hg.
      destruct (idStrings_ready _ _ _ item idv Hkeep Hin Hg) as (str & Hstr & _).
      congruence.
    + rewrite Hsup. exact Hrel.
    + rewrite Hsup. exact Hrows.
    + exact Hex.
    + exact Htype.
    + exact Hfresh.
Qed.

(** An instance of X18: the sections of the article of the scenario given
    in another order, with a new section between them. *)
Lemma updateComponents_orders_witness :
  exists s',
    updateComponentsField (strapiOf registry 2) articleModel articleEntry
      reorderSections (Some 0%nat) "sections" (worldOf 0 (committed articleWorld))
    = (Ok tt, setView (Some 0%nat) s' (worldOf 0 (committed articleWorld)))
    /\ forall o,
         withOrder (r_id articleEntry) "sections" o
           (getJoins (collectionName articleModel) s')
         = (if (1 <=? o) && (o <=? len [VObj [("id", VNum 2); ("text", VStr "y2")];
                                        VObj [("text", VStr "n")];
                                        VObj [("id", VNum 1)]])
            then 1%nat else 0%nat).
Proof.
  assert (Hnd : forall l : list Z, l = [1; 2] -> NoDup l).
  { intros l ->. repeat (constructor; [cbn; intuition discriminate|]). constructor. }
  assert (Hnds : forall l : list string, l = ["1"; "2"] -> NoDup l).
  { intros l ->. repeat (constructor; [cbn; intuition discriminate|]). constructor. }
  assert (Hnds' : forall l : list string, l = ["2"; "1"] -> NoDup l).
  { intros l ->. repeat (constructor; [cbn; intuition discriminate|]). constructor. }
  apply (updateComponents_orders registry 1 articleModel sectionModel articleEntry
           reorderSections "sections" (repeatableAttr "section" false (Some 1) (Some 5))
           _ ["2"; "1"] 0 (worldOf 0 (committed articleWorld)) (committed articleWorld)).
  - reflexivity.
  - reflexivity.
  - reflexivity.
  - reflexivity.
  - reflexivity.
  - reflexivity.
  - apply sectionModel_flat.
  - reflexivity.
  - vm_compute. reflexivity.
  - now apply Hnds'.
  - intros id [<-|[<-|[]]]; vm_compute; auto.
  - intros id [<-|[<-|[]]]; vm_compute; reflexivity.
  - apply Hnd. vm_compute. reflexivity.
  - apply Hnds. vm_compute. reflexivity.
  - intros j Hj _. vm_compute in Hj. destruct Hj as [<-|[<-|[]]]; reflexivity.
  - intros z Hz. vm_compute in Hz. destruct Hz as [<-|[<-|[]]]; vm_compute; reflexivity.
Defined.

(** X19. An update of a non-repeatable component field leaves at most one
    instance joined to it. Over a flat component and under the handle of
    an open transaction, on a store as in X18: the turn of
    [updateComponents] for the field resolves; given [null], it leaves no
    join row of (entity, field); given an object, it leaves one join row,
    at the order 1, and none at another order. *)
Theorem updateComponents_single (reg : list (string * Model)) (n : nat)
    (model cm : Model) (entry : Row) (values : value) (key : string)
    (attr : Attribute) (v : value) (keep : list string) (t : nat)
    (w : World) (s : Store) :
  alookup key (attributes model) = Some attr ->
  a_type attr = "component" -> a_repeatable attr = false ->
  get values key = Some v ->
  validateNonRepeatableInput v key attr = Ok tt ->
  alookup (a_component attr) reg = Some cm ->
  flatComponent reg cm ->
  plookup t (pending w) = Some s ->
  idStrings (primaryKey cm) (filter (fun el => has el (primaryKey cm)) [v]) = Ok keep ->
  (forall id, In id keep -> In id (existingIds model (r_id entry) key s)) ->
  (forall id, In id keep ->
     existsb (hasId id) (t_rows (getTable (collectionName cm) s)) = true) ->
  NoDup (map r_id (t_rows (getTable (collectionName cm) s))) ->
  NoDup (existingIds model (r_id entry) key s) ->
  (forall j, In j (getJoins (collectionName model) s) -> joinOf entry key j = true ->
     j_type j = collectionName cm) ->
  freshNext (getTable (collectionName cm) s) ->
  exists s',
    updateComponentsField (strapiOf reg (S n)) model entry values (Some t) key w
    = (Ok tt, setView (Some t) s' w)
    /\ forall o,
         withOrder (r_id entry) key o (getJoins (collectionName model) s')
         = (if isNull v then 0%nat else if o =? 1 then 1%nat else 0%nat).
Proof.
  intros Hattr Hty Hrep Hget Hval Hcm Hflat Hs Hkeep Hrel Hrows Hids Hex Htype
    Hfresh.
  exists (reconcile model cm (r_id entry) key (if isNull v then [] else [v]) s).
  split.
  - now apply (updateComponentsField_single reg n model cm entry values key attr
                 v keep t w s).
  - pose proof (idStrings_supplied cm [v] keep Hkeep) as Hsup.
    assert (Hitems : suppliedIds cm (if isNull v then [] else [v]) = keep).
    { destruct v; exact Hsup. }
    intros o.
    rewrite reconcile_orders.
    + destruct (isNull v).
      * change (len (@nil value)) with 0.
        destruct (Z.leb_spec 1 o), (Z.leb_spec o 0); cbn; try reflexivity; lia.
      * change (len [v]) with 1.
        destruct (Z.leb_spec 1 o), (Z.leb_spec o 1), (Z.eqb_spec o 1); cbn;
          try reflexivity; lia.
    + rewrite Hitems, <- Hsup. cbn [suppliedIds flat_map].
      destruct (get v (primaryKey cm)) as [idv|]; [|constructor].
      destruct (toString idv); cbn [app]; repeat constructor. intros [].
    + intros item idv Hin Hg.
      assert (Hin' : In item [v]) by (destruct (isNull v); [destruct Hin|exact Hin]).
      destruct (idStrings_ready _ _ _ item idv Hkeep Hin' Hg) as (str & Hstr & _).
      congruence.
    + rewrite Hitems. exact Hrel.
    + rewrite Hitems. exact Hrows.
    + exact Hex.
    + exact Htype.
    + exact Hfresh.
Qed.

(** An instance of X19: the cover of an album set to [null]. *)
Lemma updateComponents_single_witness :
  exists s',
    updateComponentsField (strapiOf registry 2) albumModel
      {| r_id := 1; r_data := [("name", VStr "N")] |}
      (VObj [("cover", VNull)]) (Some 0%nat) "cover" (worldOf 0 (committed albumWorld))
    = (Ok tt, setView (Some 0%nat) s' (worldOf 0 (committed albumWorld)))
    /\ forall o,
         withOrder 1 "cover" o (getJoins (collectionName albumModel) s')
         = (if isNull VNull then 0%nat else if o =? 1 then 1%nat else 0%nat).
Proof.
  apply (updateComponents_single registry 1 albumModel sectionModel
           {| r_id := 1; r_data := [("name", VStr "N")] |}
           (VObj [("cover", VNull)]) "cover" (singleAttr "section" false)
           VNull [] 0 (worldOf 0 (committed albumWorld)) (committed albumWorld)).
  - reflexivity.
  - reflexivity.
  - reflexivity.
  - reflexivity.
  - reflexivity.
  - reflexivity.
  - apply sectionModel_flat.
  - reflexivity.
  - reflexivity.
  - intros id [].
  - intros id [].
  - vm_compute. repeat (constructor; [cbn; intuition discriminate|]). constructor.
  - vm_compute. repeat (constructor; [cbn; intuition discriminate|]). constructor.
  - intros j Hj _. vm_compute in Hj. destruct Hj as [<-|[]]. reflexivity.
  - intros z Hz. vm_compute in Hz. destruct Hz as [<-|[]]. vm_compute. reflexivity.
Defined.
